(** * Game Asset Exporter (export.py): baking and serialisation pipeline

    A shallow embedding of the mesh and skeleton+animation exporters.

    Modelling conventions.
    - Python numbers (the ints and floats that flow through the exporter)
      are an interface [PyNum]; every definition and most theorems are
      generic in it.  The instance [IEEE.Binary64] interprets them as the
      IEEE 754 doubles of CPython, with rounding to nearest even, signed
      zeros, infinities and overflow as [SpecFloat] defines them.  An int
      is the double of its value (the ints that occur are 0, 1 and frame
      numbers).  Every NaN is taken as one object, equal to itself.
    - [mathutils] (matrices, vectors, quaternions) and the scene evaluation
      of [bpy] are external collaborators: interfaces [Mathutils] and
      [Blender].  A [Vector] stores its components as 32-bit floats and
      compares equal to another one when each pair of components differs
      by at most one unit in the last place ([num_close]).
    - The output file is the sequence of primitive fields written to it, in
      binary mode ([fileWriteMode = "wb"], the value the source sets; the
      text mode is not modelled).  [struct.pack] raises [struct.error] for
      an integer outside the range of its format.  It rounds a float to 32
      bits and raises for a finite double beyond the range of 32-bit
      floats only; the components of vectors and matrices are 32-bit floats
      already, and the packing of a float is taken as total.
    - The dict of vertices is an association list in insertion order, looked
      up by [__hash__] and [__eq__]: a lookup finds the first key, in
      insertion order, that has the hash of the probe and that [__eq__]
      accepts.  [__eq__] is not structural equality: it compares the three
      vectors as [mathutils] does and the two lists item by item with [==].
    - A Python list is a value where nothing depends on its identity, and
      an object in a heap ([Objects]) where the claim is about what a
      function does to its argument.
    - Exceptions propagate: a computation yields [Ok v] or [Raise e], and the
      state reached when the exception was raised is kept. *)

From Stdlib Require Import ZArith List Bool Lia.
From Stdlib Require Import Floats.SpecFloat.
Import ListNotations.

Set Implicit Arguments.
Local Open Scope Z_scope.

(** ** Python values *)

(** Exceptions the exporter can run into. *)
Inductive exn : Type :=
| StructError          (* struct.pack: integer out of range for the format *)
| UnicodeEncodeError   (* str.encode('ascii') on a non-ASCII code point *)
| ValueError           (* Matrix.inverted() on a singular matrix *)
| AttributeError       (* attribute access on 0 / None *)
| IndexError           (* list index out of range *)
| KeyError             (* dict[key] on a missing key *)
| ZeroDivisionError    (* a / b with b == 0 *)
| OSError.             (* open() failed *)

Inductive Result (A : Type) : Type :=
| Ok (a : A)
| Raise (e : exn).
Arguments Ok {A} a.
Arguments Raise {A} e.

Definition rbind {A B : Type} (r : Result A) (k : A -> Result B) : Result B :=
  match r with
  | Ok a => k a
  | Raise e => Raise e
  end.

Declare Scope result_scope.
Delimit Scope result_scope with result.
Notation "x <- c ;; k" := (rbind c (fun x => k))
  (at level 61, c at next level, right associativity) : result_scope.

(** A Python [str] is a sequence of Unicode code points. *)
Definition str : Type := list N.

Definition str_eqb (a b : str) : bool :=
  if list_eq_dec N.eq_dec a b then true else false.

(** Numbers as the exporter uses them.  [num_of_Z] is an int, [num_add]
    and [num_sub] are [+] and [-], [num_div] is the quotient [a / b] for a
    divisor other than zero, [num_eqb] is [==], [num_hash] is the built-in
    [hash] and [num_int] is [int(x)].  [num_close a b] is the comparison
    [mathutils] makes between a component of a [Vector] that holds [a] and
    the same component of one that holds [b].  A number is equal to itself
    and close to itself; nothing says that two numbers that are equal or
    close are the same, or that closeness is transitive. *)
Class PyNum : Type := {
  num : Type;
  num_of_Z : Z -> num;
  num_add : num -> num -> num;
  num_sub : num -> num -> num;
  num_div : num -> num -> num;
  num_eqb : num -> num -> bool;
  num_hash : num -> Z;
  num_int : num -> Z;
  num_close : num -> num -> bool;
  num_eqb_refl : forall a : num, num_eqb a a = true;
  num_close_refl : forall a : num, num_close a a = true
}.

(** [a / b]: [ZeroDivisionError] when [b == 0]. *)
Definition truediv {PN : PyNum} (a b : num) : Result num :=
  if num_eqb b (num_of_Z 0) then Raise ZeroDivisionError else Ok (num_div a b).

(** ** mathutils *)

Section Vectors.
Context {PN : PyNum}.

(** [Vector] of size 3: [.x], [.y], [.z]. *)
Record Vec3 : Type := mkVec3 { x : num; y : num; z : num }.

(** [Vector] of size 2: [v[0]] is [.x], [v[1]] is [.y]. *)
Record Vec2 : Type := mkVec2 { vx : num; vy : num }.

Record Quaternion : Type := mkQuaternion { qw : num; qx : num; qy : num; qz : num }.

(** [a == b] on two vectors of size 3, and of size 2: every pair of
    components is close. *)
Definition Vec3_eqb (a b : Vec3) : bool :=
  num_close (x a) (x b) && num_close (y a) (y b) && num_close (z a) (z b).

Definition Vec2_eqb (a b : Vec2) : bool :=
  num_close (vx a) (vx b) && num_close (vy a) (vy b).
End Vectors.

(** 4x4 matrices. [matmul] is [@]; [inverted] raises [ValueError] on a
    singular matrix ([None] here); iterating a matrix yields its rows. *)
Class Mathutils {PN : PyNum} : Type := {
  Matrix : Type;
  matmul : Matrix -> Matrix -> Matrix;
  inverted : Matrix -> option Matrix;
  rows : Matrix -> list (list num);
  to_translation : Matrix -> Vec3;
  to_quaternion : Matrix -> Quaternion;
  to_scale : Matrix -> Vec3
}.

(** ** Data model *)

Section DataModel.
Context {PN : PyNum} {MU : Mathutils}.

(** export.py, lines 23-29. *)
Record Vertex : Type := mkVertex {
  position : Vec3;
  uv : Vec2;
  normal : Vec3;
  jointIndices : list Z;
  jointWeights : list num
}.

Fixpoint list_eqb {A : Type} (eqb : A -> A -> bool) (a b : list A) : bool :=
  match a, b with
  | [], [] => true
  | h1 :: t1, h2 :: t2 => eqb h1 h2 && list_eqb eqb t1 t2
  | _, _ => false
  end.

(** [__eq__], lines 31-32: the two [__dict__]s are compared, that is
    every attribute with its own [==]: the three vectors as [mathutils]
    compares them, the two lists item by item. *)
Definition Vertex_eq (self other : Vertex) : bool :=
  Vec3_eqb (position self) (position other)
  && Vec2_eqb (uv self) (uv other)
  && Vec3_eqb (normal self) (normal other)
  && list_eqb Z.eqb (jointIndices self) (jointIndices other)
  && list_eqb num_eqb (jointWeights self) (jointWeights other).

(** [__hash__], lines 33-34. *)
Definition Vertex_hash (self : Vertex) : Z := num_hash (x (position self)).

(** export.py, lines 36-38. *)
Record Face : Type := mkFace { vertexIndices : list Z }.

(** Armature bones ([armature.data.bones]); [bone.parent] is a bone or
    [None]. *)
#[warnings="-register-all"]
Inductive Bone : Type :=
  mkBone (name : str) (parent : option Bone) (matrix_local : Matrix).

Definition bone_name (b : Bone) : str := let (n, _, _) := b in n.
Definition bone_parent (b : Bone) : option Bone := let (_, p, _) := b in p.
Definition bone_matrix_local (b : Bone) : Matrix := let (_, _, m) := b in m.

Record Armature : Type := mkArmature { bones : list Bone }.

(** [bones.find(key)] of a [bpy] collection: the index of the first item
    named [key], and -1 when there is none. *)
Fixpoint find_from (i : Z) (l : list Bone) (key : str) : Z :=
  match l with
  | [] => -1
  | b :: rest => if str_eqb (bone_name b) key then i else find_from (i + 1) rest key
  end.

Definition find (l : list Bone) (key : str) : Z := find_from 0 l key.

(** An action: its name and its [frame_range] vector. *)
Record Action : Type := mkAction { action_name : str; frame_range : Vec2 }.

Inductive PosePosition : Type := POSE | REST.

(** One entry of [mesh.vertices[i].groups]. *)
Record VertexGroupElement : Type := mkGroup { group : nat; weight : num }.

(** A loop (face corner) of the evaluated mesh with what lines 107-111
    read through it: [mesh.vertices[loop.vertex_index]]'s [undeformed_co]
    and [groups], the active UV layer's [uv], and the split [normal]. *)
Record Loop : Type := mkLoop {
  undeformed_co : Vec3;
  loop_uv : Vec2;
  loop_normal : Vec3;
  groups : list VertexGroupElement
}.

(** A polygon, as the loops its [loop_indices] select. *)
Definition Polygon : Type := list Loop.

(** A mesh object: the names of its [vertex_groups], its [matrix_world],
    and [evaluated m p], the polygons of the mesh that lines 97-101 build
    (modifiers applied under pose position [p], transformed by [m],
    triangulated, split normals computed). *)
Record Object : Type := mkObject {
  vertex_groups : list str;
  matrix_world : Matrix;
  evaluated : Matrix -> PosePosition -> list Polygon
}.

(** What the scene evaluation of [bpy] provides: the world matrix of a
    pose bone ([armature.pose.bones] runs parallel to
    [armature.data.bones]) under a pose position, an active action and a
    frame, and the axis conversion matrix of the export properties. *)
Class Blender : Type := {
  pose_matrix : PosePosition -> option Action -> Z -> Bone -> Matrix;
  getAxisMappingMatrix : Matrix
}.

(** ** Output file *)

(** A primitive field of the output, as [struct.pack] lays it out. *)
Inductive Item : Type :=
| U32 (value : Z)
| U16 (value : Z)
| U8 (value : Z)
| F32 (value : num)
| Bool8 (value : bool)
| Text (bytes : list N).

(** The number of bytes a field takes in the file. *)
Definition item_size (i : Item) : Z :=
  match i with
  | U32 _ => 4
  | U16 _ => 2
  | U8 _ => 1
  | F32 _ => 4
  | Bool8 _ => 1
  | Text bs => Z.of_nat (length bs)
  end.

Definition file_size (f : list Item) : Z :=
  fold_right (fun i n => item_size i + n) 0 f.

(** ** Session state and the exporter's monad *)

(** The session state the exporter reads and writes, and the destination
    file: [writable] says whether [open] succeeds on its path.
    [animation_data] says whether the armature has animation data
    ([armature.animation_data] is [None] when it has none); [action] is the
    active action of that animation data. *)
Record World : Type := mkWorld {
  frame_current : Z;              (* bpy.context.scene.frame_current *)
  animation_data : bool;          (* armature.animation_data is not None *)
  action : option Action;         (* armature.animation_data.action *)
  pose_position : PosePosition;   (* armature.data.pose_position *)
  writable : bool;
  file : list Item
}.

Definition M (A : Type) : Type := World -> Result A * World.

Definition ret {A : Type} (a : A) : M A := fun w => (Ok a, w).

Definition raise {A : Type} (e : exn) : M A := fun w => (Raise e, w).

Definition bind {A B : Type} (m : M A) (k : A -> M B) : M B :=
  fun w =>
    match m w with
    | (Ok a, w') => k a w'
    | (Raise e, w') => (Raise e, w')
    end.

Definition lift {A : Type} (r : Result A) : M A := fun w => (r, w).

Definition get : M World := fun w => (Ok w, w).

End DataModel.

Declare Scope exporter_scope.
Delimit Scope exporter_scope with exporter.
Notation "x <- c ;; k" := (bind c (fun x => k))
  (at level 61, c at next level, right associativity) : exporter_scope.
Notation "c ;; k" := (bind c (fun _ => k))
  (at level 61, right associativity) : exporter_scope.

(** ** Python lists, ranges and dicts *)

Section Python.
Context {PN : PyNum} {MU : Mathutils}.

Definition len {A : Type} (l : list A) : Z := Z.of_nat (length l).

(** [l[i]]. *)
Definition getitem {A : Type} (l : list A) (i : nat) : Result A :=
  match nth_error l i with
  | Some a => Ok a
  | None => Raise IndexError
  end.

(** [l[i] = v]. *)
Fixpoint setitem {A : Type} (l : list A) (i : nat) (v : A) : Result (list A) :=
  match l, i with
  | [], _ => Raise IndexError
  | _ :: t, O => Ok (v :: t)
  | h :: t, S j => (t' <- setitem t j v ;; Ok (h :: t'))%result
  end.

(** [range(a, b)]. *)
Definition range (a b : Z) : list Z :=
  map (fun i => a + Z.of_nat i) (seq 0 (Z.to_nat (b - a))).

(** [sum(weights)]: left to right, starting from the int 0. *)
Definition sum (l : list num) : num := fold_left num_add l (num_of_Z 0).

(** The dict [vertices] of [getDataFromMeshObjects]: keys in insertion
    order, each with its value.  A lookup selects the first key with the hash
    of the probe that [__eq__] accepts. *)
Definition VertexDict : Type := list (Vertex * Z).

Definition same_key (probe : Vertex) (entry : Vertex * Z) : bool :=
  (Vertex_hash (fst entry) =? Vertex_hash probe) && Vertex_eq (fst entry) probe.

(** [vertices.get(vertex)]. *)
Definition dict_get (vertices : VertexDict) (vertex : Vertex) : option Z :=
  option_map snd (List.find (same_key vertex) vertices).

(** [vertices[vertex]]. *)
Definition dict_getitem (vertices : VertexDict) (vertex : Vertex) : Result Z :=
  match dict_get vertices vertex with
  | Some i => Ok i
  | None => Raise KeyError
  end.

(** [vertices[vertex] = value]: the value of a present key is replaced, a
    new key goes to the end. *)
Fixpoint dict_setitem (vertices : VertexDict) (vertex : Vertex) (value : Z) : VertexDict :=
  match vertices with
  | [] => [(vertex, value)]
  | entry :: rest =>
      if same_key vertex entry then (fst entry, value) :: rest
      else entry :: dict_setitem rest vertex value
  end.

End Python.

(** ** Baking: export.py, lines 78-129 *)

Section Baking.
Context {PN : PyNum} {MU : Mathutils}.
Local Open Scope result_scope.

(** Lines 78-83. *)
Fixpoint normalizeJointWeights_loop (totalWeights : num) (i : nat)
         (weights : list num) (result : list num) : Result (list num) :=
  match weights with
  | [] => Ok result
  | weight :: rest =>
      quotient <- truediv weight totalWeights ;;
      result' <- setitem result i quotient ;;
      normalizeJointWeights_loop totalWeights (S i) rest result'
  end.

Definition normalizeJointWeights (weights : list num) : Result (list num) :=
  let totalWeights := sum weights in
  let result := [num_of_Z 0; num_of_Z 0; num_of_Z 0; num_of_Z 0] in
  if negb (num_eqb totalWeights (num_of_Z 0))
  then normalizeJointWeights_loop totalWeights 0 weights result
  else Ok result.

(** Lines 124-126: the index of [vertex] in the deduplication dict. *)
Definition intern (vertices : VertexDict) (vertex : Vertex) : Result (VertexDict * Z) :=
  let vertices' :=
    match dict_get vertices vertex with
    | None => dict_setitem vertices vertex (len vertices)
    | Some _ => vertices
    end in
  index <- dict_getitem vertices' vertex ;;
  Ok (vertices', index).

(** Lines 116-121: the loop over the vertex's groups. *)
Fixpoint bindJoints (armature : Armature) (object : Object) (jointBindingIndex : nat)
         (gs : list VertexGroupElement) (jointIndices : list Z) (jointWeights : list num)
  : Result (list Z * list num) :=
  match gs with
  | [] => Ok (jointIndices, jointWeights)
  | g :: rest =>
      if (jointBindingIndex <? 4)%nat then
        let groupIndex := group g in
        boneName <- getitem (vertex_groups object) groupIndex ;;
        jointIndices' <- setitem jointIndices jointBindingIndex
                                 (find (bones armature) boneName) ;;
        jointWeights' <- setitem jointWeights jointBindingIndex (weight g) ;;
        bindJoints armature object (S jointBindingIndex) rest jointIndices' jointWeights'
      else
        bindJoints armature object (S jointBindingIndex) rest jointIndices jointWeights
  end.

(** Lines 107-123: the vertex of one face corner.  [uv.y = 1-uv.y] stores
    the difference in the vector, which keeps it as a 32-bit float; the
    two places that look at it, [num_close] and the [F32] field of the
    file, both take a number to 32 bits, and the vector holds the
    difference itself here. *)
Definition makeVertex (armature : option Armature) (object : Object) (loop : Loop)
  : Result Vertex :=
  let position := undeformed_co loop in
  let uv := mkVec2 (vx (loop_uv loop)) (num_sub (num_of_Z 1) (vy (loop_uv loop))) in
  let normal := loop_normal loop in
  let jointIndices := [0; 0; 0; 0]%Z in
  let jointWeights := [num_of_Z 0; num_of_Z 0; num_of_Z 0; num_of_Z 0] in
  bindings <- match armature with
              | Some a => bindJoints a object 0 (groups loop) jointIndices jointWeights
              | None => Ok (jointIndices, jointWeights)
              end ;;
  normalized <- normalizeJointWeights (snd bindings) ;;
  Ok (mkVertex position uv normal (fst bindings) normalized).

(** Lines 106-126: the corners of one polygon. *)
Fixpoint bakeLoops (armature : option Armature) (object : Object) (loops : list Loop)
         (vertices : VertexDict) : Result (VertexDict * list Z) :=
  match loops with
  | [] => Ok (vertices, [])
  | loop :: rest =>
      vertex <- makeVertex armature object loop ;;
      interned <- intern vertices vertex ;;
      done <- bakeLoops armature object rest (fst interned) ;;
      Ok (fst done, snd interned :: snd done)
  end.

(** Lines 103-127: the polygons of one mesh. *)
Fixpoint bakePolygons (armature : option Armature) (object : Object)
         (polygons : list Polygon) (vertices : VertexDict)
  : Result (VertexDict * list Face) :=
  match polygons with
  | [] => Ok (vertices, [])
  | polygon :: rest =>
      if (length polygon =? 3)%nat then
        corners <- bakeLoops armature object polygon vertices ;;
        done <- bakePolygons armature object rest (fst corners) ;;
        Ok (fst done, mkFace (snd corners) :: snd done)
      else bakePolygons armature object rest vertices
  end.

(** Lines 95-127: the selected objects. *)
Fixpoint bakeObjects (sceneWithAppliedModifiers : PosePosition)
         (objects : list Object) (armature : option Armature) (transformMatrix : Matrix)
         (vertices : VertexDict) : Result (VertexDict * list Face) :=
  match objects with
  | [] => Ok (vertices, [])
  | object :: rest =>
      let mesh := evaluated object (matmul transformMatrix (matrix_world object))
                            sceneWithAppliedModifiers in
      baked <- bakePolygons armature object mesh vertices ;;
      done <- bakeObjects sceneWithAppliedModifiers rest armature transformMatrix (fst baked) ;;
      Ok (fst done, snd baked ++ snd done)
  end.

(** Lines 91-129.  [vertices.keys()] lists the keys in insertion order. *)
Definition getDataFromMeshObjects (sceneWithAppliedModifiers : PosePosition)
           (objects : list Object) (armature : option Armature) (transformMatrix : Matrix)
  : Result (list Vertex * list Face) :=
  baked <- bakeObjects sceneWithAppliedModifiers objects armature transformMatrix [] ;;
  Ok (map fst (fst baked), snd baked).

End Baking.

(** ** Lists as objects: export.py, lines 78-83 again

    [normalizeJointWeights] once more, its lists being objects of a heap, so
    that what the call does to its argument can be said. *)

Module Objects.
Section Objects.
Context {PN : PyNum}.

(** The list objects: [items h r] is what the list at address [r] holds,
    [next h] is the first address not in use. *)
Record Heap : Type := mkHeap { items : nat -> list num; next : nat }.

Definition St (A : Type) : Type := Heap -> Result A * Heap.

Definition ret {A : Type} (a : A) : St A := fun h => (Ok a, h).

Definition bind {A B : Type} (m : St A) (k : A -> St B) : St B :=
  fun h =>
    match m h with
    | (Ok a, h') => k a h'
    | (Raise e, h') => (Raise e, h')
    end.

Definition lift {A : Type} (r : Result A) : St A := fun h => (r, h).

End Objects.

Declare Scope objects_scope.
Delimit Scope objects_scope with objects.
Notation "x <- c ;; k" := (bind c (fun x => k))
  (at level 61, c at next level, right associativity) : objects_scope.
Notation "c ;; k" := (bind c (fun _ => k))
  (at level 61, right associativity) : objects_scope.

Section Lists.
Context {PN : PyNum}.
Local Open Scope objects_scope.

(** A list display: a new object. *)
Definition new_list (l : list num) : St nat :=
  fun h => (Ok (next h),
            mkHeap (fun r => if (r =? next h)%nat then l else items h r) (S (next h))).

(** [len(r)], [sum(r)], [r[i]] and [r[i] = v]. *)
Definition len_of (r : nat) : St nat := fun h => (Ok (length (items h r)), h).

Definition sum_of (r : nat) : St num := fun h => (Ok (sum (items h r)), h).

Definition load_item (r i : nat) : St num := fun h => (getitem (items h r) i, h).

Definition store_item (r i : nat) (v : num) : St unit :=
  fun h =>
    match setitem (items h r) i v with
    | Ok l => (Ok tt, mkHeap (fun r' => if (r' =? r)%nat then l else items h r') (next h))
    | Raise e => (Raise e, h)
    end.

(** Line 82: the iterator of [enumerate(weights)] reads the item at [i]
    when the loop gets there; the length of a list does not change under
    [l[i] = v], so that the positions it visits are those of the start. *)
Fixpoint for_enumerate (totalWeights : num) (weights result : nat) (positions : list nat)
  : St unit :=
  match positions with
  | [] => ret tt
  | i :: rest =>
      weight <- load_item weights i ;;
      quotient <- lift (truediv weight totalWeights) ;;
      store_item result i quotient ;;
      for_enumerate totalWeights weights result rest
  end.

(** Lines 78-83. *)
Definition normalizeJointWeights (weights : nat) : St nat :=
  totalWeights <- sum_of weights ;;
  result <- new_list [num_of_Z 0; num_of_Z 0; num_of_Z 0; num_of_Z 0] ;;
  (if negb (num_eqb totalWeights (num_of_Z 0))
   then n <- len_of weights ;; for_enumerate totalWeights weights result (seq 0 n)
   else ret tt) ;;
  ret result.

End Lists.
End Objects.

(** ** Writers and operators: export.py, lines 40-76 and 131-258 *)

Section Exporter.
Context {PN : PyNum} {MU : Mathutils} {BL : Blender}.
Local Open Scope exporter_scope.

Definition set_file (f : list Item) (w : World) : World :=
  mkWorld (frame_current w) (animation_data w) (action w) (pose_position w) (writable w) f.

Definition set_frame_current (frame : Z) (w : World) : World :=
  mkWorld frame (animation_data w) (action w) (pose_position w) (writable w) (file w).

Definition set_action (a : option Action) (w : World) : World :=
  mkWorld (frame_current w) (animation_data w) a (pose_position w) (writable w) (file w).

Definition set_pose_position (p : PosePosition) (w : World) : World :=
  mkWorld (frame_current w) (animation_data w) (action w) p (writable w) (file w).

(** [armature.animation_data.action], read and assigned: on an armature
    with no animation data, [None] has no attribute [action]. *)
Definition get_action : M (option Action) :=
  fun w => if animation_data w then (Ok (action w), w) else (Raise AttributeError, w).

Definition assign_action (a : option Action) : M unit :=
  fun w => if animation_data w then (Ok tt, set_action a w) else (Raise AttributeError, w).

(** [open(path, "wb")]: the file is created or truncated. *)
Definition open : M unit :=
  fun w => if writable w then (Ok tt, set_file [] w) else (Raise OSError, w).

(** [file.write] of one packed field. *)
Definition write (i : Item) : M unit :=
  fun w => (Ok tt, set_file (file w ++ [i]) w).

Definition in_range (value bound : Z) : bool := (0 <=? value) && (value <=? bound).

(** Lines 40-62, binary mode.  [struct.pack] is evaluated before
    [file.write]: an integer out of range leaves the file as it is. *)
Definition writeUint32 (value : Z) : M unit :=
  if in_range value 4294967295 then write (U32 value) else raise StructError.

Definition writeUint16 (value : Z) : M unit :=
  if in_range value 65535 then write (U16 value) else raise StructError.

Definition writeUint8 (value : Z) : M unit :=
  if in_range value 255 then write (U8 value) else raise StructError.

Definition writeFloat (value : num) : M unit := write (F32 value).

Definition writeBool (value : bool) : M unit := write (Bool8 value).

(** [text.encode('ascii')]. *)
Definition encode_ascii (text : str) : Result (list N) :=
  if forallb (fun c => (c <? 128)%N) text then Ok text else Raise UnicodeEncodeError.

Definition writeString (text : str) : M unit :=
  bytes <- lift (encode_ascii text) ;; write (Text bytes).

(** A [for] loop whose body runs for its effect. *)
Fixpoint for_each {A : Type} (l : list A) (body : A -> M unit) : M unit :=
  match l with
  | [] => ret tt
  | a :: rest => body a ;; for_each rest body
  end.

(** Lines 64-76. *)
Definition writeVertex (vertex : Vertex) (writeJointBindings : bool) : M unit :=
  writeFloat (x (position vertex)) ;;
  writeFloat (y (position vertex)) ;;
  writeFloat (z (position vertex)) ;;
  writeFloat (vx (uv vertex)) ;;
  writeFloat (vy (uv vertex)) ;;
  writeFloat (x (normal vertex)) ;;
  writeFloat (y (normal vertex)) ;;
  writeFloat (z (normal vertex)) ;;
  if writeJointBindings then
    for_each (seq 0 4) (fun i =>
      index <- lift (getitem (jointIndices vertex) i) ;; writeUint8 index) ;;
    for_each (seq 0 4) (fun i =>
      weight <- lift (getitem (jointWeights vertex) i) ;; writeFloat weight)
  else ret tt.

Definition writeVertices (vertices : list Vertex) (writeJointBindings : bool) : M unit :=
  for_each vertices (fun vertex => writeVertex vertex writeJointBindings).

(** Lines 131-134. *)
Definition writeFaces (faces : list Face) : M unit :=
  for_each faces (fun face =>
    for_each (vertexIndices face) (fun vertexIndex => writeUint16 vertexIndex)).

(** Line 138: the parent index written for a bone. *)
Definition parentIndex (armature : Armature) (bone : Bone) : Z :=
  match bone_parent bone with
  | Some parent => find (bones armature) (bone_name parent)
  | None => 0
  end.

(** [m.inverted()]. *)
Definition invert (m : Matrix) : M Matrix :=
  match inverted m with
  | Some i => ret i
  | None => raise ValueError
  end.

(** Lines 136-143. *)
Definition writeJoint (armature : Armature) (transform : Matrix) (bone : Bone) : M unit :=
  writeUint8 (parentIndex armature bone) ;;
  let modelSpacePose := matmul transform (bone_matrix_local bone) in
  inverseModelSpacePose <- invert modelSpacePose ;;
  for_each (rows inverseModelSpacePose) (fun vector =>
    for_each vector (fun float => writeFloat float)).

Definition writeJoints (armature : Armature) (transform : Matrix) : M unit :=
  for_each (bones armature) (writeJoint armature transform).

(** [bpy.context.scene.frame_set(frame)]. *)
Definition frame_set (frame : Z) : M unit :=
  fun w => (Ok tt, set_frame_current frame w).

(** [bone.matrix] of a pose bone, in the current session state. *)
Definition matrix (bone : Bone) : M Matrix :=
  fun w => (Ok (pose_matrix (pose_position w) (action w) (frame_current w) bone), w).

(** Lines 162-175. *)
Definition writePose (parentSpacePose : Matrix) : M unit :=
  let translation := to_translation parentSpacePose in
  writeFloat (x translation) ;;
  writeFloat (y translation) ;;
  writeFloat (z translation) ;;
  let rotation := to_quaternion parentSpacePose in
  writeFloat (qw rotation) ;;
  writeFloat (qx rotation) ;;
  writeFloat (qy rotation) ;;
  writeFloat (qz rotation) ;;
  let scale := to_scale parentSpacePose in
  writeFloat (x scale) ;;
  writeFloat (y scale) ;;
  writeFloat (z scale).

(** Lines 157-161. *)
Definition parentSpacePose (transform : Matrix) (bone : Bone) : M Matrix :=
  match bone_parent bone with
  | Some parent =>
      parentMatrix <- matrix parent ;;
      inverse <- invert parentMatrix ;;
      boneMatrix <- matrix bone ;;
      ret (matmul inverse boneMatrix)
  | None =>
      boneMatrix <- matrix bone ;;
      ret (matmul transform boneMatrix)
  end.

(** Lines 157-175: one bone at the current frame. *)
Definition writeBonePose (transform : Matrix) (bone : Bone) : M unit :=
  pose <- parentSpacePose transform bone ;; writePose pose.

(** Lines 155-175: one frame. *)
Definition writeFrame (armature : Armature) (transform : Matrix) (frame : Z) : M unit :=
  frame_set frame ;;
  for_each (bones armature) (writeBonePose transform).

(** Lines 145-175. *)
Definition writeAnimation (armature : Armature) (animation : Action) (transform : Matrix)
  : M unit :=
  let startFrame := num_int (vx (frame_range animation)) in
  let endFrame := num_int (vy (frame_range animation)) in
  assign_action (Some animation) ;;
  writeUint32 (endFrame - startFrame + 1) ;;
  writeUint32 (len (action_name animation)) ;;
  writeString (action_name animation) ;;
  for_each (range startFrame (endFrame + 1)) (writeFrame armature transform).

(** What can be selected in the scene. *)
Inductive SceneObject : Type :=
| MESH (object : Object)
| ARMATURE (armature : Armature)
| OTHER.

(** Lines 178-183. *)
Definition getSelectedMeshObjects (selected_objects : list SceneObject) : list Object :=
  flat_map (fun object => match object with MESH o => [o] | _ => [] end) selected_objects.

(** Lines 185-189: the first selected armature, or 0 ([None] here). *)
Fixpoint getSelectedArmature (selected_objects : list SceneObject) : option Armature :=
  match selected_objects with
  | [] => None
  | ARMATURE a :: _ => Some a
  | _ :: rest => getSelectedArmature rest
  end.

(** Lines 194-197. *)
Definition setArmaturePosition (position : PosePosition) : M unit :=
  (fun w => (Ok tt, set_pose_position position w)) ;;
  w <- get ;;
  frame_set (frame_current w).

Definition truthy {A : Type} (o : option A) : bool :=
  match o with Some _ => true | None => false end.

(** Lines 211-234. *)
Definition ExportMeshOperator_execute (selected_objects : list SceneObject) : M unit :=
  let armature := getSelectedArmature selected_objects in
  originalArmaturePosition <-
    (if truthy armature then
       w <- get ;;
       setArmaturePosition REST ;;
       ret (pose_position w)
     else ret REST) ;;
  let objects := getSelectedMeshObjects selected_objects in
  (if (0 <? len objects) then
     w <- get ;;
     data <- lift (getDataFromMeshObjects (pose_position w) objects armature
                                          getAxisMappingMatrix) ;;
     let vertices := fst data in
     let faces := snd data in
     open ;;
     writeBool (truthy armature) ;;
     writeUint16 (len faces) ;;
     writeUint16 (len vertices) ;;
     writeFaces faces ;;
     writeVertices vertices (truthy armature)
   else ret tt) ;;
  if truthy armature then setArmaturePosition originalArmaturePosition else ret tt.

(** Lines 240-258.  [actions] is [bpy.data.actions].  With nothing
    selected [armature] is 0 and line 242 raises; for an armature that has
    no animation data line 243 does. *)
Definition ExportSkeletonOperator_execute (selected_objects : list SceneObject)
           (actions : list Action) : M unit :=
  match getSelectedArmature selected_objects with
  | None => raise AttributeError
  | Some armature =>
      w <- get ;;
      let originalArmaturePosition := pose_position w in
      originalAnimation <- get_action ;;
      let originalFrame := frame_current w in
      setArmaturePosition POSE ;;
      open ;;
      writeUint8 (len (bones armature)) ;;
      writeJoints armature getAxisMappingMatrix ;;
      writeUint32 (len actions) ;;
      for_each actions (fun animation =>
        writeAnimation armature animation getAxisMappingMatrix) ;;
      frame_set originalFrame ;;
      assign_action originalAnimation ;;
      setArmaturePosition originalArmaturePosition
  end.

End Exporter.

(** ** Instances *)

(** IEEE 754 arithmetic: a Python float is a double, a component of a
    [Vector] a 32-bit float. *)
Module IEEE.

Definition prec : Z := 53.
Definition emax : Z := 1024.

(** An int as a double: the nearest one. *)
Definition of_Z (value : Z) : spec_float := binary_normalize prec emax value 0 false.

Definition add : spec_float -> spec_float -> spec_float := SFadd prec emax.

Definition sub : spec_float -> spec_float -> spec_float := SFsub prec emax.

Definition mul : spec_float -> spec_float -> spec_float := SFmul prec emax.

Definition div : spec_float -> spec_float -> spec_float := SFdiv prec emax.

(** [a == b]: 0.0 and -0.0 are equal.  CPython compares the items of two
    lists by identity first; the NaN here is one object. *)
Definition eqb (a b : spec_float) : bool :=
  match a, b with
  | S754_nan, S754_nan => true
  | _, _ => SFeqb a b
  end.

Definition hash_modulus : Z := 2 ^ 61 - 1.
Definition hash_inf : Z := 314159.

(** The built-in [hash] of a float: the value [m * 2^e] reduced modulo
    [2^61 - 1], of which 2 is a 61st root of one, with the sign of the
    float; -1 is not a hash.  (CPython hashes a NaN by its address; the one
    NaN here has hash 0.) *)
Definition hash (f : spec_float) : Z :=
  match f with
  | S754_zero _ => 0
  | S754_infinity s => if s then - hash_inf else hash_inf
  | S754_nan => 0
  | S754_finite s m e =>
      let h := (Zpos m mod hash_modulus) * 2 ^ (e mod 61) mod hash_modulus in
      let h := if s then - h else h in
      if h =? -1 then -2 else h
  end.

(** [int(x)]: truncation towards zero.  (On an infinity or a NaN [int]
    raises; the frame range of an action is finite.) *)
Definition int (f : spec_float) : Z :=
  match f with
  | S754_finite s m e =>
      let magnitude := if 0 <=? e then Zpos m * 2 ^ e else Zpos m / 2 ^ (- e) in
      if s then - magnitude else magnitude
  | _ => 0
  end.

(** The 32-bit float nearest to a double: what a [Vector] keeps of a
    component, and what [struct.pack("f", x)] writes. *)
Definition to_float32 (f : spec_float) : spec_float :=
  match f with
  | S754_finite s m e => binary_round 24 128 s m e
  | _ => f
  end.

(** The 32 bits of a 32-bit float, read as a C [int]: sign, 8 bits of
    exponent, 23 bits of mantissa. *)
Definition bits (f : spec_float) : Z :=
  match f with
  | S754_zero s => if s then - 2 ^ 31 else 0
  | S754_infinity s => if s then 0x7F800000 - 2 ^ 31 else 0x7F800000
  | S754_nan => 0x7FC00000
  | S754_finite s m e =>
      let magnitude := (e + 149) * 2 ^ 23 + Zpos m in
      if s then magnitude - 2 ^ 31 else magnitude
  end.

(** C [int] arithmetic: 32 bits, two's complement. *)
Definition int32 (i : Z) : Z := (i + 2 ^ 31) mod 2 ^ 32 - 2 ^ 31.

(** [-(int)(((unsigned int)(i)) >> 31)]. *)
Definition SIGNMASK (i : Z) : Z := - Z.shiftr (i mod 2 ^ 32) 31.

(** [EXPP_FloatsAreEqual] of [mathutils], on the bits [ai] and [bi] of the
    two floats: they are at most [maxDiff] representable floats apart. *)
Definition EXPP_FloatsAreEqual (ai bi maxDiff : Z) : bool :=
  let test := SIGNMASK (Z.lxor ai bi) in
  let diff := int32 (Z.lxor ai (Z.land test 0x7fffffff) - bi) in
  let v1 := int32 (maxDiff + diff) in
  let v2 := int32 (maxDiff - diff) in
  0 <=? Z.lor v1 v2.

(** [Vector.__eq__] calls [EXPP_VectorsAreEqual] with one step of
    tolerance: this is its test of one pair of components. *)
Definition close (a b : spec_float) : bool :=
  EXPP_FloatsAreEqual (bits (to_float32 a)) (bits (to_float32 b)) 1.

Lemma eqb_refl (a : spec_float) : eqb a a = true.
Proof.
  destruct a as [s|s| |s m e]; try destruct s; try reflexivity;
    unfold eqb, SFeqb, SFcompare; rewrite Z.compare_refl;
    fold (Pos.compare m m); rewrite Pos.compare_refl; reflexivity.
Qed.

Lemma EXPP_FloatsAreEqual_refl (i : Z) : EXPP_FloatsAreEqual i i 1 = true.
Proof.
  unfold EXPP_FloatsAreEqual. rewrite Z.lxor_nilpotent.
  change (SIGNMASK 0) with 0. rewrite Z.land_0_l, Z.lxor_0_r, Z.sub_diag.
  reflexivity.
Qed.

Lemma close_refl (a : spec_float) : close a a = true.
Proof. apply EXPP_FloatsAreEqual_refl. Qed.

#[export] Instance Binary64 : PyNum := {
  num := spec_float;
  num_of_Z := of_Z;
  num_add := add;
  num_sub := sub;
  num_div := div;
  num_eqb := eqb;
  num_hash := hash;
  num_int := int;
  num_close := close;
  num_eqb_refl := eqb_refl;
  num_close_refl := close_refl
}.

End IEEE.

(** The translations, a subgroup of the 4x4 matrices that needs no more
    than [+] and [-]: [translate t] has the identity as its linear part. *)
Module Translations.
Section Translations.
Context {PN : PyNum}.

Definition zero : num := num_of_Z 0.
Definition one : num := num_of_Z 1.

Definition compose (a b : Vec3) : Vec3 :=
  mkVec3 (num_add (x a) (x b)) (num_add (y a) (y b)) (num_add (z a) (z b)).

Definition inverse (a : Vec3) : option Vec3 :=
  Some (mkVec3 (num_sub zero (x a)) (num_sub zero (y a)) (num_sub zero (z a))).

Definition matrix_rows (a : Vec3) : list (list num) :=
  [[one; zero; zero; x a];
   [zero; one; zero; y a];
   [zero; zero; one; z a];
   [zero; zero; zero; one]].

#[export] Instance TranslationMatrices : Mathutils := {
  Matrix := Vec3;
  matmul := compose;
  inverted := inverse;
  rows := matrix_rows;
  to_translation := fun a => a;
  to_quaternion := fun _ => mkQuaternion one zero zero zero;
  to_scale := fun _ => mkVec3 one one one
}.

(** A scene whose pose slides every bone along the first axis by the frame
    number, and whose rest pose is the bone's rest matrix. *)
#[export] Instance SlidingScene : Blender := {
  pose_matrix := fun p _ frame bone =>
    match p with
    | REST => bone_matrix_local bone
    | POSE => compose (mkVec3 (num_of_Z frame) zero zero) (bone_matrix_local bone)
    end;
  getAxisMappingMatrix := mkVec3 zero zero zero
}.

End Translations.
End Translations.

(** A small scene in IEEE arithmetic, with translations for matrices. *)
Module Sample.
Import IEEE Translations.

Definition q (value : Z) : spec_float := of_Z value.

Definition at_ (a b c : Z) : Vec3 := mkVec3 (q a) (q b) (q c).

(** The 32-bit float next above 1: [1 + 2^-23]. *)
Definition above_one : spec_float := S754_finite false (2 ^ 52 + 2 ^ 29) (-52).

(** Two bones, named Root and Bone; Bone is a child of Root. *)
Definition Root : Bone := mkBone [82; 111; 111; 116]%N None (at_ 0 0 0).

Definition Child : Bone := mkBone [66; 111; 110; 101]%N (Some Root) (at_ 0 1 0).

Definition rig : Armature := mkArmature [Root; Child].

(** An armature of 256 bones. *)
Definition crowd : Armature :=
  mkArmature (map (fun i => mkBone [N.of_nat i] None (at_ 0 0 0)) (seq 0 256)).

(** Two actions over frames 1 to 3: Walk, and one whose name ends in
    U+00E9. *)
Definition Walk : Action := mkAction [87; 97; 108; 107]%N (mkVec2 (q 1) (q 3)).

Definition Cafe : Action := mkAction [67; 97; 102; 233]%N (mkVec2 (q 1) (q 3)).

(** The session on entry: frame 7, no active action, rest position. *)
Definition session : World := mkWorld 7 true None REST true [].

(** The same session for an armature that has no animation data. *)
Definition still : World := mkWorld 7 false None REST true [].

Definition corner (a b : Z) (gs : list VertexGroupElement) : Loop :=
  mkLoop (at_ a b 0) (mkVec2 (q a) (q b)) (at_ 0 0 1) gs.

Definition triangle : Polygon := [corner 0 0 []; corner 1 0 []; corner 0 1 []].

(** A corner a unit in the last place above the third corner of
    [triangle], and a mesh of two triangles that differ by that corner. *)
Definition nearCorner : Loop :=
  mkLoop (mkVec3 (q 0) above_one (q 0)) (mkVec2 (q 0) (q 1)) (at_ 0 0 1) [].

Definition seam : Object :=
  mkObject [] (at_ 0 0 0)
           (fun _ _ => [triangle; [corner 0 0 []; corner 1 0 []; nearCorner]]).

(** A mesh of [n] coincident triangles, and one of 65536. *)
Definition coincident (n : nat) : Object :=
  mkObject [] (at_ 0 0 0) (fun _ _ => repeat triangle n).

Definition dense : Object := coincident (Z.to_nat 65536).

(** The vertex of a corner that has no joint binding. *)
Definition unbound (l : Loop) : Vertex :=
  mkVertex (undeformed_co l)
           (mkVec2 (vx (loop_uv l)) (sub (q 1) (vy (loop_uv l))))
           (loop_normal l) [0; 0; 0; 0] [q 0; q 0; q 0; q 0].

Definition triangle_vertices : list Vertex := map unbound triangle.

(** A triangle one corner of which is bound, with weight 1, to the vertex
    group Arm; the rig has no bone of that name. *)
Definition binding : VertexGroupElement := mkGroup 0 (q 1).

Definition loose : Loop := corner 0 0 [binding].

Definition skinned : Object :=
  mkObject [[65; 114; 109]%N] (at_ 0 0 0)
           (fun _ _ => [[loose; corner 1 0 []; corner 0 1 []]]).

(** A triangle one corner of which refers to a vertex group the object does
    not have. *)
Definition dangling : Object :=
  mkObject [] (at_ 0 0 0) (fun _ _ => [[loose; corner 1 0 []; corner 0 1 []]]).

Definition plain (a : Z) (indices : list Z) : Vertex :=
  mkVertex (at_ a 0 0) (mkVec2 (q 0) (q 0)) (at_ 0 0 1) indices [q 0; q 0; q 0; q 0].

Definition vA : Vertex := plain 0 [0; 0; 0; 0].

(** [vA] with another [uv]. *)
Definition vC : Vertex :=
  mkVertex (position vA) (mkVec2 (q 1) (q 0)) (normal vA) (jointIndices vA)
           (jointWeights vA).

(** Two vertices at [x = 1]; the second is the first with the [y] of its
    position one unit in the last place higher. *)
Definition vOne : Vertex :=
  mkVertex (at_ 1 1 0) (mkVec2 (q 0) (q 0)) (at_ 0 0 1) [0; 0; 0; 0] [q 0; q 0; q 0; q 0].

Definition vNear : Vertex :=
  mkVertex (mkVec3 (q 1) above_one (q 0)) (uv vOne) (normal vOne) (jointIndices vOne)
           (jointWeights vOne).

(** [vOne] with the [x] of its position one unit in the last place
    higher. *)
Definition vAside : Vertex :=
  mkVertex (mkVec3 above_one (q 1) (q 0)) (uv vOne) (normal vOne) (jointIndices vOne)
           (jointWeights vOne).




End Sample.

(** Uniform scalings, [s] on the diagonal of the linear part: singular when
    [s] is zero. *)
Module Scalings.
Import IEEE.

Definition scale_rows (s : spec_float) : list (list spec_float) :=
  [[s; of_Z 0; of_Z 0; of_Z 0];
   [of_Z 0; s; of_Z 0; of_Z 0];
   [of_Z 0; of_Z 0; s; of_Z 0];
   [of_Z 0; of_Z 0; of_Z 0; of_Z 1]].

Definition scale_inverse (s : spec_float) : option spec_float :=
  if eqb s (of_Z 0) then None else Some (div (of_Z 1) s).

#[export] Instance ScalingMatrices : Mathutils := {
  Matrix := spec_float;
  matmul := mul;
  inverted := scale_inverse;
  rows := scale_rows;
  to_translation := fun _ => mkVec3 (of_Z 0) (of_Z 0) (of_Z 0);
  to_quaternion := fun _ => mkQuaternion (of_Z 1) (of_Z 0) (of_Z 0) (of_Z 0);
  to_scale := fun s => mkVec3 s s s
}.

End Scalings.

(** An armature one bone of which is scaled to nothing. *)
Module Collapsed.
Import IEEE Scalings.

(** Two bones, named Hip and Flat; the rest matrix of Flat is singular. *)
Definition Hip : Bone := mkBone [72; 105; 112]%N None (of_Z 2).

Definition Flat : Bone := mkBone [70; 108; 97; 116]%N (Some Hip) (of_Z 0).

Definition rig : Armature := mkArmature [Hip; Flat].

Definition identity : Matrix := of_Z 1.

Definition half : Matrix := div (of_Z 1) (mul (of_Z 1) (of_Z 2)).

Definition blank : World := mkWorld 1 true None POSE true [].

End Collapsed.

(** ** Notions used by the statements *)

Section Notions.
Context {PN : PyNum} {MU : Mathutils} {BL : Blender}.

(** Lines 124-126 run over a stream of vertices, in order. *)
Fixpoint internAll (vertices : VertexDict) (stream : list Vertex)
  : Result (VertexDict * list Z) :=
  match stream with
  | [] => Ok (vertices, [])
  | vertex :: rest =>
      (interned <- intern vertices vertex ;;
       done <- internAll (fst interned) rest ;;
       Ok (fst done, snd interned :: snd done))%result
  end.

(** The stream of vertices that lines 95-123 make, before deduplication:
    the corners of a polygon, of the triangles of a mesh, of the objects. *)
Fixpoint loopVertices (armature : option Armature) (object : Object)
         (loops : list Loop) : Result (list Vertex) :=
  match loops with
  | [] => Ok []
  | loop :: rest =>
      (vertex <- makeVertex armature object loop ;;
       others <- loopVertices armature object rest ;;
       Ok (vertex :: others))%result
  end.

Fixpoint polygonVertices (armature : option Armature) (object : Object)
         (polygons : list Polygon) : Result (list Vertex) :=
  match polygons with
  | [] => Ok []
  | polygon :: rest =>
      if (length polygon =? 3)%nat then
        (corners <- loopVertices armature object polygon ;;
         others <- polygonVertices armature object rest ;;
         Ok (corners ++ others))%result
      else polygonVertices armature object rest
  end.

Fixpoint objectVertices (sceneWithAppliedModifiers : PosePosition)
         (objects : list Object) (armature : option Armature) (transformMatrix : Matrix)
  : Result (list Vertex) :=
  match objects with
  | [] => Ok []
  | object :: rest =>
      (corners <- polygonVertices armature object
                    (evaluated object (matmul transformMatrix (matrix_world object))
                               sceneWithAppliedModifiers) ;;
       others <- objectVertices sceneWithAppliedModifiers rest armature transformMatrix ;;
       Ok (corners ++ others))%result
  end.

(** The index buffer: the vertex indices of the faces, face after face. *)
Definition indexBuffer (faces : list Face) : list Z := flat_map vertexIndices faces.

(** A lookup of [vertex] takes [key], a key of the dict, for it: [key] has
    the hash of [vertex] and [__eq__] accepts the two. *)
Definition accepts (key vertex : Vertex) : bool :=
  (Vertex_hash key =? Vertex_hash vertex) && Vertex_eq key vertex.

(** The key at position [i] of [keys] is the first one a lookup of
    [vertex] takes for it. *)
Definition first_match (keys : list Vertex) (vertex : Vertex) (i : nat) : Prop :=
  (exists key, nth_error keys i = Some key /\ accepts key vertex = true)
  /\ forall j key, (j < i)%nat -> nth_error keys j = Some key -> accepts key vertex = false.

(** No key is taken for a key that comes after it. *)
Definition separated (keys : list Vertex) : Prop :=
  forall i j a b, (i < j)%nat -> nth_error keys i = Some a -> nth_error keys j = Some b ->
                  accepts a b = false.

(** A dict as lines 124-126 build it: no key is taken for a later one, and
    the i-th key inserted has value i. *)
Definition numbered (vertices : VertexDict) : Prop :=
  separated (map fst vertices)
  /\ forall i entry, nth_error vertices i = Some entry -> snd entry = Z.of_nat i.

(** The attributes of a [Vertex]. *)
Inductive Field : Type :=
| field_position | field_uv | field_normal | field_jointIndices | field_jointWeights.

Definition agree_on (f : Field) (a b : Vertex) : Prop :=
  match f with
  | field_position => position a = position b
  | field_uv => uv a = uv b
  | field_normal => normal a = normal b
  | field_jointIndices => jointIndices a = jointIndices b
  | field_jointWeights => jointWeights a = jointWeights b
  end.

(** [f] takes part in [__hash__] (resp. [__eq__]): changing nothing but [f]
    can change the hash (resp. make two vertices unequal). *)
Definition hash_covers (f : Field) : Prop :=
  exists a b, (forall g, g <> f -> agree_on g a b) /\ Vertex_hash a <> Vertex_hash b.

Definition eq_covers (f : Field) : Prop :=
  exists a b, (forall g, g <> f -> agree_on g a b) /\ Vertex_eq a b = false.

(** The world after [items] have been written to the file. *)
Definition emit (items : list Item) (w : World) : World :=
  set_file (file w ++ items) w.

(** A computation relates the world it starts in to the world it ends in
    (normally or by an exception) by [R]. *)
Definition respects (R : World -> World -> Prop) {A : Type} (m : M A) : Prop :=
  forall w r w', m w = (r, w') -> R w w'.

(** The file only grows. *)
Definition grows (w w' : World) : Prop := exists ext, file w' = file w ++ ext.

(** The pose record of a matrix: translation, rotation (w, x, y, z),
    scale. *)
Definition pose_record (m : Matrix) : list Item :=
  let t := to_translation m in
  let r := to_quaternion m in
  let s := to_scale m in
  [F32 (x t); F32 (y t); F32 (z t);
   F32 (qw r); F32 (qx r); F32 (qy r); F32 (qz r);
   F32 (x s); F32 (y s); F32 (z s)].

(** The matrix a pose record decomposes, for [bone] at [frame] under pose
    position [p] and active action [a]: the inverse of the parent's world
    matrix times the bone's for a bone with a parent, [transform] times the
    bone's world matrix for a root. *)
Definition is_parent_space (transform : Matrix) (p : PosePosition) (a : option Action)
           (frame : Z) (bone : Bone) (m : Matrix) : Prop :=
  match bone_parent bone with
  | Some parent =>
      exists inverse, inverted (pose_matrix p a frame parent) = Some inverse
                      /\ m = matmul inverse (pose_matrix p a frame bone)
  | None => m = matmul transform (pose_matrix p a frame bone)
  end.

(** The frames of an animation written one after the other: a block of
    matrices per frame, one matrix per bone. *)
Definition sampled (armature : Armature) (transform : Matrix) (p : PosePosition)
           (a : option Action) (frames : list Z) (blocks : list (list Matrix)) : Prop :=
  Forall2 (fun frame ms => Forall2 (is_parent_space transform p a frame) (bones armature) ms)
          frames blocks.

(** The joint record of a bone: its parent index, then the rows of a
    matrix, one after the other. *)
Definition joint_record (index : Z) (m : Matrix) : list Item :=
  U8 index :: map F32 (concat (rows m)).

(** The record of a vertex in the mesh file, lines 66-76. *)
Definition vertex_record (writeJointBindings : bool) (v : Vertex) : list Item :=
  [F32 (x (position v)); F32 (y (position v)); F32 (z (position v));
   F32 (vx (uv v)); F32 (vy (uv v));
   F32 (x (normal v)); F32 (y (normal v)); F32 (z (normal v))]
  ++ (if writeJointBindings
      then map U8 (jointIndices v) ++ map F32 (jointWeights v)
      else []).

(** The header of an animation, lines 150-153. *)
Definition animation_header (animation : Action) : list Item :=
  [U32 (num_int (vy (frame_range animation)) - num_int (vx (frame_range animation)) + 1);
   U32 (len (action_name animation));
   Text (action_name animation)].

(** A vertex as the mesh file can hold it with joint bindings: four joint
    indices, each fitting a byte, and four weights. *)
Definition writable_bindings (v : Vertex) : Prop :=
  length (jointIndices v) = 4%nat
  /\ length (jointWeights v) = 4%nat
  /\ Forall (fun index => 0 <= index <= 255) (jointIndices v).

(** The session part of a world. *)
Definition same_session (w w' : World) : Prop :=
  frame_current w' = frame_current w
  /\ action w' = action w
  /\ pose_position w' = pose_position w.

(** The frames of an action: [int] of the two ends of its frame range. *)
Definition frame_start (animation : Action) : Z := num_int (vx (frame_range animation)).

Definition frame_end (animation : Action) : Z := num_int (vy (frame_range animation)).

(** What the export of [actions] can have made of the active action and of
    the scene frame of [w] when it stops at [w']: the action is that of [w]
    or one of [actions], the frame that of [w] or a frame of one of them;
    the pose position and the animation data stay. *)
Definition sampling (actions : list Action) (w w' : World) : Prop :=
  pose_position w' = pose_position w
  /\ animation_data w' = animation_data w
  /\ (action w' = action w \/ exists a, In a actions /\ action w' = Some a)
  /\ (frame_current w' = frame_current w
      \/ exists a, In a actions /\ frame_start a <= frame_current w' <= frame_end a).

(** What [writeAnimation] writes for an animation under pose position [p]:
    its header, then the pose records of its frames, a block per frame. *)
Definition animation_segment (armature : Armature) (transform : Matrix)
           (p : PosePosition) (animation : Action) (segment : list Item) : Prop :=
  exists blocks,
    sampled armature transform p (Some animation)
            (range (num_int (vx (frame_range animation)))
                   (num_int (vy (frame_range animation)) + 1))
            blocks
    /\ segment = animation_header animation ++ flat_map (flat_map pose_record) blocks.

End Notions.

(** * Theorems *)

Unset Implicit Arguments.

(** ** Python values *)

Section PythonFacts.
Context {PN : PyNum} {MU : Mathutils}.

Lemma list_eqb_refl {A : Type} (eqb : A -> A -> bool) (l : list A) :
  (forall a, eqb a a = true) -> list_eqb eqb l l = true.
Proof.
  intros H. induction l as [|h t IH]; simpl; [reflexivity|]. now rewrite H, IH.
Qed.

Lemma Vec3_eqb_refl (a : Vec3) : Vec3_eqb a a = true.
Proof. unfold Vec3_eqb. now rewrite !num_close_refl. Qed.

Lemma Vec2_eqb_refl (a : Vec2) : Vec2_eqb a a = true.
Proof. unfold Vec2_eqb. now rewrite !num_close_refl. Qed.

(** A vertex is equal to itself. *)
Lemma Vertex_eq_refl (a : Vertex) : Vertex_eq a a = true.
Proof.
  unfold Vertex_eq.
  rewrite !Vec3_eqb_refl, Vec2_eqb_refl.
  rewrite (list_eqb_refl Z.eqb _ Z.eqb_refl), (list_eqb_refl num_eqb _ num_eqb_refl).
  reflexivity.
Qed.

Lemma accepts_refl (v : Vertex) : accepts v v = true.
Proof. unfold accepts. now rewrite Z.eqb_refl, Vertex_eq_refl. Qed.

(** The key test of the dict. *)
Lemma same_key_accepts (probe : Vertex) (entry : Vertex * Z) :
  same_key probe entry = accepts (fst entry) probe.
Proof. reflexivity. Qed.

Lemma first_match_unique (keys : list Vertex) (v : Vertex) (i j : nat) :
  first_match keys v i -> first_match keys v j -> i = j.
Proof.
  intros [(ki & Hi & Ai) Li] [(kj & Hj & Aj) Lj].
  destruct (Nat.lt_trichotomy i j) as [H|[H|H]]; [|exact H|].
  - rewrite (Lj i ki H Hi) in Ai. discriminate.
  - rewrite (Li j kj H Hj) in Aj. discriminate.
Qed.

Lemma first_match_app (keys more : list Vertex) (v : Vertex) (i : nat) :
  first_match keys v i -> first_match (keys ++ more) v i.
Proof.
  intros [(k & Hk & Ak) Hl].
  assert (Hi : (i < length keys)%nat) by (apply nth_error_Some; congruence).
  split.
  - exists k. split; [|exact Ak]. now rewrite nth_error_app1.
  - intros j key Hj. rewrite nth_error_app1 by lia. now apply Hl.
Qed.

End PythonFacts.

(** ** The deduplication dict *)

Section Dedup.
Context {PN : PyNum} {MU : Mathutils}.

Lemma dict_get_None (d : VertexDict) (v : Vertex) :
  dict_get d v = None <-> forall key, In key (map fst d) -> accepts key v = false.
Proof.
  unfold dict_get. induction d as [|e d IH]; simpl.
  - split; [intros _ key [] | reflexivity].
  - rewrite same_key_accepts. destruct (accepts (fst e) v) eqn:K; simpl.
    + split; [discriminate|]. intros H. rewrite (H (fst e)) in K by now left.
      discriminate.
    + rewrite IH. split.
      * intros H key [<-|Hin]; [exact K | now apply H].
      * intros H key Hin. apply H. now right.
Qed.

(** A vertex that the dict does not hold a key for is not one of its
    keys. *)
Lemma dict_get_None_fresh (d : VertexDict) (v : Vertex) :
  dict_get d v = None -> ~ In v (map fst d).
Proof.
  intros G Hin. rewrite dict_get_None in G.
  pose proof (accepts_refl v) as R. rewrite (G v Hin) in R. discriminate.
Qed.

(** A lookup that succeeds has found the first key it takes. *)
Lemma dict_get_Some (d : VertexDict) (v : Vertex) (i : Z) :
  dict_get d v = Some i ->
  exists j key, nth_error d j = Some (key, i) /\ first_match (map fst d) v j.
Proof.
  unfold dict_get. induction d as [|e d IH]; simpl; [discriminate|].
  rewrite same_key_accepts. destruct (accepts (fst e) v) eqn:K; simpl.
  - intros [= <-]. exists 0%nat, (fst e). split; [now destruct e|]. split.
    + exists (fst e). now split.
    + intros j key Hj. lia.
  - intros H. destruct (IH H) as (j & key & Hn & (k & Hk & Ak) & Hl).
    exists (S j), key. split; [exact Hn|]. split.
    + exists k. now split.
    + intros [|j'] key' Hj; simpl.
      * intros [= <-]. exact K.
      * apply Hl. lia.
Qed.

Lemma dict_setitem_fresh (d : VertexDict) (v : Vertex) (n : Z) :
  dict_get d v = None -> dict_setitem d v n = d ++ [(v, n)].
Proof.
  unfold dict_get. induction d as [|e d IH]; simpl; [reflexivity|].
  destruct (same_key v e); simpl; [discriminate|].
  intros H. now rewrite IH.
Qed.

Lemma dict_get_snoc (d : VertexDict) (v : Vertex) (n : Z) :
  dict_get d v = None -> dict_get (d ++ [(v, n)]) v = Some n.
Proof.
  unfold dict_get. induction d as [|e d IH]; simpl.
  - intros _. rewrite same_key_accepts. simpl. now rewrite accepts_refl.
  - destruct (same_key v e); simpl; [discriminate | exact IH].
Qed.

(** Lines 124-126 never raise: either the dict has a key for the vertex and
    is left alone, or the vertex goes to the end with the next index. *)
Lemma intern_cases (d : VertexDict) (v : Vertex) :
  (exists i, dict_get d v = Some i /\ intern d v = Ok (d, i))
  \/ (dict_get d v = None /\ intern d v = Ok (d ++ [(v, len d)], len d)).
Proof.
  unfold intern, dict_getitem.
  destruct (dict_get d v) as [i|] eqn:G.
  - left. exists i. now rewrite G.
  - right. split; [reflexivity|].
    rewrite (dict_setitem_fresh d v (len d) G), (dict_get_snoc d v (len d) G). reflexivity.
Qed.

Lemma intern_twice (d : VertexDict) (v : Vertex) :
  exists d1 i, intern d v = Ok (d1, i) /\ intern d1 v = Ok (d1, i).
Proof.
  destruct (intern_cases d v) as [(i & G & E) | (G & E)].
  - exists d, i. auto.
  - exists (d ++ [(v, len d)]), (len d). split; [exact E|].
    pose proof (dict_get_snoc d v (len d) G) as G1.
    unfold intern, dict_getitem. rewrite G1. simpl. now rewrite G1.
Qed.

Lemma numbered_nil : numbered [].
Proof.
  split; [intros [|i] j a b _ H; discriminate | intros [|i] e; discriminate].
Qed.

Lemma numbered_snoc (d : VertexDict) (v : Vertex) :
  numbered d -> dict_get d v = None -> numbered (d ++ [(v, len d)]).
Proof.
  intros [Hs NB] G. rewrite dict_get_None in G. split.
  - rewrite map_app. simpl. intros i j a b Hij Ha Hb.
    assert (Hj : (j < length (map fst d ++ [v]))%nat) by (apply nth_error_Some; congruence).
    rewrite length_app in Hj. simpl in Hj.
    rewrite nth_error_app1 in Ha by lia.
    destruct (Nat.lt_ge_cases j (length (map fst d))) as [Hlt|Hge].
    + rewrite nth_error_app1 in Hb by exact Hlt. exact (Hs i j a b Hij Ha Hb).
    + rewrite nth_error_app2 in Hb by exact Hge.
      replace (j - length (map fst d))%nat with 0%nat in Hb by lia.
      injection Hb as <-. apply G. eapply nth_error_In; eauto.
  - intros i e. destruct (Nat.lt_ge_cases i (length d)) as [Hi|Hi].
    + rewrite nth_error_app1 by exact Hi. apply NB.
    + rewrite nth_error_app2 by exact Hi.
      destruct (i - length d)%nat as [|k] eqn:K; simpl.
      * intros [= <-]. simpl. unfold len. f_equal. lia.
      * destruct k; discriminate.
Qed.

(** The keys of such a dict are all different. *)
Lemma separated_NoDup (keys : list Vertex) : separated keys -> NoDup keys.
Proof.
  intros Hs. apply NoDup_nth_error. intros i j Hi E.
  destruct (nth_error keys i) as [a|] eqn:Ha; [|apply nth_error_None in Ha; lia].
  symmetry in E.
  destruct (Nat.lt_trichotomy i j) as [H|[H|H]]; [|exact H|].
  - pose proof (accepts_refl a) as R. rewrite (Hs i j a a H Ha E) in R. discriminate.
  - pose proof (accepts_refl a) as R. rewrite (Hs j i a a H E Ha) in R. discriminate.
Qed.

(** In such a dict a key is the first key taken for itself. *)
Lemma separated_first_match (keys : list Vertex) (i : nat) (key : Vertex) :
  separated keys -> nth_error keys i = Some key -> first_match keys key i.
Proof.
  intros Hs Hi. split.
  - exists key. split; [exact Hi | apply accepts_refl].
  - intros j a Hj Ha. exact (Hs j i a key Hj Ha Hi).
Qed.

(** The lookup of a vertex gives the position of the first key taken for
    it. *)
Lemma first_match_dict_get (d : VertexDict) (v : Vertex) (i : nat) :
  numbered d -> first_match (map fst d) v i -> dict_get d v = Some (Z.of_nat i).
Proof.
  intros [_ NB] Hi.
  destruct (dict_get d v) as [n|] eqn:G.
  - destruct (dict_get_Some _ _ _ G) as (j & key & Hn & Hj).
    rewrite (first_match_unique _ _ _ _ Hi Hj).
    apply NB in Hn. simpl in Hn. now subst n.
  - rewrite dict_get_None in G. destruct Hi as [(key & Hk & Ak) _].
    rewrite (G key) in Ak by (eapply nth_error_In; eauto). discriminate.
Qed.

(** A stream interned into a numbered dict: the dict grows at its end only,
    by vertices of the stream, stays numbered, and the index emitted for a
    vertex is the position of the first key taken for it. *)
Lemma internAll_spec (s : list Vertex) :
  forall d, numbered d ->
  exists ext idx,
    internAll d s = Ok (d ++ ext, idx)
    /\ numbered (d ++ ext)
    /\ length idx = length s
    /\ (forall v, In v (map fst ext) -> In v s)
    /\ (forall p v, nth_error s p = Some v ->
          exists i, nth_error idx p = Some (Z.of_nat i)
                    /\ first_match (map fst (d ++ ext)) v i).
Proof.
  induction s as [|v s IH]; intros d Hd.
  - exists [], []. rewrite app_nil_r.
    split; [reflexivity|]. split; [exact Hd|]. split; [reflexivity|]. split.
    + intros v [].
    + intros [|p] u; discriminate.
  - simpl. destruct (intern_cases d v) as [(i & G & E) | (G & E)]; rewrite E; simpl.
    + destruct (IH d Hd) as (ext & idx & R & Hn & Hl & Hk & Hp).
      exists ext, (i :: idx). rewrite R. simpl.
      destruct (dict_get_Some _ _ _ G) as (j & key & Hj & Hfirst).
      assert (Ei : i = Z.of_nat j) by (apply (proj2 Hd) in Hj; exact Hj).
      split; [reflexivity|]. split; [exact Hn|]. split; [now rewrite Hl|]. split.
      * intros u Hu. right. now apply Hk.
      * intros [|p] u; simpl.
        -- intros [= <-]. exists j. split; [now rewrite Ei|].
           rewrite map_app. now apply first_match_app.
        -- apply Hp.
    + destruct (IH _ (numbered_snoc d v Hd G)) as (ext & idx & R & Hn & Hl & Hk & Hp).
      exists ((v, len d) :: ext), (len d :: idx). rewrite R. simpl.
      replace (d ++ (v, len d) :: ext) with ((d ++ [(v, len d)]) ++ ext)
        by (now rewrite <- app_assoc).
      split; [reflexivity|]. split; [exact Hn|]. split; [now rewrite Hl|]. split.
      * intros u [<-|Hu]; [now left | right; now apply Hk].
      * intros [|p] u; simpl.
        -- intros [= <-]. exists (length d). split; [reflexivity|].
           rewrite map_app. apply first_match_app.
           rewrite map_app. simpl. split.
           ++ exists v. split; [|apply accepts_refl].
              rewrite nth_error_app2 by (rewrite length_map; lia).
              now rewrite length_map, Nat.sub_diag.
           ++ intros j key Hj Hkey. rewrite dict_get_None in G. apply G.
              rewrite nth_error_app1 in Hkey by (rewrite length_map; exact Hj).
              eapply nth_error_In; eauto.
        -- apply Hp.
Qed.

Lemma internAll_app (s1 s2 : list Vertex) :
  forall d,
    internAll d (s1 ++ s2)
    = (r1 <- internAll d s1 ;;
       r2 <- internAll (fst r1) s2 ;;
       Ok (fst r2, snd r1 ++ snd r2))%result.
Proof.
  induction s1 as [|v s1 IH]; intros d; simpl.
  - destruct (internAll d s2) as [[d2 i2]|e]; reflexivity.
  - destruct (intern d v) as [[d1 i]|e]; simpl; [|reflexivity].
    rewrite IH. destruct (internAll d1 s1) as [[d' i1]|e]; simpl; [|reflexivity].
    destruct (internAll d' s2) as [[d2 i2]|e]; reflexivity.
Qed.

Lemma internAll_total (s : list Vertex) :
  forall d, exists d' idx, internAll d s = Ok (d', idx).
Proof.
  induction s as [|v s IH]; intros d; simpl.
  - now exists d, [].
  - destruct (intern_cases d v) as [(i & _ & E) | (_ & E)]; rewrite E; simpl.
    + destruct (IH d) as (d' & idx & ->). simpl. eauto.
    + destruct (IH (d ++ [(v, len d)])) as (d' & idx & ->). simpl. eauto.
Qed.

(** The loops of [getDataFromMeshObjects] intern, in order, the vertices
    they make. *)
Lemma bakeLoops_internAll (armature : option Armature) (object : Object)
      (loops : list Loop) :
  forall d stream,
    loopVertices armature object loops = Ok stream ->
    exists d' idx,
      bakeLoops armature object loops d = Ok (d', idx)
      /\ internAll d stream = Ok (d', idx).
Proof.
  induction loops as [|loop loops IH]; intros d stream; simpl.
  - intros [= <-]. now exists d, [].
  - destruct (makeVertex armature object loop) as [v|e]; simpl; [|discriminate].
    destruct (loopVertices armature object loops) as [vs|e] eqn:E; simpl; [|discriminate].
    intros [= <-]. simpl.
    destruct (intern d v) as [[d1 i]|e] eqn:Ei; simpl.
    + destruct (IH d1 vs eq_refl) as (d' & idx & -> & ->). simpl. eauto.
    + destruct (intern_cases d v) as [(j & _ & Ej) | (_ & Ej)]; congruence.
Qed.

Lemma bakePolygons_internAll (armature : option Armature) (object : Object)
      (polygons : list Polygon) :
  forall d stream,
    polygonVertices armature object polygons = Ok stream ->
    exists d' faces,
      bakePolygons armature object polygons d = Ok (d', faces)
      /\ internAll d stream = Ok (d', indexBuffer faces).
Proof.
  induction polygons as [|polygon polygons IH]; intros d stream; simpl.
  - intros [= <-]. now exists d, [].
  - destruct (length polygon =? 3)%nat; [|apply IH].
    destruct (loopVertices armature object polygon) as [vs|e] eqn:E; simpl; [|discriminate].
    destruct (polygonVertices armature object polygons) as [ws|e] eqn:E'; simpl;
      [|discriminate].
    intros [= <-].
    destruct (bakeLoops_internAll armature object polygon d vs E) as (d1 & idx & -> & Hi).
    simpl.
    destruct (IH d1 ws eq_refl) as (d' & faces & -> & Hf). simpl.
    exists d', (mkFace idx :: faces). split; [reflexivity|].
    rewrite internAll_app, Hi. simpl. rewrite Hf. reflexivity.
Qed.

Lemma indexBuffer_app (a b : list Face) :
  indexBuffer (a ++ b) = indexBuffer a ++ indexBuffer b.
Proof. apply flat_map_app. Qed.

Lemma bakeObjects_internAll (scene : PosePosition) (objects : list Object)
      (armature : option Armature) (transformMatrix : Matrix) :
  forall d stream,
    objectVertices scene objects armature transformMatrix = Ok stream ->
    exists d' faces,
      bakeObjects scene objects armature transformMatrix d = Ok (d', faces)
      /\ internAll d stream = Ok (d', indexBuffer faces).
Proof.
  induction objects as [|object objects IH]; intros d stream; simpl.
  - intros [= <-]. now exists d, [].
  - destruct (polygonVertices armature object _) as [vs|e] eqn:E; simpl; [|discriminate].
    destruct (objectVertices scene objects armature transformMatrix) as [ws|e] eqn:E';
      simpl; [|discriminate].
    intros [= <-].
    destruct (bakePolygons_internAll armature object _ d vs E) as (d1 & faces1 & -> & H1).
    simpl.
    destruct (IH d1 ws eq_refl) as (d' & faces & -> & Hf). simpl.
    exists d', (faces1 ++ faces). split; [reflexivity|].
    rewrite internAll_app, H1. simpl. rewrite Hf. simpl.
    now rewrite indexBuffer_app.
Qed.

(** One more vertex after a stream. *)
Lemma internAll_snoc (pre : list Vertex) (v : Vertex) (d : VertexDict) (idx : list Z) :
  internAll [] pre = Ok (d, idx) ->
  internAll [] (pre ++ [v])
  = (interned <- intern d v ;; Ok (fst interned, idx ++ [snd interned]))%result.
Proof.
  intros R. rewrite internAll_app, R. simpl.
  destruct (intern d v) as [[d1 i]|e]; reflexivity.
Qed.

(** C1, as the code has it.  Interning a vertex twice gives the same index
    both times (and never raises).  A stream is interned in order: after
    the vertices of [pre] the dict holds keys numbered 0, 1, ... in the
    order they came in; the next vertex [v], when no key is taken for it,
    becomes a key with the number of keys so far as its index; when some
    key is taken for it, it gets the index of the first such key and the
    dict stays as it is.  Over the whole stream: the keys are vertices of
    the stream, all different; the index of a vertex is the position of the
    first key taken for it; and two occurrences of the same vertex get the
    same index.  A key is taken for a vertex when it has its hash and
    [__eq__] accepts the two, so a vertex can get the index of a key that
    is another vertex.  [getDataFromMeshObjects] is this interning of the
    stream of the vertices it makes: its vertices are the keys of the dict,
    its index buffer the indices. *)
Theorem intern_first_seen_order :
  (forall d v, exists d1 i, intern d v = Ok (d1, i) /\ intern d1 v = Ok (d1, i))
  /\ (forall pre v, exists d idx,
        internAll [] pre = Ok (d, idx)
        /\ (forall i entry, nth_error d i = Some entry -> snd entry = Z.of_nat i)
        /\ ((forall key, In key (map fst d) -> accepts key v = false) ->
              internAll [] (pre ++ [v]) = Ok (d ++ [(v, len d)], idx ++ [len d]))
        /\ (forall i, first_match (map fst d) v i ->
              internAll [] (pre ++ [v]) = Ok (d, idx ++ [Z.of_nat i])))
  /\ (forall s, exists d idx,
        internAll [] s = Ok (d, idx)
        /\ length idx = length s
        /\ NoDup (map fst d)
        /\ (forall key, In key (map fst d) -> In key s)
        /\ (forall p v, nth_error s p = Some v ->
              exists i, nth_error idx p = Some (Z.of_nat i)
                        /\ first_match (map fst d) v i)
        /\ (forall p q v, nth_error s p = Some v -> nth_error s q = Some v ->
              nth_error idx p = nth_error idx q))
  /\ (forall scene objects armature transformMatrix stream,
        objectVertices scene objects armature transformMatrix = Ok stream ->
        exists d faces,
          internAll [] stream = Ok (d, indexBuffer faces)
          /\ getDataFromMeshObjects scene objects armature transformMatrix
             = Ok (map fst d, faces)).
Proof.
  split; [exact intern_twice|]. split; [|split].
  - intros pre v.
    destruct (internAll_spec pre [] numbered_nil) as (d & idx & R & Hn & _).
    simpl in R, Hn. exists d, idx.
    split; [exact R|]. split; [exact (proj2 Hn)|]. split.
    + intros Hnone. rewrite (internAll_snoc _ v _ _ R).
      apply dict_get_None in Hnone.
      destruct (intern_cases d v) as [(i & G & _) | (_ & E)]; [congruence|].
      now rewrite E.
    + intros i Hi. rewrite (internAll_snoc _ v _ _ R).
      pose proof (first_match_dict_get _ _ _ Hn Hi) as G.
      destruct (intern_cases d v) as [(j & G' & E) | (G' & _)]; [|congruence].
      rewrite E. simpl. congruence.
  - intros s.
    destruct (internAll_spec s [] numbered_nil) as (d & idx & R & Hn & Hl & Hk & Hp).
    simpl in *. exists d, idx.
    split; [exact R|]. split; [exact Hl|].
    split; [exact (separated_NoDup _ (proj1 Hn))|]. split; [exact Hk|].
    split; [exact Hp|].
    intros p q v Hpv Hqv.
    destruct (Hp _ _ Hpv) as (i & Ei & Fi).
    destruct (Hp _ _ Hqv) as (j & Ej & Fj).
    rewrite Ei, Ej. now rewrite (first_match_unique _ _ _ _ Fi Fj).
  - intros scene objects armature transformMatrix stream Hs.
    destruct (bakeObjects_internAll scene objects armature transformMatrix [] stream Hs)
      as (d & faces & Hb & Hi).
    exists d, faces. split; [exact Hi|].
    unfold getDataFromMeshObjects. rewrite Hb. reflexivity.
Qed.

End Dedup.

(** ** Joint weights *)

Section JointWeights.
Context {PN : PyNum}.


(** Four weights whose sum is [== 0] give four zeros; otherwise each weight
    is divided by the sum, in order.  No exception either way. *)
Lemma normalizeJointWeights_four (w0 w1 w2 w3 : num) :
  let total := sum [w0; w1; w2; w3] in
  normalizeJointWeights [w0; w1; w2; w3]
  = Ok (if num_eqb total (num_of_Z 0)
        then [num_of_Z 0; num_of_Z 0; num_of_Z 0; num_of_Z 0]
        else [num_div w0 total; num_div w1 total; num_div w2 total; num_div w3 total]).
Proof.
  intros total. unfold normalizeJointWeights. fold total.
  destruct (num_eqb total (num_of_Z 0)) eqn:E; simpl; [reflexivity|].
  unfold truediv. rewrite E. reflexivity.
Qed.



End JointWeights.

(** ** Hash and equality of [Vertex] *)

Section HashAndEquality.
Context {PN : PyNum}.

(** Two vertices with the same position have the same hash: no attribute
    but [position] takes part in [__hash__]. *)
Lemma hash_covers_position (f : Field) : hash_covers f -> f = field_position.
Proof.
  intros (a & b & Hag & Hh).
  destruct f; try reflexivity; exfalso; apply Hh; unfold Vertex_hash;
    now rewrite (Hag field_position) by discriminate.
Qed.

(** As soon as two numbers are neither close nor equal, every attribute
    takes part in [__eq__]. *)
Lemma eq_covers_all (a b : num) :
  num_close a b = false -> num_eqb a b = false -> forall f, eq_covers f.
Proof.
  intros Hc He f.
  set (v := mkVec3 a a a). set (u := mkVec2 a a).
  assert (Ev : Vec3_eqb v (mkVec3 b a a) = false) by (unfold Vec3_eqb; simpl; now rewrite Hc).
  assert (Eu : Vec2_eqb u (mkVec2 b a) = false) by (unfold Vec2_eqb; simpl; now rewrite Hc).
  destruct f.
  - exists (mkVertex v u v [] []), (mkVertex (mkVec3 b a a) u v [] []).
    split; [intros g Hg; destruct g; (reflexivity || congruence)|].
    unfold Vertex_eq. simpl. now rewrite Ev.
  - exists (mkVertex v u v [] []), (mkVertex v (mkVec2 b a) v [] []).
    split; [intros g Hg; destruct g; (reflexivity || congruence)|].
    unfold Vertex_eq. simpl. now rewrite Eu, andb_false_r.
  - exists (mkVertex v u v [] []), (mkVertex v u (mkVec3 b a a) [] []).
    split; [intros g Hg; destruct g; (reflexivity || congruence)|].
    unfold Vertex_eq. simpl. now rewrite Ev, andb_false_r.
  - exists (mkVertex v u v [0] []), (mkVertex v u v [1] []).
    split; [intros g Hg; destruct g; (reflexivity || congruence)|].
    unfold Vertex_eq. simpl. now rewrite !andb_false_r.
  - exists (mkVertex v u v [] [a]), (mkVertex v u v [] [b]).
    split; [intros g Hg; destruct g; (reflexivity || congruence)|].
    unfold Vertex_eq. simpl. now rewrite He, !andb_false_r.
Qed.

End HashAndEquality.

(** C4, as the code has it.  [__hash__] is the hash of [position.x], in
    any arithmetic, and the only attribute it covers is [position].  In
    IEEE arithmetic [__eq__] covers all five attributes; and the hash is
    not consistent with it: there are two vertices that [__eq__] accepts,
    with everything but the position the same, whose hashes differ. *)
Theorem Vertex_hash_covers_position_only :
  (forall (PN : PyNum) (v : Vertex), Vertex_hash v = num_hash (x (position v)))
  /\ (forall (PN : PyNum) (f : Field), hash_covers f -> f = field_position)
  /\ (forall f : Field, @eq_covers IEEE.Binary64 f)
  /\ (exists a b : @Vertex IEEE.Binary64,
        (forall g, g <> field_position -> agree_on g a b)
        /\ Vertex_eq a b = true
        /\ Vertex_hash a <> Vertex_hash b).
Proof.
  split; [reflexivity|]. split; [intros PN; apply hash_covers_position|]. split.
  - apply (eq_covers_all (PN := IEEE.Binary64) (IEEE.of_Z 0) (IEEE.of_Z 1));
      vm_compute; reflexivity.
  - exists Sample.vOne, Sample.vAside. split; [|split].
    + intros g Hg. destruct g; (reflexivity || congruence).
    + vm_compute. reflexivity.
    + vm_compute. discriminate.
Qed.

(** ** The exporter's monad *)

Section MonadFacts.
Context {PN : PyNum} {MU : Mathutils} {BL : Blender}.
Local Open Scope exporter_scope.

Lemma bind_Ok {A B : Type} (m : M A) (k : A -> M B) (w w1 : World) (a : A) :
  m w = (Ok a, w1) -> bind m k w = k a w1.
Proof. intros H. unfold bind. now rewrite H. Qed.

Lemma bind_Raise {A B : Type} (m : M A) (k : A -> M B) (w w1 : World) (e : exn) :
  m w = (Raise e, w1) -> bind m k w = (Raise e, w1).
Proof. intros H. unfold bind. now rewrite H. Qed.

Lemma bind_Ok_inv {A B : Type} (m : M A) (k : A -> M B) (w w' : World) (b : B) :
  bind m k w = (Ok b, w') ->
  exists a w1, m w = (Ok a, w1) /\ k a w1 = (Ok b, w').
Proof.
  unfold bind. destruct (m w) as [[a|e] w1]; [|discriminate].
  intros H. now exists a, w1.
Qed.

Lemma bind_Raise_inv {A B : Type} (m : M A) (k : A -> M B) (w w' : World) (e : exn) :
  bind m k w = (Raise e, w') ->
  m w = (Raise e, w')
  \/ exists a w1, m w = (Ok a, w1) /\ k a w1 = (Raise e, w').
Proof.
  unfold bind. destruct (m w) as [[a|e1] w1]; intros H.
  - right. now exists a, w1.
  - left. injection H as -> ->. reflexivity.
Qed.

Lemma emit_nil (w : World) : emit [] w = w.
Proof. destruct w. unfold emit, set_file. simpl. now rewrite app_nil_r. Qed.

Lemma emit_emit (a b : list Item) (w : World) :
  emit b (emit a w) = emit (a ++ b) w.
Proof. unfold emit, set_file. simpl. now rewrite app_assoc. Qed.

Lemma write_emit (i : Item) (w : World) : write i w = (Ok tt, emit [i] w).
Proof. reflexivity. Qed.

Lemma writeFloat_emit (value : num) (w : World) :
  writeFloat value w = (Ok tt, emit [F32 value] w).
Proof. reflexivity. Qed.

Lemma writeBool_emit (value : bool) (w : World) :
  writeBool value w = (Ok tt, emit [Bool8 value] w).
Proof. reflexivity. Qed.

(** A loop that writes one field per element. *)
Lemma for_each_write {A : Type} (f : A -> Item) (l : list A) :
  forall w, for_each l (fun a => write (f a)) w = (Ok tt, emit (map f l) w).
Proof.
  induction l as [|a l IH]; intros w; simpl.
  - now rewrite emit_nil.
  - rewrite (bind_Ok _ _ _ _ _ (write_emit (f a) w)), IH, emit_emit. reflexivity.
Qed.

Section Respects.
Variable R : World -> World -> Prop.
Hypothesis R_refl : forall w, R w w.
Hypothesis R_trans : forall a b c, R a b -> R b c -> R a c.

Lemma respects_ret {A : Type} (a : A) : respects R (ret a).
Proof. intros w r w' [= _ <-]. apply R_refl. Qed.

Lemma respects_raise {A : Type} (e : exn) : respects R (raise e : M A).
Proof. intros w r w' [= _ <-]. apply R_refl. Qed.

Lemma respects_lift {A : Type} (x : Result A) : respects R (lift x).
Proof. intros w r w' [= _ <-]. apply R_refl. Qed.

Lemma respects_get : respects R get.
Proof. intros w r w' [= _ <-]. apply R_refl. Qed.

Lemma respects_bind {A B : Type} (m : M A) (k : A -> M B) :
  respects R m -> (forall a, respects R (k a)) -> respects R (bind m k).
Proof.
  intros Hm Hk w r w'. unfold bind.
  destruct (m w) as [[a|e] w1] eqn:E.
  - intros H. exact (R_trans _ _ _ (Hm _ _ _ E) (Hk a _ _ _ H)).
  - intros [= _ <-]. exact (Hm _ _ _ E).
Qed.

Lemma respects_for_each_In {A : Type} (l : list A) (body : A -> M unit) :
  (forall a, In a l -> respects R (body a)) -> respects R (for_each l body).
Proof.
  induction l as [|a l IH]; intros Hb; simpl.
  - apply respects_ret.
  - apply respects_bind; [apply Hb; now left | intros _; apply IH].
    intros b Hin. apply Hb. now right.
Qed.

Lemma respects_for_each {A : Type} (l : list A) (body : A -> M unit) :
  (forall a, respects R (body a)) -> respects R (for_each l body).
Proof. intros Hb. apply respects_for_each_In. auto. Qed.

End Respects.

End MonadFacts.

(** ** Writers *)

Section WriterFacts.
Context {PN : PyNum} {MU : Mathutils} {BL : Blender}.
Local Open Scope exporter_scope.

Lemma writeUint8_run (value : Z) (w : World) :
  writeUint8 value w
  = if in_range value 255 then (Ok tt, emit [U8 value] w) else (Raise StructError, w).
Proof. unfold writeUint8. destruct (in_range value 255); reflexivity. Qed.

Lemma writeUint16_run (value : Z) (w : World) :
  writeUint16 value w
  = if in_range value 65535 then (Ok tt, emit [U16 value] w) else (Raise StructError, w).
Proof. unfold writeUint16. destruct (in_range value 65535); reflexivity. Qed.

Lemma writeUint32_run (value : Z) (w : World) :
  writeUint32 value w
  = if in_range value 4294967295 then (Ok tt, emit [U32 value] w)
    else (Raise StructError, w).
Proof. unfold writeUint32. destruct (in_range value 4294967295); reflexivity. Qed.

Lemma writeString_run (text : str) (w : World) :
  writeString text w
  = if forallb (fun c => (c <? 128)%N) text then (Ok tt, emit [Text text] w)
    else (Raise UnicodeEncodeError, w).
Proof.
  unfold writeString, encode_ascii, bind, lift.
  destruct (forallb _ text); reflexivity.
Qed.

Lemma in_range_spec (value bound : Z) :
  in_range value bound = true <-> 0 <= value <= bound.
Proof. unfold in_range. rewrite andb_true_iff, !Z.leb_le. tauto. Qed.

Lemma writePose_run (m : Matrix) (w : World) :
  writePose m w = (Ok tt, emit (pose_record m) w).
Proof.
  unfold writePose. cbv zeta.
  repeat (erewrite bind_Ok by apply writeFloat_emit).
  rewrite writeFloat_emit, !emit_emit. reflexivity.
Qed.

(** Lines 157-161 leave the world alone and yield the parent-space matrix,
    or raise when the parent's matrix is singular. *)
Lemma parentSpacePose_Ok_inv (transform : Matrix) (bone : Bone) (w w' : World)
      (m : Matrix) :
  parentSpacePose transform bone w = (Ok m, w') ->
  w' = w
  /\ is_parent_space transform (pose_position w) (action w) (frame_current w) bone m.
Proof.
  unfold parentSpacePose, is_parent_space, bind, matrix, invert, ret, raise.
  destruct (bone_parent bone) as [parent|].
  - destruct (inverted _) as [inverse|] eqn:E; [|discriminate].
    intros [= <- <-]. split; [reflexivity|]. now exists inverse.
  - intros [= <- <-]. auto.
Qed.

Lemma parentSpacePose_Ok (transform : Matrix) (bone : Bone) (w : World) (m : Matrix) :
  is_parent_space transform (pose_position w) (action w) (frame_current w) bone m ->
  parentSpacePose transform bone w = (Ok m, w).
Proof.
  unfold parentSpacePose, is_parent_space, bind, matrix, invert, ret, raise.
  destruct (bone_parent bone) as [parent|].
  - intros (inverse & -> & ->). reflexivity.
  - intros ->. reflexivity.
Qed.

Lemma bone_loop_Ok_inv (transform : Matrix) (bs : list Bone) :
  forall w w',
    for_each bs (writeBonePose transform) w = (Ok tt, w') ->
    exists ms,
      Forall2 (is_parent_space transform (pose_position w) (action w) (frame_current w))
              bs ms
      /\ w' = emit (flat_map pose_record ms) w.
Proof.
  induction bs as [|b bs IH]; intros w w'; simpl.
  - intros [= <-]. exists []. split; [constructor|]. simpl. now rewrite emit_nil.
  - intros H. apply bind_Ok_inv in H as ([] & w1 & H1 & H2).
    unfold writeBonePose in H1. apply bind_Ok_inv in H1 as (m & w0 & Hm & Hw).
    apply parentSpacePose_Ok_inv in Hm as [-> Hm].
    rewrite writePose_run in Hw. injection Hw as <-.
    apply IH in H2 as (ms & Hms & ->).
    exists (m :: ms). split; [constructor; assumption|].
    simpl. now rewrite emit_emit.
Qed.

End WriterFacts.

(** ** What every writer respects *)

Section WriterRespects.
Context {PN : PyNum} {MU : Mathutils} {BL : Blender}.
Local Open Scope exporter_scope.

Variable R : World -> World -> Prop.
Hypothesis R_refl : forall w, R w w.
Hypothesis R_trans : forall a b c, R a b -> R b c -> R a c.
Hypothesis R_write : forall i w, R w (set_file (file w ++ [i]) w).
Hypothesis R_frame : forall frame w, R w (set_frame_current frame w).
Hypothesis R_action : forall a w, R w (set_action a w).

Lemma respects_write (i : Item) : respects R (write i).
Proof. intros w r w' [= _ <-]. apply R_write. Qed.

Lemma respects_writeUint8 (value : Z) : respects R (writeUint8 value).
Proof.
  unfold writeUint8. destruct (in_range value 255);
    [apply respects_write | now apply respects_raise].
Qed.

Lemma respects_writeUint16 (value : Z) : respects R (writeUint16 value).
Proof.
  unfold writeUint16. destruct (in_range value 65535);
    [apply respects_write | now apply respects_raise].
Qed.

Lemma respects_writeUint32 (value : Z) : respects R (writeUint32 value).
Proof.
  unfold writeUint32. destruct (in_range value 4294967295);
    [apply respects_write | now apply respects_raise].
Qed.

Lemma respects_writeFloat (value : num) : respects R (writeFloat value).
Proof. apply respects_write. Qed.

Lemma respects_writeString (text : str) : respects R (writeString text).
Proof.
  unfold writeString. apply respects_bind; auto.
  - now apply respects_lift.
  - intros a. apply respects_write.
Qed.

Lemma respects_frame_set (frame : Z) : respects R (frame_set frame).
Proof. intros w r w' [= _ <-]. apply R_frame. Qed.

Lemma respects_assign_action (a : option Action) : respects R (assign_action a).
Proof.
  intros w r w'. unfold assign_action.
  destruct (animation_data w); intros [= _ <-]; [apply R_action | apply R_refl].
Qed.

Lemma respects_get_action : respects R get_action.
Proof.
  intros w r w'. unfold get_action.
  destruct (animation_data w); intros [= _ <-]; apply R_refl.
Qed.

Lemma respects_writePose (m : Matrix) : respects R (writePose m).
Proof.
  unfold writePose. cbv zeta.
  repeat (apply respects_bind; try assumption;
          [apply respects_writeFloat | intros _]).
  apply respects_writeFloat.
Qed.

Lemma respects_parentSpacePose (transform : Matrix) (bone : Bone) :
  respects R (parentSpacePose transform bone).
Proof.
  intros w r w'.
  unfold parentSpacePose, bind, matrix, invert, ret, raise.
  destruct (bone_parent bone) as [parent|].
  - destruct (inverted _); intros [= _ <-]; apply R_refl.
  - intros [= _ <-]; apply R_refl.
Qed.

Lemma respects_writeFrame (armature : Armature) (transform : Matrix) (frame : Z) :
  respects R (writeFrame armature transform frame).
Proof.
  unfold writeFrame. apply respects_bind; auto using respects_frame_set.
  intros _. apply respects_for_each; auto. intros bone.
  unfold writeBonePose. apply respects_bind; auto using respects_parentSpacePose.
  intros m. apply respects_writePose.
Qed.

Lemma respects_writeAnimation (armature : Armature) (animation : Action)
      (transform : Matrix) :
  respects R (writeAnimation armature animation transform).
Proof.
  unfold writeAnimation.
  apply respects_bind; auto using respects_assign_action.
  intros _. apply respects_bind; auto using respects_writeUint32.
  intros _. apply respects_bind; auto using respects_writeUint32.
  intros _. apply respects_bind; auto using respects_writeString.
  intros _. apply respects_for_each; auto.
  intros frame. apply respects_writeFrame.
Qed.

Lemma respects_writeJoints (armature : Armature) (transform : Matrix) :
  respects R (writeJoints armature transform).
Proof.
  unfold writeJoints. apply respects_for_each; auto. intros bone.
  unfold writeJoint. apply respects_bind; auto using respects_writeUint8.
  intros _. apply respects_bind; auto.
  - unfold invert. destruct (inverted _);
      [now apply respects_ret | now apply respects_raise].
  - intros m. apply respects_for_each; auto. intros vector.
    apply respects_for_each; auto. intros float. apply respects_writeFloat.
Qed.

Lemma respects_writeFaces (faces : list Face) : respects R (writeFaces faces).
Proof.
  unfold writeFaces. apply respects_for_each; auto. intros face.
  apply respects_for_each; auto. intros i. apply respects_writeUint16.
Qed.

Lemma respects_writeVertex (vertex : Vertex) (writeJointBindings : bool) :
  respects R (writeVertex vertex writeJointBindings).
Proof.
  unfold writeVertex.
  repeat (apply respects_bind; auto using respects_writeFloat; intros _).
  destruct writeJointBindings; [|now apply respects_ret].
  apply respects_bind; auto.
  - apply respects_for_each; auto. intros i. apply respects_bind; auto.
    + now apply respects_lift.
    + intros a. apply respects_writeUint8.
  - intros _. apply respects_for_each; auto. intros i. apply respects_bind; auto.
    + now apply respects_lift.
    + intros a. apply respects_writeFloat.
Qed.

Lemma respects_writeVertices (vertices : list Vertex) (writeJointBindings : bool) :
  respects R (writeVertices vertices writeJointBindings).
Proof.
  unfold writeVertices. apply respects_for_each; auto.
  intros v. apply respects_writeVertex.
Qed.

End WriterRespects.

(** ** Lists *)

Section ListFacts.

Lemma Forall2_nth_error_l {A B : Type} (P : A -> B -> Prop) (l : list A) (l' : list B) :
  Forall2 P l l' ->
  forall i a, nth_error l i = Some a -> exists b, nth_error l' i = Some b /\ P a b.
Proof.
  induction 1 as [|a0 b0 l l' H0 _ IH]; intros [|i] a; simpl; try discriminate.
  - intros [= <-]. now exists b0.
  - apply IH.
Qed.

Lemma Forall2_nth_error_r {A B : Type} (P : A -> B -> Prop) (l : list A) (l' : list B) :
  Forall2 P l l' ->
  forall i b, nth_error l' i = Some b -> exists a, nth_error l i = Some a /\ P a b.
Proof.
  induction 1 as [|a0 b0 l l' H0 _ IH]; intros [|i] b; simpl; try discriminate.
  - intros [= <-]. now exists a0.
  - apply IH.
Qed.

Lemma flat_map_concat_blocks {A B : Type} (f : A -> list B) (ll : list (list A)) :
  flat_map (flat_map f) ll = flat_map f (concat ll).
Proof.
  induction ll as [|l ll IH]; simpl; [reflexivity|].
  now rewrite flat_map_app, IH.
Qed.

(** In a concatenation of blocks of [n] elements, element [i] of block [j]
    is at position [j * n + i]. *)
Lemma nth_error_concat_blocks {A : Type} (n : nat) (ll : list (list A)) :
  (forall l, In l ll -> length l = n) ->
  forall j l i, nth_error ll j = Some l -> (i < n)%nat ->
  nth_error (concat ll) (j * n + i) = nth_error l i.
Proof.
  induction ll as [|l0 ll IH]; intros Hn [|j] l i; simpl; try discriminate.
  - intros [= <-] Hi. apply nth_error_app1. rewrite (Hn l0) by now left. exact Hi.
  - intros Hl Hi. pose proof (Hn l0 (or_introl eq_refl)) as H0.
    rewrite nth_error_app2 by lia. rewrite H0.
    replace (n + j * n + i - n)%nat with (j * n + i)%nat by lia.
    apply IH; auto. intros l' Hl'. apply Hn. now right.
Qed.

Lemma length_concat_blocks {A : Type} (n : nat) (ll : list (list A)) :
  (forall l, In l ll -> length l = n) -> length (concat ll) = (length ll * n)%nat.
Proof.
  induction ll as [|l0 ll IH]; intros Hn; simpl; [reflexivity|].
  rewrite length_app, (Hn l0) by now left.
  rewrite IH; [reflexivity|]. intros l Hl. apply Hn. now right.
Qed.

Lemma length_range (a b : Z) : length (range a b) = Z.to_nat (b - a).
Proof. unfold range. now rewrite length_map, length_seq. Qed.

Lemma nth_error_range (a b : Z) (j : nat) :
  (j < Z.to_nat (b - a))%nat -> nth_error (range a b) j = Some (a + Z.of_nat j).
Proof.
  intros Hj. unfold range.
  rewrite nth_error_map.
  rewrite (nth_error_nth' _ 0%nat) by now rewrite length_seq.
  rewrite seq_nth by exact Hj. reflexivity.
Qed.

Lemma In_range (a b f : Z) : In f (range a b) -> a <= f < b.
Proof.
  unfold range. rewrite in_map_iff. intros (i & <- & Hi). apply in_seq in Hi. lia.
Qed.

Lemma nth_error_range_inv (a b : Z) (j : nat) (f : Z) :
  nth_error (range a b) j = Some f -> f = a + Z.of_nat j.
Proof.
  intros H. assert (Hj : (j < Z.to_nat (b - a))%nat).
  { rewrite <- length_range. apply nth_error_Some. congruence. }
  rewrite nth_error_range in H by exact Hj. congruence.
Qed.

End ListFacts.

(** ** The animation sampler *)

Section Animation.
Context {PN : PyNum} {MU : Mathutils} {BL : Blender}.
Local Open Scope exporter_scope.

Lemma frame_loop_Ok_inv (armature : Armature) (transform : Matrix) (frames : list Z) :
  forall w w',
    for_each frames (writeFrame armature transform) w = (Ok tt, w') ->
    exists blocks,
      sampled armature transform (pose_position w) (action w) frames blocks
      /\ file w' = file w ++ flat_map (flat_map pose_record) blocks
      /\ pose_position w' = pose_position w
      /\ action w' = action w.
Proof.
  induction frames as [|f frames IH]; intros w w'; simpl.
  - intros [= <-]. exists []. rewrite app_nil_r. repeat split. constructor.
  - intros H. apply bind_Ok_inv in H as ([] & w2 & H1 & H2).
    unfold writeFrame in H1. apply bind_Ok_inv in H1 as ([] & w1 & Hf & Hb).
    injection Hf as <-.
    apply bone_loop_Ok_inv in Hb as (ms & Hms & ->).
    apply IH in H2 as (blocks & Hbl & Hfile & Hp & Ha).
    simpl in *. exists (ms :: blocks).
    split; [constructor; assumption|].
    split; [|split; assumption].
    rewrite Hfile. simpl. now rewrite app_assoc.
Qed.

(** What a normal return of [writeAnimation] tells. *)
Lemma writeAnimation_Ok_inv (armature : Armature) (animation : Action)
      (transform : Matrix) (w w' : World) :
  writeAnimation armature animation transform w = (Ok tt, w') ->
  let startFrame := num_int (vx (frame_range animation)) in
  let endFrame := num_int (vy (frame_range animation)) in
  0 <= endFrame - startFrame + 1 <= 4294967295
  /\ forallb (fun c => (c <? 128)%N) (action_name animation) = true
  /\ exists blocks,
       sampled armature transform (pose_position w) (Some animation)
               (range startFrame (endFrame + 1)) blocks
       /\ file w' = file w
                    ++ [U32 (endFrame - startFrame + 1);
                        U32 (len (action_name animation));
                        Text (action_name animation)]
                    ++ flat_map (flat_map pose_record) blocks
       /\ pose_position w' = pose_position w
       /\ action w' = Some animation.
Proof.
  intros H startFrame endFrame. unfold writeAnimation in H.
  fold startFrame endFrame in H.
  apply bind_Ok_inv in H as ([] & w1 & H1 & H).
  unfold assign_action in H1. destruct (animation_data w); [|discriminate].
  injection H1 as <-.
  apply bind_Ok_inv in H as ([] & w2 & H2 & H). rewrite writeUint32_run in H2.
  destruct (in_range (endFrame - startFrame + 1) 4294967295) eqn:Hfc; [|discriminate].
  injection H2 as <-.
  apply bind_Ok_inv in H as ([] & w3 & H3 & H). rewrite writeUint32_run in H3.
  destruct (in_range (len (action_name animation)) 4294967295); [|discriminate].
  injection H3 as <-.
  apply bind_Ok_inv in H as ([] & w4 & H4 & H). rewrite writeString_run in H4.
  destruct (forallb _ (action_name animation)) eqn:Hascii; [|discriminate].
  injection H4 as <-.
  apply frame_loop_Ok_inv in H as (blocks & Hbl & Hfile & Hp & Ha).
  simpl in *.
  split; [now apply in_range_spec|]. split; [reflexivity|].
  exists blocks. repeat split; try assumption.
  rewrite Hfile. repeat rewrite <- app_assoc. reflexivity.
Qed.

(** [writeAnimation] returns on an armature with animation data only. *)
Lemma writeAnimation_Ok_animation_data (armature : Armature) (animation : Action)
      (transform : Matrix) (w w' : World) :
  writeAnimation armature animation transform w = (Ok tt, w') ->
  animation_data w = true.
Proof.
  unfold writeAnimation. intros H.
  apply bind_Ok_inv in H as ([] & w1 & H1 & _).
  unfold assign_action in H1. now destruct (animation_data w).
Qed.

(** The first step of [writeAnimation] on an armature with animation
    data. *)
Lemma assign_action_run (a : option Action) (w : World) :
  animation_data w = true -> assign_action a w = (Ok tt, set_action a w).
Proof. intros H. unfold assign_action. now rewrite H. Qed.

Lemma sampled_block (armature : Armature) (transform : Matrix) (p : PosePosition)
      (a : option Action) (startFrame stop : Z) (blocks : list (list Matrix)) :
  sampled armature transform p a (range startFrame stop) blocks ->
  length blocks = Z.to_nat (stop - startFrame)
  /\ (forall ms, In ms blocks -> length ms = length (bones armature))
  /\ (forall j ms, nth_error blocks j = Some ms ->
        Forall2 (is_parent_space transform p a (startFrame + Z.of_nat j))
                (bones armature) ms).
Proof.
  intros H. split; [|split].
  - rewrite <- (Forall2_length H). apply length_range.
  - intros ms Hin. apply In_nth_error in Hin as [j Hj].
    destruct (Forall2_nth_error_r _ _ _ H _ _ Hj) as (f & _ & Hf).
    symmetry. exact (Forall2_length Hf).
  - intros j ms Hj.
    destruct (Forall2_nth_error_r _ _ _ H _ _ Hj) as (f & Hf & Hms).
    apply nth_error_range_inv in Hf. now subst f.
Qed.

End Animation.

Section AnimationClaims.
Context {PN : PyNum} {MU : Mathutils} {BL : Blender}.

(** C7.  When [writeAnimation] returns, the file has grown by the header and
    by the pose records of a list of matrices; for every frame of the range
    and every bone (the [i]-th of the armature), the matrix at position
    [(frame - startFrame) * boneCount + i] is the parent-space matrix of
    that bone at that frame: inverse of the parent's world matrix times the
    bone's world matrix, or [transform] times the bone's world matrix for a
    root.  Its record is translation x y z, rotation w x y z, scale x y z. *)
Theorem pose_records_are_parent_space (armature : Armature) (animation : Action)
        (transform : Matrix) (w w' : World) :
  writeAnimation armature animation transform w = (Ok tt, w') ->
  let startFrame := num_int (vx (frame_range animation)) in
  let endFrame := num_int (vy (frame_range animation)) in
  exists poses : list Matrix,
    file w' = file w
              ++ [U32 (endFrame - startFrame + 1);
                  U32 (len (action_name animation));
                  Text (action_name animation)]
              ++ flat_map pose_record poses
    /\ (forall m, pose_record m
                  = [F32 (x (to_translation m)); F32 (y (to_translation m));
                     F32 (z (to_translation m));
                     F32 (qw (to_quaternion m)); F32 (qx (to_quaternion m));
                     F32 (qy (to_quaternion m)); F32 (qz (to_quaternion m));
                     F32 (x (to_scale m)); F32 (y (to_scale m)); F32 (z (to_scale m))])
    /\ forall frame i bone,
         startFrame <= frame <= endFrame ->
         nth_error (bones armature) i = Some bone ->
         exists m,
           nth_error poses
                     (Z.to_nat (frame - startFrame) * length (bones armature) + i)
           = Some m
           /\ match bone_parent bone with
              | Some parent =>
                  exists inverse,
                    inverted (pose_matrix (pose_position w) (Some animation) frame parent)
                    = Some inverse
                    /\ m = matmul inverse
                                  (pose_matrix (pose_position w) (Some animation) frame bone)
              | None =>
                  m = matmul transform
                             (pose_matrix (pose_position w) (Some animation) frame bone)
              end.
Proof.
  intros H startFrame endFrame.
  destruct (writeAnimation_Ok_inv _ _ _ _ _ H) as (Hfc & _ & blocks & Hs & Hfile & _).
  fold startFrame endFrame in Hfc, Hs, Hfile.
  destruct (sampled_block _ _ _ _ _ _ _ Hs) as (Hlen & Hblock & Hnth).
  exists (concat blocks). split; [|split].
  - now rewrite <- flat_map_concat_blocks.
  - reflexivity.
  - intros frame i bone Hframe Hbone.
    set (j := Z.to_nat (frame - startFrame)).
    assert (Hj : (j < length blocks)%nat) by (rewrite Hlen; unfold j; lia).
    destruct (nth_error blocks j) as [ms|] eqn:Hms;
      [|apply nth_error_None in Hms; lia].
    pose proof (Hnth _ _ Hms) as Hfr.
    replace (startFrame + Z.of_nat j) with frame in Hfr by (unfold j; lia).
    destruct (Forall2_nth_error_l _ _ _ Hfr _ _ Hbone) as (m & Hm & Hspace).
    exists m. split; [|exact Hspace].
    rewrite (nth_error_concat_blocks (length (bones armature)) blocks Hblock j ms i Hms).
    + exact Hm.
    + apply nth_error_Some. congruence.
Qed.

(** C9.  When [writeAnimation] returns, the frame count written is
    [endFrame - startFrame + 1], and the pose stream is one block per frame,
    [frameCount] blocks in all, the [j]-th for frame [startFrame + j]; each
    block holds one record per bone, in the order of the armature's bones:
    [frameCount * boneCount] records, frame-major, frames ascending. *)
Theorem animation_frame_count_and_order (armature : Armature) (animation : Action)
        (transform : Matrix) (w w' : World) :
  writeAnimation armature animation transform w = (Ok tt, w') ->
  let startFrame := num_int (vx (frame_range animation)) in
  let endFrame := num_int (vy (frame_range animation)) in
  let frameCount := endFrame - startFrame + 1 in
  let boneCount := length (bones armature) in
  exists blocks : list (list Matrix),
    file w' = file w
              ++ [U32 frameCount; U32 (len (action_name animation));
                  Text (action_name animation)]
              ++ flat_map (flat_map pose_record) blocks
    /\ 0 <= frameCount
    /\ length blocks = Z.to_nat frameCount
    /\ length (concat blocks) = (Z.to_nat frameCount * boneCount)%nat
    /\ (forall j ms, nth_error blocks j = Some ms ->
          length ms = boneCount
          /\ Forall2 (is_parent_space transform (pose_position w) (Some animation)
                                      (startFrame + Z.of_nat j))
                     (bones armature) ms).
Proof.
  intros H startFrame endFrame frameCount boneCount.
  destruct (writeAnimation_Ok_inv _ _ _ _ _ H) as (Hfc & _ & blocks & Hs & Hfile & _).
  fold startFrame endFrame frameCount in Hfc, Hs, Hfile.
  destruct (sampled_block _ _ _ _ _ _ _ Hs) as (Hlen & Hblock & Hnth).
  replace (endFrame + 1 - startFrame) with frameCount in Hlen by (unfold frameCount; lia).
  exists blocks. split; [exact Hfile|]. split; [lia|]. split; [exact Hlen|]. split.
  - rewrite (length_concat_blocks boneCount blocks Hblock), Hlen. reflexivity.
  - intros j ms Hms. split.
    + apply Hblock. eapply nth_error_In; eauto.
    + now apply Hnth.
Qed.

(** C10.  For an animation whose frame count and name length fit 32 bits,
    on an armature that has animation data (the export has read it at line
    243 when it comes to an animation): the name length written is the
    number of characters of the name; when every character is ASCII the
    name is written as its ASCII bytes right after the two counts; when
    some character is not, [writeAnimation] raises [UnicodeEncodeError]
    with the two counts already in the file. *)
Theorem animation_name_written (armature : Armature) (animation : Action)
        (transform : Matrix) (w : World) :
  let startFrame := num_int (vx (frame_range animation)) in
  let endFrame := num_int (vy (frame_range animation)) in
  let name := action_name animation in
  animation_data w = true ->
  0 <= endFrame - startFrame + 1 <= 4294967295 ->
  len name <= 4294967295 ->
  len name = Z.of_nat (length name)
  /\ (Forall (fun c => (c < 128)%N) name ->
        encode_ascii name = Ok name
        /\ exists r w' rest,
             writeAnimation armature animation transform w = (r, w')
             /\ file w' = file w
                          ++ [U32 (endFrame - startFrame + 1); U32 (len name); Text name]
                          ++ rest)
  /\ (Exists (fun c => (128 <= c)%N) name ->
        exists w',
          writeAnimation armature animation transform w = (Raise UnicodeEncodeError, w')
          /\ file w' = file w ++ [U32 (endFrame - startFrame + 1); U32 (len name)]).
Proof.
  intros startFrame endFrame name Had Hfc Hlen.
  assert (Elen : in_range (len name) 4294967295 = true).
  { apply in_range_spec. unfold len in *. lia. }
  apply in_range_spec in Hfc.
  split; [reflexivity|]. split.
  - intros Hascii.
    assert (Ea : forallb (fun c => (c <? 128)%N) name = true).
    { apply forallb_forall. intros c Hc. apply N.ltb_lt.
      rewrite Forall_forall in Hascii. now apply Hascii. }
    split; [unfold encode_ascii; now rewrite Ea|].
    unfold writeAnimation. fold startFrame endFrame name.
    rewrite (bind_Ok _ _ _ _ _ (assign_action_run (Some animation) w Had)).
    unfold bind at 1. rewrite writeUint32_run, Hfc.
    unfold bind at 1. rewrite writeUint32_run, Elen.
    unfold bind at 1. rewrite writeString_run, Ea.
    match goal with
    | |- exists r w' rest, ?loop ?w0 = _ /\ _ =>
        destruct (loop w0) as [r w'] eqn:E
    end.
    exists r, w'.
    assert (G : grows (emit [Text name]
                        (emit [U32 (len name)]
                          (emit [U32 (endFrame - startFrame + 1)]
                            (set_action (Some animation) w)))) w').
    { refine (respects_for_each grows _ _ _ (writeFrame armature transform) _ _ _ _ E).
      - intros u. exists []. now rewrite app_nil_r.
      - intros a b c [e1 E1] [e2 E2]. exists (e1 ++ e2).
        now rewrite E2, E1, app_assoc.
      - intros frame. apply respects_writeFrame.
        + intros u. exists []. now rewrite app_nil_r.
        + intros a b c [e1 E1] [e2 E2]. exists (e1 ++ e2).
          now rewrite E2, E1, app_assoc.
        + intros i u. now exists [i].
        + intros f u. exists []. simpl. now rewrite app_nil_r. }
    destruct G as [rest G]. exists rest. split; [reflexivity|].
    rewrite G. simpl. repeat rewrite <- app_assoc. reflexivity.
  - intros Hbad.
    assert (Ea : forallb (fun c => (c <? 128)%N) name = false).
    { destruct (forallb _ name) eqn:E; [|reflexivity]. exfalso.
      rewrite forallb_forall in E. apply Exists_exists in Hbad as (c & Hc & Hge).
      specialize (E c Hc). apply N.ltb_lt in E. lia. }
    unfold writeAnimation. fold startFrame endFrame name.
    rewrite (bind_Ok _ _ _ _ _ (assign_action_run (Some animation) w Had)).
    unfold bind at 1. rewrite writeUint32_run, Hfc.
    unfold bind at 1. rewrite writeUint32_run, Elen.
    unfold bind at 1. rewrite writeString_run, Ea.
    eexists. split; [reflexivity|].
    simpl. repeat rewrite <- app_assoc. reflexivity.
Qed.

End AnimationClaims.

(** ** The skeleton encoder *)

Section Skeleton.
Context {PN : PyNum} {MU : Mathutils} {BL : Blender}.
Local Open Scope exporter_scope.

Lemma str_eqb_eq (a b : str) : str_eqb a b = true <-> a = b.
Proof.
  unfold str_eqb. destruct (list_eq_dec N.eq_dec a b); split; congruence.
Qed.

(** With distinct names, [find] gives the position of a bone of the list;
    with no bone of that name it gives -1. *)
Lemma find_from_position (l : list Bone) :
  NoDup (map bone_name l) ->
  forall start j b, nth_error l j = Some b ->
  find_from start l (bone_name b) = start + Z.of_nat j.
Proof.
  induction l as [|b0 l IH]; intros ND start [|j] b; simpl; try discriminate.
  - intros [= <-]. rewrite (proj2 (str_eqb_eq _ _) eq_refl). lia.
  - intros Hb. inversion ND as [|? ? Hnot ND']; subst.
    destruct (str_eqb (bone_name b0) (bone_name b)) eqn:E.
    + apply str_eqb_eq in E. exfalso. apply Hnot. rewrite E.
      apply in_map. eapply nth_error_In; eauto.
    + rewrite (IH ND' (start + 1) j b Hb). lia.
Qed.

Lemma find_from_missing (l : list Bone) (key : str) :
  ~ In key (map bone_name l) -> forall start, find_from start l key = -1.
Proof.
  induction l as [|b0 l IH]; intros Hk start; simpl; [reflexivity|].
  destruct (str_eqb (bone_name b0) key) eqn:E.
  - apply str_eqb_eq in E. exfalso. apply Hk. now left.
  - apply IH. intros H. apply Hk. now right.
Qed.

Lemma rows_loop (ll : list (list num)) :
  forall w,
    for_each ll (fun vector => for_each vector (fun float => writeFloat float)) w
    = (Ok tt, emit (map F32 (concat ll)) w).
Proof.
  induction ll as [|l ll IH]; intros w; simpl.
  - now rewrite emit_nil.
  - rewrite (bind_Ok _ _ _ _ _ (for_each_write F32 l w)), IH, emit_emit.
    now rewrite map_app.
Qed.

Lemma writeJoint_Ok_inv (armature : Armature) (transform : Matrix) (bone : Bone)
      (w w' : World) :
  writeJoint armature transform bone w = (Ok tt, w') ->
  exists inverse,
    inverted (matmul transform (bone_matrix_local bone)) = Some inverse
    /\ w' = emit (joint_record (parentIndex armature bone) inverse) w.
Proof.
  unfold writeJoint. intros H.
  apply bind_Ok_inv in H as ([] & w1 & H1 & H). rewrite writeUint8_run in H1.
  destruct (in_range (parentIndex armature bone) 255); [|discriminate].
  injection H1 as <-.
  apply bind_Ok_inv in H as (inverse & w2 & H2 & H). unfold invert in H2.
  destruct (inverted _) as [i|] eqn:E; [|discriminate].
  injection H2 as <- <-.
  rewrite rows_loop in H. injection H as <-.
  exists i. split; [reflexivity|]. now rewrite emit_emit.
Qed.

Lemma writeJoints_Ok_inv (armature : Armature) (transform : Matrix) (bs : list Bone) :
  forall w w',
    for_each bs (writeJoint armature transform) w = (Ok tt, w') ->
    exists records,
      Forall2 (fun bone record =>
                 exists inverse,
                   inverted (matmul transform (bone_matrix_local bone)) = Some inverse
                   /\ record = joint_record (parentIndex armature bone) inverse)
              bs records
      /\ w' = emit (concat records) w.
Proof.
  induction bs as [|b bs IH]; intros w w'; simpl.
  - intros [= <-]. exists []. split; [constructor|]. simpl. now rewrite emit_nil.
  - intros H. apply bind_Ok_inv in H as ([] & w1 & H1 & H2).
    apply writeJoint_Ok_inv in H1 as (inverse & Hinv & ->).
    apply IH in H2 as (records & Hrec & ->).
    exists (joint_record (parentIndex armature b) inverse :: records). split.
    + constructor; [now exists inverse | exact Hrec].
    + simpl concat. now rewrite emit_emit.
Qed.

Lemma length_concat_4x4 (ll : list (list num)) :
  map (@length num) ll = [4; 4; 4; 4]%nat -> length (concat ll) = 16%nat.
Proof.
  destruct ll as [|r0 [|r1 [|r2 [|r3 [|r4 ll]]]]]; try discriminate.
  simpl. intros [= E0 E1 E2 E3]. rewrite !length_app, E0, E1, E2, E3. reflexivity.
Qed.

(** C8.  In an armature with distinct bone names and 4x4 matrices, when
    [writeJoints] returns the file has grown by one record per bone, in the
    order of the armature's bones (the order [writeAnimation] visits them
    in); the record of a bone is its parent index, 0 for a bone with no
    parent and otherwise the position of the parent in the bone list, and
    then the 16 entries of the inverse of [transform @ matrix_local], row
    after row. *)
Theorem joint_records (armature : Armature) (transform : Matrix) (w w' : World) :
  NoDup (map bone_name (bones armature)) ->
  (forall m, map (@length num) (rows m) = [4; 4; 4; 4]%nat) ->
  writeJoints armature transform w = (Ok tt, w') ->
  exists records : list (list Item),
    file w' = file w ++ concat records
    /\ length records = length (bones armature)
    /\ forall i bone,
         nth_error (bones armature) i = Some bone ->
         exists index inverse,
           nth_error records i = Some (U8 index :: map F32 (concat (rows inverse)))
           /\ inverted (matmul transform (bone_matrix_local bone)) = Some inverse
           /\ length (concat (rows inverse)) = 16%nat
           /\ match bone_parent bone with
              | None => index = 0
              | Some parent =>
                  forall j, nth_error (bones armature) j = Some parent ->
                            index = Z.of_nat j
              end.
Proof.
  intros Hnames H4 H.
  apply writeJoints_Ok_inv in H as (records & Hrec & ->).
  exists records. split; [reflexivity|]. split.
  - symmetry. exact (Forall2_length Hrec).
  - intros i bone Hbone.
    destruct (Forall2_nth_error_l _ _ _ Hrec _ _ Hbone)
      as (record & Hi & inverse & Hinv & ->).
    exists (parentIndex armature bone), inverse.
    split; [exact Hi|]. split; [exact Hinv|]. split.
    + apply length_concat_4x4, H4.
    + unfold parentIndex. destruct (bone_parent bone) as [parent|]; [|reflexivity].
      intros j Hj. unfold find.
      now rewrite (find_from_position _ Hnames 0 j parent Hj).
Qed.

End Skeleton.

(** ** Session state across the skeleton export *)

Section SessionState.
Context {PN : PyNum} {MU : Mathutils} {BL : Blender}.
Local Open Scope exporter_scope.

Variable actions : list Action.

Lemma sampling_refl (w : World) : sampling actions w w.
Proof. unfold sampling. auto. Qed.

Lemma sampling_trans (a b c : World) :
  sampling actions a b -> sampling actions b c -> sampling actions a c.
Proof.
  unfold sampling. intros (P1 & D1 & A1 & F1) (P2 & D2 & A2 & F2).
  split; [congruence|]. split; [congruence|]. split.
  - destruct A2 as [E|H]; [rewrite E; exact A1 | now right].
  - destruct F2 as [E|H]; [rewrite E; exact F1 | now right].
Qed.

Lemma sampling_write (i : Item) (w : World) :
  sampling actions w (set_file (file w ++ [i]) w).
Proof. unfold sampling. simpl. auto. Qed.

Ltac sampling_side :=
  first [ exact sampling_refl | exact sampling_trans | exact sampling_write ].

Lemma sampling_open : respects (sampling actions) open.
Proof.
  intros w r w'. unfold open.
  destruct (writable w); intros [= _ <-]; unfold sampling; simpl; auto.
Qed.

Lemma sampling_writeUint8 (value : Z) : respects (sampling actions) (writeUint8 value).
Proof. apply respects_writeUint8; sampling_side. Qed.

Lemma sampling_writeUint32 (value : Z) : respects (sampling actions) (writeUint32 value).
Proof. apply respects_writeUint32; sampling_side. Qed.

Lemma sampling_writeJoints (armature : Armature) (transform : Matrix) :
  respects (sampling actions) (writeJoints armature transform).
Proof. apply respects_writeJoints; sampling_side. Qed.

(** One frame of an action that is being exported. *)
Lemma sampling_writeFrame (armature : Armature) (transform : Matrix) (animation : Action)
      (frame : Z) :
  In animation actions ->
  frame_start animation <= frame <= frame_end animation ->
  respects (sampling actions) (writeFrame armature transform frame).
Proof.
  intros Hin Hframe. unfold writeFrame.
  apply respects_bind; [exact sampling_trans | |].
  - intros w r w' [= _ <-]. unfold sampling. simpl.
    split; [reflexivity|]. split; [reflexivity|]. split; [now left|].
    right. now exists animation.
  - intros _. apply respects_for_each; try sampling_side. intros bone.
    unfold writeBonePose. apply respects_bind; [exact sampling_trans | |].
    + apply respects_parentSpacePose. exact sampling_refl.
    + intros m. apply respects_writePose; sampling_side.
Qed.

Lemma sampling_writeAnimation (armature : Armature) (transform : Matrix)
      (animation : Action) :
  In animation actions ->
  respects (sampling actions) (writeAnimation armature animation transform).
Proof.
  intros Hin. unfold writeAnimation.
  apply respects_bind; [exact sampling_trans | |].
  - intros w r w'. unfold assign_action.
    destruct (animation_data w); intros [= _ <-]; [|apply sampling_refl].
    unfold sampling. simpl.
    split; [reflexivity|]. split; [reflexivity|]. split; [|now left].
    right. now exists animation.
  - intros _. apply respects_bind; [exact sampling_trans | apply sampling_writeUint32 |].
    intros _. apply respects_bind; [exact sampling_trans | apply sampling_writeUint32 |].
    intros _. apply respects_bind; [exact sampling_trans | |].
    + apply respects_writeString; sampling_side.
    + intros _. apply respects_for_each_In; try sampling_side.
      intros frame Hf. apply In_range in Hf.
      apply (sampling_writeFrame armature transform animation); [exact Hin|].
      unfold frame_start, frame_end. lia.
Qed.

Lemma sampling_animations (armature : Armature) (transform : Matrix) :
  respects (sampling actions)
           (for_each actions (fun animation => writeAnimation armature animation transform)).
Proof.
  apply respects_for_each_In; try sampling_side.
  intros animation Hin. now apply sampling_writeAnimation.
Qed.

(** One step down a chain of binds that ends in an exception: either the
    head raised, or it returned and the rest raised. *)
Ltac raise_step H Hacc L :=
  let H1 := fresh "H" in
  apply bind_Raise_inv in H as [H | ([] & ? & H1 & H)];
  [ apply L in H; exact (sampling_trans _ _ _ Hacc H)
  | apply L in H1; apply (sampling_trans _ _ _ Hacc) in H1; clear Hacc;
    rename H1 into Hacc ].

(** Lines 246-257 on an armature with animation data: where an exception
    leaves the session. *)
Lemma skeleton_export_raises (armature : Armature) (position : PosePosition)
      (animation : option Action) (frame : Z) (w w' : World) (e : exn) :
  animation_data w = true ->
  (open ;;
   writeUint8 (len (bones armature)) ;;
   writeJoints armature getAxisMappingMatrix ;;
   writeUint32 (len actions) ;;
   for_each actions (fun a => writeAnimation armature a getAxisMappingMatrix) ;;
   frame_set frame ;;
   assign_action animation ;;
   setArmaturePosition position) w = (Raise e, w') ->
  sampling actions w w'.
Proof.
  intros Had H. pose proof (sampling_refl w) as Hacc.
  raise_step H Hacc sampling_open.
  raise_step H Hacc (sampling_writeUint8 (len (bones armature))).
  raise_step H Hacc (sampling_writeJoints armature getAxisMappingMatrix).
  raise_step H Hacc (sampling_writeUint32 (len actions)).
  raise_step H Hacc (sampling_animations armature getAxisMappingMatrix).
  destruct Hacc as (_ & Hd & _). rewrite Had in Hd.
  unfold bind, frame_set, assign_action, setArmaturePosition in H. simpl in H.
  rewrite Hd in H. discriminate H.
Qed.

(** C3, as the code has it.  When the skeleton export returns normally the
    frame, the active action and the pose position are those of the entry.
    With no armature selected, and with an armature that has no animation
    data, it raises [AttributeError] before it touches anything.  When it
    raises later, no restoring code runs: the pose position is left at
    [POSE], whatever it was on entry; the active action is that of the
    entry or one of the exported actions, and the frame that of the entry
    or a frame of one of these actions. *)
Theorem skeleton_export_session_state (selected_objects : list SceneObject) (w : World) :
  let run := ExportSkeletonOperator_execute selected_objects actions w in
  (fst run = Ok tt ->
     frame_current (snd run) = frame_current w
     /\ action (snd run) = action w
     /\ pose_position (snd run) = pose_position w)
  /\ (getSelectedArmature selected_objects = None -> run = (Raise AttributeError, w))
  /\ (getSelectedArmature selected_objects <> None -> animation_data w = false ->
        run = (Raise AttributeError, w))
  /\ (forall e, getSelectedArmature selected_objects <> None ->
                animation_data w = true ->
                fst run = Raise e ->
                pose_position (snd run) = POSE
                /\ (action (snd run) = action w
                    \/ exists a, In a actions /\ action (snd run) = Some a)
                /\ (frame_current (snd run) = frame_current w
                    \/ exists a, In a actions
                                 /\ frame_start a <= frame_current (snd run) <= frame_end a)).
Proof.
  intros run. subst run. unfold ExportSkeletonOperator_execute.
  destruct (getSelectedArmature selected_objects) as [armature|].
  - split; [|split; [discriminate|split]].
    + destruct (bind _ _ w) as [r w'] eqn:H. simpl. intros ->.
      apply bind_Ok_inv in H as (w0 & w1 & H0 & H). injection H0 as <- <-.
      apply bind_Ok_inv in H as (original & w1 & H1 & H).
      unfold get_action in H1. destruct (animation_data w); [|discriminate].
      injection H1 as <- <-.
      do 6 (apply bind_Ok_inv in H as ([] & ? & _ & H)).
      unfold setArmaturePosition, bind, get, frame_set, assign_action in H. simpl in H.
      destruct (animation_data _); [|discriminate].
      injection H as <-. simpl. auto.
    + intros _ Had. unfold bind, get, get_action. now rewrite Had.
    + intros e _ Had.
      destruct (bind _ _ w) as [r w'] eqn:H. simpl. intros ->.
      apply bind_Raise_inv in H as [H | (w0 & w1 & H0 & H)]; [discriminate|].
      injection H0 as <- <-.
      apply bind_Raise_inv in H as [H | (original & w1 & H1 & H)].
      { unfold get_action in H. rewrite Had in H. discriminate. }
      unfold get_action in H1. rewrite Had in H1. injection H1 as <- <-.
      apply bind_Raise_inv in H as [H | ([] & w1 & H1 & H)]; [discriminate|].
      injection H1 as <-.
      apply skeleton_export_raises in H; [|exact Had].
      destruct H as (Hp & _ & Ha & Hf). simpl in Hp, Ha, Hf. auto.
  - split; [discriminate|]. split; [reflexivity|]. split; [contradiction|].
    intros e H. contradiction.
Qed.

End SessionState.

(** ** Capacity of the count fields *)

Section Capacity.
Context {PN : PyNum} {MU : Mathutils} {BL : Blender}.
Local Open Scope exporter_scope.

(** Lines 223-228 in a world whose destination can be opened. *)
Lemma mesh_file_run (b : bool) (vertices : list Vertex) (faces : list Face) (w : World) :
  writable w = true ->
  (open ;;
   writeBool b ;;
   writeUint16 (len faces) ;;
   writeUint16 (len vertices) ;;
   writeFaces faces ;;
   writeVertices vertices b) w
  = if in_range (len faces) 65535 then
      if in_range (len vertices) 65535 then
        (writeFaces faces ;; writeVertices vertices b)
          (emit [Bool8 b; U16 (len faces); U16 (len vertices)] (set_file [] w))
      else (Raise StructError, emit [Bool8 b; U16 (len faces)] (set_file [] w))
    else (Raise StructError, emit [Bool8 b] (set_file [] w)).
Proof.
  intros Hw.
  assert (Eo : open w = (Ok tt, set_file [] w)) by (unfold open; now rewrite Hw).
  rewrite (bind_Ok _ _ _ _ _ Eo).
  rewrite (bind_Ok _ _ _ _ _ (writeBool_emit b _)).
  destruct (in_range (len faces) 65535) eqn:Ef.
  - assert (E1 : writeUint16 (len faces) (emit [Bool8 b] (set_file [] w))
                 = (Ok tt, emit [Bool8 b; U16 (len faces)] (set_file [] w))).
    { rewrite writeUint16_run, Ef, emit_emit. reflexivity. }
    rewrite (bind_Ok _ _ _ _ _ E1).
    destruct (in_range (len vertices) 65535) eqn:Ev.
    + assert (E2 : writeUint16 (len vertices)
                               (emit [Bool8 b; U16 (len faces)] (set_file [] w))
                   = (Ok tt, emit [Bool8 b; U16 (len faces); U16 (len vertices)]
                                  (set_file [] w))).
      { rewrite writeUint16_run, Ev, emit_emit. reflexivity. }
      now rewrite (bind_Ok _ _ _ _ _ E2).
    + apply bind_Raise. now rewrite writeUint16_run, Ev.
  - apply bind_Raise. now rewrite writeUint16_run, Ef.
Qed.

Lemma in_range_above (value bound : Z) : bound < value -> in_range value bound = false.
Proof.
  intros H. destruct (in_range value bound) eqn:E; [|reflexivity].
  apply in_range_spec in E. lia.
Qed.

Lemma in_range_len {A : Type} (l : list A) (bound : Z) :
  len l <= bound -> in_range (len l) bound = true.
Proof. intros H. apply in_range_spec. unfold len in *. lia. Qed.

(** The mesh export when the baking has returned [vertices] and [faces]:
    a count that does not fit its field raises with the fields before it
    already written. *)
Lemma mesh_export_capacity (selected_objects : list SceneObject) (w : World)
      (vertices : list Vertex) (faces : list Face) :
  writable w = true ->
  let armature := getSelectedArmature selected_objects in
  let objects := getSelectedMeshObjects selected_objects in
  objects <> [] ->
  getDataFromMeshObjects (if truthy armature then REST else pose_position w)
                         objects armature getAxisMappingMatrix
  = Ok (vertices, faces) ->
  (65535 < len faces ->
     exists w', ExportMeshOperator_execute selected_objects w = (Raise StructError, w')
                /\ file w' = [Bool8 (truthy armature)]
                /\ file_size (file w') = 1)
  /\ (len faces <= 65535 -> 65535 < len vertices ->
        exists w', ExportMeshOperator_execute selected_objects w
                   = (Raise StructError, w')
                   /\ file w' = [Bool8 (truthy armature); U16 (len faces)]
                   /\ file_size (file w') = 3).
Proof.
  intros Hw armature objects Hobj Hbake.
  assert (Hlen : (0 <? len objects) = true).
  { apply Z.ltb_lt. unfold len. destruct objects; [contradiction | simpl; lia]. }
  unfold ExportMeshOperator_execute. fold armature objects. rewrite Hlen.
  set (w1 := if truthy armature
             then set_frame_current (frame_current w) (set_pose_position REST w)
             else w).
  assert (Hw1 : writable w1 = true) by (unfold w1; destruct (truthy armature); exact Hw).
  assert (Hp1 : pose_position w1 = if truthy armature then REST else pose_position w)
    by (unfold w1; destruct (truthy armature); reflexivity).
  assert (E0 : (if truthy armature
                then (w0 <- get ;; setArmaturePosition REST ;; ret (pose_position w0))
                else ret REST) w
               = (Ok (if truthy armature then pose_position w else REST), w1)).
  { unfold w1. destruct (truthy armature); reflexivity. }
  rewrite (bind_Ok _ _ _ _ _ E0).
  assert (Eg : get w1 = (Ok w1, w1)) by reflexivity.
  assert (El : lift (getDataFromMeshObjects (pose_position w1) objects armature
                                            getAxisMappingMatrix) w1
               = (Ok (vertices, faces), w1)).
  { unfold lift. now rewrite Hp1, Hbake. }
  split.
  - intros Hf. eexists. split; [|split].
    + apply bind_Raise. rewrite (bind_Ok _ _ _ _ _ Eg), (bind_Ok _ _ _ _ _ El).
      simpl fst. simpl snd.
      rewrite (mesh_file_run _ _ _ _ Hw1), (in_range_above _ _ Hf). reflexivity.
    + reflexivity.
    + reflexivity.
  - intros Hf Hv. eexists. split; [|split].
    + apply bind_Raise. rewrite (bind_Ok _ _ _ _ _ Eg), (bind_Ok _ _ _ _ _ El).
      simpl fst. simpl snd.
      rewrite (mesh_file_run _ _ _ _ Hw1), (in_range_len _ _ Hf),
        (in_range_above _ _ Hv).
      reflexivity.
    + reflexivity.
    + reflexivity.
Qed.

(** The skeleton export of an armature with more than 255 bones, and with
    animation data. *)
Lemma skeleton_export_capacity (selected_objects : list SceneObject)
      (actions : list Action) (a : Armature) (w : World) :
  writable w = true ->
  getSelectedArmature selected_objects = Some a ->
  animation_data w = true ->
  255 < len (bones a) ->
  exists w', ExportSkeletonOperator_execute selected_objects actions w
             = (Raise StructError, w')
             /\ file w' = []
             /\ file_size (file w') = 0.
Proof.
  intros Hw Ha Had Hb.
  unfold ExportSkeletonOperator_execute. rewrite Ha.
  assert (Eg : get w = (Ok w, w)) by reflexivity.
  rewrite (bind_Ok _ _ _ _ _ Eg).
  assert (Ea : get_action w = (Ok (action w), w)) by (unfold get_action; now rewrite Had).
  rewrite (bind_Ok _ _ _ _ _ Ea).
  set (w1 := set_frame_current (frame_current w) (set_pose_position POSE w)).
  assert (E1 : setArmaturePosition POSE w = (Ok tt, w1)) by reflexivity.
  rewrite (bind_Ok _ _ _ _ _ E1).
  assert (Eo : open w1 = (Ok tt, set_file [] w1)).
  { unfold open. simpl. now rewrite Hw. }
  rewrite (bind_Ok _ _ _ _ _ Eo).
  eexists. split; [|split].
  - apply bind_Raise. rewrite writeUint8_run, (in_range_above _ _ Hb). reflexivity.
  - reflexivity.
  - reflexivity.
Qed.

(** C6, as the code has it.  No count is checked before the file is
    opened; each is checked by [struct.pack] when its field is written.
    In the mesh export a face count above 65535 raises after the 1-byte
    flag is in the file, and a vertex count above 65535 (the face count
    fitting) after the flag and the face count, 3 bytes.  In the skeleton
    export of an armature with animation data the bone count is the first
    field: above 255 it raises with the file opened and still empty. *)
Theorem capacity_errors (selected_objects : list SceneObject) (w : World) :
  writable w = true ->
  let armature := getSelectedArmature selected_objects in
  let objects := getSelectedMeshObjects selected_objects in
  (forall vertices faces,
      objects <> [] ->
      getDataFromMeshObjects (if truthy armature then REST else pose_position w)
                             objects armature getAxisMappingMatrix
      = Ok (vertices, faces) ->
      (65535 < len faces ->
         exists w', ExportMeshOperator_execute selected_objects w = (Raise StructError, w')
                    /\ file w' = [Bool8 (truthy armature)]
                    /\ file_size (file w') = 1)
      /\ (len faces <= 65535 -> 65535 < len vertices ->
            exists w', ExportMeshOperator_execute selected_objects w
                       = (Raise StructError, w')
                       /\ file w' = [Bool8 (truthy armature); U16 (len faces)]
                       /\ file_size (file w') = 3))
  /\ (forall actions a,
        armature = Some a ->
        animation_data w = true ->
        255 < len (bones a) ->
        exists w', ExportSkeletonOperator_execute selected_objects actions w
                   = (Raise StructError, w')
                   /\ file w' = []
                   /\ file_size (file w') = 0).
Proof.
  intros Hw armature objects. split.
  - intros vertices faces. now apply mesh_export_capacity.
  - intros actions a. now apply skeleton_export_capacity.
Qed.

End Capacity.

(** ** Skin binding *)

Section SkinBinding.
Context {PN : PyNum} {MU : Mathutils} {BL : Blender}.
Local Open Scope exporter_scope.

Lemma setitem_Ok {A : Type} (l : list A) :
  forall i v, (i < length l)%nat ->
  exists l',
    setitem l i v = Ok l'
    /\ length l' = length l
    /\ nth_error l' i = Some v
    /\ forall j, j <> i -> nth_error l' j = nth_error l j.
Proof.
  induction l as [|h t IH]; intros [|i] v Hi; simpl in *; try lia.
  - exists (v :: t). repeat split. intros [|j] Hj; [contradiction | reflexivity].
  - destruct (IH i v ltac:(lia)) as (t' & E & Hl & Hn & Ho). rewrite E. simpl.
    exists (h :: t'). split; [reflexivity|]. split; [simpl; now rewrite Hl|].
    split; [exact Hn|]. intros [|j] Hj; simpl; [reflexivity|]. apply Ho. lia.
Qed.

(** Lines 116-121 on 4-slot lists, every group among the first four naming
    an existing vertex group: the loop does not raise, slot [i + k] holds
    what [find] gives for the [k]-th group's name and that group's weight,
    and the slots below [i] are left alone. *)
Lemma bindJoints_spec (armature : Armature) (object : Object)
      (gs : list VertexGroupElement) :
  forall i ji jw,
    length ji = 4%nat -> length jw = 4%nat ->
    (forall k g, nth_error gs k = Some g -> (i + k < 4)%nat ->
                 (group g < length (vertex_groups object))%nat) ->
    exists ji' jw',
      bindJoints armature object i gs ji jw = Ok (ji', jw')
      /\ length ji' = 4%nat /\ length jw' = 4%nat
      /\ (forall j, (j < i)%nat ->
            nth_error ji' j = nth_error ji j /\ nth_error jw' j = nth_error jw j)
      /\ (forall k g, nth_error gs k = Some g -> (i + k < 4)%nat ->
            exists name,
              nth_error (vertex_groups object) (group g) = Some name
              /\ nth_error ji' (i + k) = Some (find (bones armature) name)
              /\ nth_error jw' (i + k) = Some (weight g)).
Proof.
  induction gs as [|g0 gs IH]; intros i ji jw Hji Hjw Hvalid; simpl.
  - exists ji, jw. repeat split; auto. intros [|k] g; discriminate.
  - destruct (i <? 4)%nat eqn:Hi.
    + apply Nat.ltb_lt in Hi.
      assert (Hg0 : (group g0 < length (vertex_groups object))%nat).
      { apply (Hvalid 0%nat g0); [reflexivity | lia]. }
      unfold getitem.
      destruct (nth_error (vertex_groups object) (group g0)) as [name0|] eqn:En;
        [|apply nth_error_None in En; lia].
      simpl.
      destruct (setitem_Ok ji i (find (bones armature) name0) ltac:(lia))
        as (ji1 & E1 & L1 & N1 & O1).
      destruct (setitem_Ok jw i (weight g0) ltac:(lia)) as (jw1 & E2 & L2 & N2 & O2).
      rewrite E1. simpl. rewrite E2. simpl.
      destruct (IH (S i) ji1 jw1 ltac:(lia) ltac:(lia)) as (ji' & jw' & E & Li & Lw & Hlow & Hnew).
      { intros k g Hk Hlt. apply (Hvalid (S k) g); [exact Hk | lia]. }
      exists ji', jw'. split; [exact E|]. split; [exact Li|]. split; [exact Lw|]. split.
      * intros j Hj. destruct (Hlow j ltac:(lia)) as [A B].
        rewrite A, B, O1, O2 by lia. auto.
      * intros [|k] g Hk Hlt; simpl in Hk.
        -- injection Hk as <-. exists name0. split; [exact En|].
           rewrite Nat.add_0_r. destruct (Hlow i ltac:(lia)) as [A B].
           now rewrite A, B, N1, N2.
        -- destruct (Hnew k g Hk ltac:(lia)) as (name & Hn & A & B).
           exists name. replace (i + S k)%nat with (S i + k)%nat by lia. auto.
    + apply Nat.ltb_ge in Hi.
      destruct (IH (S i) ji jw Hji Hjw) as (ji' & jw' & E & Li & Lw & Hlow & Hnew).
      { intros k g Hk Hlt. lia. }
      exists ji', jw'. split; [exact E|]. split; [exact Li|]. split; [exact Lw|]. split.
      * intros j Hj. apply Hlow. lia.
      * intros k g Hk Hlt. lia.
Qed.

(** Four weights are normalised without an exception. *)
Lemma normalizeJointWeights_total (raw : list num) :
  length raw = 4%nat ->
  exists normalized, normalizeJointWeights raw = Ok normalized /\ length normalized = 4%nat.
Proof.
  intros Hlen.
  destruct raw as [|w0 [|w1 [|w2 [|w3 [|w4 raw]]]]]; try discriminate.
  rewrite normalizeJointWeights_four. cbv zeta.
  eexists. split; [reflexivity|]. now destruct (num_eqb _ _).
Qed.

(** Line 75: the loop over the four joint indices raises [struct.error]
    as soon as one of the indices it visits does not fit a byte. *)
Lemma joint_index_loop_raises (indices : list Z) (positions : list nat) :
  forall w,
    (forall p, In p positions -> (p < length indices)%nat) ->
    (exists p index, In p positions /\ nth_error indices p = Some index
                     /\ in_range index 255 = false) ->
    exists w',
      for_each positions (fun i =>
        index <- lift (getitem indices i) ;; writeUint8 index) w
      = (Raise StructError, w').
Proof.
  induction positions as [|p0 ps IH]; intros w Hvalid (p & index & Hin & Hp & Hbad).
  - contradiction.
  - simpl.
    destruct (nth_error indices p0) as [v0|] eqn:E0;
      [|apply nth_error_None in E0; specialize (Hvalid p0 (or_introl eq_refl)); lia].
    assert (Eb : forall u, (index <- lift (getitem indices p0) ;; writeUint8 index) u
                           = writeUint8 v0 u).
    { intros u. unfold bind, lift, getitem. now rewrite E0. }
    destruct (in_range v0 255) eqn:Ev.
    + assert (E1 : (index <- lift (getitem indices p0) ;; writeUint8 index) w
                   = (Ok tt, emit [U8 v0] w)).
      { now rewrite Eb, writeUint8_run, Ev. }
      rewrite (bind_Ok _ _ _ _ _ E1). apply IH.
      * intros q Hq. apply Hvalid. now right.
      * destruct Hin as [<-|Hin]; [congruence|]. now exists p, index.
    + exists w. apply bind_Raise. now rewrite Eb, writeUint8_run, Ev.
Qed.

Lemma writeVertex_raises (v : Vertex) (k : nat) (index : Z) :
  length (jointIndices v) = 4%nat ->
  nth_error (jointIndices v) k = Some index ->
  in_range index 255 = false ->
  forall w, exists w', writeVertex v true w = (Raise StructError, w').
Proof.
  intros Hlen Hk Hbad w. unfold writeVertex.
  do 8 (erewrite bind_Ok by apply writeFloat_emit).
  match goal with
  | |- exists w', bind ?loop _ ?w0 = _ =>
      destruct (joint_index_loop_raises (jointIndices v) (seq 0 4) w0) as [w' E]
  end.
  - intros p Hp. apply in_seq in Hp. lia.
  - exists k, index. split; [|now split].
    apply in_seq. assert (k < 4)%nat; [|lia].
    rewrite <- Hlen. apply nth_error_Some. congruence.
  - exists w'. now apply bind_Raise.
Qed.

(** C5, as the code has it.  Take a face corner one of whose first four
    groups names a vertex group that no bone is named after, all of these
    groups naming existing vertex groups.  Baking the corner does not
    raise; the vertex holds -1, the not-found result of [find], as the joint
    index of that binding, and its weights are the normalised raw weights,
    the raw weight of that binding being the group's own weight.  Writing
    the vertex with joint bindings raises [struct.error], so the
    serialisation of any list holding it ends in an exception. *)
Theorem unmatched_vertex_group (armature : Armature) (object : Object) (loop : Loop)
        (k : nat) (g : VertexGroupElement) (name : str) :
  (forall j g', nth_error (groups loop) j = Some g' -> (j < 4)%nat ->
                (group g' < length (vertex_groups object))%nat) ->
  nth_error (groups loop) k = Some g ->
  (k < 4)%nat ->
  nth_error (vertex_groups object) (group g) = Some name ->
  ~ In name (map bone_name (bones armature)) ->
  exists v raw,
    makeVertex (Some armature) object loop = Ok v
    /\ nth_error (jointIndices v) k = Some (-1)
    /\ nth_error raw k = Some (weight g)
    /\ normalizeJointWeights raw = Ok (jointWeights v)
    /\ (forall w, exists w', writeVertex v true w = (Raise StructError, w'))
    /\ (forall vertices w, In v vertices ->
          exists e w', writeVertices vertices true w = (Raise e, w')).
Proof.
  intros Hvalid Hk Hlt Hname Hmissing.
  destruct (bindJoints_spec armature object (groups loop) 0
              [0; 0; 0; 0] [num_of_Z 0; num_of_Z 0; num_of_Z 0; num_of_Z 0]
              eq_refl eq_refl)
    as (ji & jw & E & Li & Lw & _ & Hnew).
  { intros j g' Hj Hj4. apply (Hvalid j g' Hj). lia. }
  destruct (Hnew k g Hk ltac:(lia)) as (name' & Hn' & Hi & Hw).
  assert (name' = name) by congruence. subst name'.
  simpl in Hi, Hw.
  unfold find in Hi. rewrite (find_from_missing _ _ Hmissing) in Hi.
  destruct (normalizeJointWeights_total jw Lw) as (normalized & En & Ln).
  assert (Ev : makeVertex (Some armature) object loop
               = Ok (mkVertex (undeformed_co loop)
                              (mkVec2 (vx (loop_uv loop))
                                      (num_sub (num_of_Z 1) (vy (loop_uv loop))))
                              (loop_normal loop) ji normalized)).
  { unfold makeVertex. rewrite E. simpl. rewrite En. reflexivity. }
  eexists. exists jw. split; [exact Ev|]. simpl.
  assert (Hraise : forall w, exists w',
            writeVertex (mkVertex (undeformed_co loop)
                                  (mkVec2 (vx (loop_uv loop))
                                          (num_sub (num_of_Z 1) (vy (loop_uv loop))))
                                  (loop_normal loop) ji normalized) true w
            = (Raise StructError, w')).
  { apply (writeVertex_raises _ k (-1)); [exact Li | exact Hi | reflexivity]. }
  split; [exact Hi|]. split; [exact Hw|]. split; [exact En|]. split; [exact Hraise|].
  intros vertices. induction vertices as [|u vertices IH]; intros w Hin; [contradiction|].
  unfold writeVertices. simpl.
  destruct (writeVertex u true w) as [[[]|e] w1] eqn:Eu.
  - rewrite (bind_Ok _ _ _ _ _ Eu).
    destruct Hin as [->|Hin].
    + destruct (Hraise w) as [w' Ew]. congruence.
    + apply IH. exact Hin.
  - exists e, w1. now apply bind_Raise.
Qed.

End SkinBinding.

(** ** Baking the same polygon again *)

Section Rebaking.
Context {PN : PyNum} {MU : Mathutils}.

(** A triangle all of whose corners are already in the dict leaves the dict
    as it is; baking it [n] times gives [n] equal faces. *)
Lemma bakePolygons_repeat (armature : option Armature) (object : Object)
      (polygon : Polygon) (vertices : VertexDict) (indices : list Z) :
  length polygon = 3%nat ->
  bakeLoops armature object polygon vertices = Ok (vertices, indices) ->
  forall n,
    bakePolygons armature object (repeat polygon n) vertices
    = Ok (vertices, repeat (mkFace indices) n).
Proof.
  intros H3 Hbake. induction n as [|n IH]; simpl; [reflexivity|].
  rewrite H3. simpl. rewrite Hbake. simpl. rewrite IH. reflexivity.
Qed.

End Rebaking.

(** * The theorems at work on the sample scene *)

Section Instances.
Import IEEE Translations Sample.

(** C1 as stated fails: [vNear] is a vertex not seen before, the second of
    two different vertices, and it gets the index of the first one; the
    dict ends with one key. *)
Lemma near_vertices_share_an_index :
  ~ In vNear [vOne]
  /\ NoDup [vOne; vNear]
  /\ internAll [] [vOne; vNear] = Ok ([(vOne, 0)], [0; 0]).
Proof.
  assert (Hne : vOne <> vNear).
  { intros H. apply (f_equal (fun v => y (position v))) in H.
    vm_compute in H. discriminate H. }
  split; [|split].
  - intros [H|[]]. exact (Hne H).
  - constructor; [intros [H|[]]; exact (Hne (eq_sym H))|].
    constructor; [intros []|constructor].
  - reflexivity.
Qed.

Lemma intern_first_seen_order_witness :
  first_match [vOne] vNear 0
  /\ internAll [] ([vOne] ++ [vNear]) = Ok ([(vOne, 0)], [0] ++ [Z.of_nat 0]).
Proof.
  assert (Hfirst : first_match [vOne] vNear 0).
  { split.
    - exists vOne. split; [reflexivity | vm_compute; reflexivity].
    - intros j key Hj. lia. }
  split; [exact Hfirst|].
  destruct (proj1 (proj2 (intern_first_seen_order (PN := Binary64))) [vOne] vNear)
    as (d & idx & R & _ & _ & Hold).
  assert (E : Ok (d, idx) = Ok ([(vOne, 0)], [0])) by (rewrite <- R; reflexivity).
  injection E as -> ->.
  exact (Hold 0%nat Hfirst).
Defined.



(** C4 as stated fails: [uv] is compared by [__eq__] and ignored by
    [__hash__]. *)
Lemma hash_fields_are_not_eq_fields :
  ~ (forall f : Field, @hash_covers Binary64 f <-> @eq_covers Binary64 f).
Proof.
  intros H. destruct (proj2 (H field_uv)) as (a & b & Hag & Hh).
  - exists vA, vC. split.
    + intros g Hg. destruct g; (reflexivity || congruence).
    + vm_compute. reflexivity.
  - apply Hh. unfold Vertex_hash. now rewrite (Hag field_position) by discriminate.
Qed.

Lemma Vertex_hash_covers_position_only_witness :
  @eq_covers Binary64 field_uv
  /\ Vertex_eq vOne vAside = true
  /\ Vertex_hash vOne = 1
  /\ Vertex_hash vAside = 274877906945.
Proof.
  destruct Vertex_hash_covers_position_only as (_ & _ & Hcov & _).
  split; [exact (Hcov field_uv)|].
  split; [vm_compute; reflexivity|]. split; vm_compute; reflexivity.
Defined.

(** C3 as stated fails: an action whose name is not ASCII makes the export
    raise, and the pose position and the active action are not those of the
    entry. *)
Lemma skeleton_export_failure_leaves_session_changed :
  let run := ExportSkeletonOperator_execute [ARMATURE rig] [Cafe] session in
  fst run = Raise UnicodeEncodeError
  /\ pose_position session = REST
  /\ pose_position (snd run) = POSE
  /\ action session = None
  /\ action (snd run) = Some Cafe.
Proof.
  intros run.
  split; [vm_compute; reflexivity|]. split; [reflexivity|].
  split; [vm_compute; reflexivity|]. split; reflexivity.
Qed.

Lemma skeleton_export_session_state_witness :
  let run := ExportSkeletonOperator_execute [ARMATURE rig] [Walk] session in
  fst run = Ok tt
  /\ frame_current (snd run) = frame_current session
  /\ action (snd run) = action session
  /\ pose_position (snd run) = pose_position session
  /\ ExportSkeletonOperator_execute [ARMATURE rig] [Walk] still = (Raise AttributeError, still).
Proof.
  intros run.
  assert (E : fst run = Ok tt) by (vm_compute; reflexivity).
  split; [exact E|].
  pose proof (skeleton_export_session_state [Walk] [ARMATURE rig] session) as H.
  cbv zeta in H. destruct H as [H _].
  pose proof (skeleton_export_session_state [Walk] [ARMATURE rig] still) as H'.
  cbv zeta in H'. destruct H' as (_ & _ & H' & _).
  destruct (H E) as (A & B & C).
  split; [exact A|]. split; [exact B|]. split; [exact C|].
  apply H'; [discriminate | reflexivity].
Defined.

(** C5 as stated fails: the binding to the unmatched group gets joint index
    -1 and keeps a weight that is not zero, and the mesh export raises. *)
Lemma unmatched_vertex_group_breaks_export :
  match makeVertex (Some rig) skinned loose with
  | Ok v =>
      match nth_error (jointIndices v) 0, nth_error (jointWeights v) 0 with
      | Some index, Some weight => (index =? -1) && negb (num_eqb weight (q 0))
      | _, _ => false
      end
  | Raise _ => false
  end = true
  /\ fst (ExportMeshOperator_execute [ARMATURE rig; MESH skinned] session)
     = Raise StructError.
Proof.
  split; vm_compute; reflexivity.
Qed.

Lemma unmatched_vertex_group_witness :
  nth_error (groups loose) 0 = Some binding
  /\ nth_error (vertex_groups skinned) 0 = Some [65; 114; 109]%N
  /\ ~ In [65; 114; 109]%N (map bone_name (bones rig))
  /\ exists v, makeVertex (Some rig) skinned loose = Ok v
              /\ nth_error (jointIndices v) 0 = Some (-1)
              /\ forall w, exists w', writeVertex v true w = (Raise StructError, w').
Proof.
  assert (Hmissing : ~ In [65; 114; 109]%N (map bone_name (bones rig))).
  { intros [H|[H|[]]]; discriminate H. }
  split; [reflexivity|]. split; [reflexivity|]. split; [exact Hmissing|].
  destruct (unmatched_vertex_group rig skinned loose 0 binding [65; 114; 109]%N)
    as (v & raw & Ev & Hi & _ & _ & Hraise & _).
  - intros [|j] g' Hj _; simpl in Hj; [|destruct j; discriminate].
    injection Hj as <-. simpl. lia.
  - reflexivity.
  - lia.
  - reflexivity.
  - exact Hmissing.
  - exists v. auto.
Defined.

(** Baking [n + 1] coincident triangles gives their three vertices and
    [n + 1] faces. *)
Lemma coincident_bake (n : nat) :
  getDataFromMeshObjects REST [coincident (S n)] None getAxisMappingMatrix
  = Ok (triangle_vertices, repeat (mkFace [0; 1; 2]) (S n)).
Proof.
  set (d3 := [(unbound (corner 0 0 []), 0); (unbound (corner 1 0 []), 1);
              (unbound (corner 0 1 []), 2)] : VertexDict).
  assert (E0 : bakeLoops None (coincident (S n)) triangle [] = Ok (d3, [0; 1; 2]))
    by reflexivity.
  assert (E1 : bakeLoops None (coincident (S n)) triangle d3 = Ok (d3, [0; 1; 2]))
    by reflexivity.
  unfold getDataFromMeshObjects, bakeObjects.
  change (evaluated (coincident (S n)) _ REST) with (triangle :: repeat triangle n).
  change (bakePolygons None (coincident (S n)) (triangle :: repeat triangle n) [])
    with (corners <- bakeLoops None (coincident (S n)) triangle [] ;;
          done <- bakePolygons None (coincident (S n)) (repeat triangle n) (fst corners) ;;
          Ok (fst done, mkFace (snd corners) :: snd done))%result.
  rewrite E0. simpl rbind at 1. simpl fst. simpl snd.
  rewrite (bakePolygons_repeat None (coincident (S n)) triangle d3 [0; 1; 2] eq_refl E1 n).
  simpl. rewrite app_nil_r. reflexivity.
Qed.

(** C6 as stated fails: with 65536 faces the mesh export raises when one
    byte is already in the file. *)
Lemma face_count_error_after_first_byte :
  exists vertices faces w',
    getDataFromMeshObjects REST [dense] None getAxisMappingMatrix = Ok (vertices, faces)
    /\ 65535 < len faces
    /\ ExportMeshOperator_execute [MESH dense] session = (Raise StructError, w')
    /\ file_size (file w') = 1.
Proof.
  assert (Hdense : dense = coincident (S (Z.to_nat 65535))).
  { unfold dense. replace (Z.to_nat 65536) with (S (Z.to_nat 65535)) by lia.
    reflexivity. }
  pose proof (coincident_bake (Z.to_nat 65535)) as Hbake. rewrite <- Hdense in Hbake.
  assert (Hlen : 65535 < len (repeat (mkFace [0; 1; 2]) (S (Z.to_nat 65535)))).
  { unfold len. rewrite repeat_length. lia. }
  destruct (mesh_export_capacity [MESH dense] session _ _ eq_refl ltac:(discriminate) Hbake)
    as [Hfaces _].
  destruct (Hfaces Hlen) as (w' & Hrun & _ & Hsize).
  exists triangle_vertices, (repeat (mkFace [0; 1; 2]) (S (Z.to_nat 65535))), w'.
  auto.
Qed.

Lemma capacity_errors_witness :
  writable session = true
  /\ getSelectedArmature [ARMATURE crowd] = Some crowd
  /\ animation_data session = true
  /\ 255 < len (bones crowd)
  /\ exists w', ExportSkeletonOperator_execute [ARMATURE crowd] [Walk] session
                = (Raise StructError, w')
                /\ file w' = []
                /\ file_size (file w') = 0.
Proof.
  assert (Hb : 255 < len (bones crowd)) by (vm_compute; reflexivity).
  split; [reflexivity|]. split; [reflexivity|]. split; [reflexivity|]. split; [exact Hb|].
  exact (proj2 (capacity_errors [ARMATURE crowd] session eq_refl) [Walk] crowd eq_refl
               eq_refl Hb).
Defined.

Lemma pose_records_are_parent_space_witness :
  exists w' poses,
    writeAnimation rig Walk getAxisMappingMatrix session = (Ok tt, w')
    /\ file w' = file session
                 ++ [U32 3; U32 4; Text (action_name Walk)]
                 ++ flat_map pose_record poses.
Proof.
  assert (E : fst (writeAnimation rig Walk getAxisMappingMatrix session) = Ok tt)
    by (vm_compute; reflexivity).
  destruct (writeAnimation rig Walk getAxisMappingMatrix session) as [r w'] eqn:Erun.
  simpl in E. subst r.
  destruct (pose_records_are_parent_space rig Walk getAxisMappingMatrix session w' Erun)
    as (poses & Hfile & _).
  exists w', poses. split; [reflexivity | exact Hfile].
Defined.

Lemma animation_frame_count_and_order_witness :
  exists (w' : World) (blocks : list (list Matrix)),
    writeAnimation rig Walk getAxisMappingMatrix session = (Ok tt, w')
    /\ length blocks = 3%nat
    /\ length (concat blocks) = (3 * 2)%nat.
Proof.
  assert (E : fst (writeAnimation rig Walk getAxisMappingMatrix session) = Ok tt)
    by (vm_compute; reflexivity).
  destruct (writeAnimation rig Walk getAxisMappingMatrix session) as [r w'] eqn:Erun.
  simpl in E. subst r.
  destruct (animation_frame_count_and_order rig Walk getAxisMappingMatrix session w' Erun)
    as (blocks & _ & _ & Hlen & Hall & _).
  exists w', blocks. split; [reflexivity|]. split; [exact Hlen | exact Hall].
Defined.

Lemma joint_records_witness :
  NoDup (map bone_name (bones rig))
  /\ exists w' records,
       writeJoints rig getAxisMappingMatrix session = (Ok tt, w')
       /\ file w' = file session ++ concat records
       /\ length records = 2%nat.
Proof.
  assert (Hnames : NoDup (map bone_name (bones rig))).
  { simpl. constructor; [intros [H|[]]; discriminate H|].
    constructor; [intros []|constructor]. }
  assert (E : fst (writeJoints rig getAxisMappingMatrix session) = Ok tt)
    by (vm_compute; reflexivity).
  split; [exact Hnames|].
  destruct (writeJoints rig getAxisMappingMatrix session) as [r w'] eqn:Erun.
  simpl in E. subst r.
  destruct (joint_records rig getAxisMappingMatrix session w' Hnames
                          (fun m => eq_refl) Erun)
    as (records & Hfile & Hlen & _).
  exists w', records. split; [reflexivity|]. split; [exact Hfile | exact Hlen].
Defined.

Lemma animation_name_written_witness :
  Exists (fun c => (128 <= c)%N) (action_name Cafe)
  /\ exists w',
       writeAnimation rig Cafe getAxisMappingMatrix session
       = (Raise UnicodeEncodeError, w')
       /\ file w' = file session ++ [U32 3; U32 4].
Proof.
  assert (Hbad : Exists (fun c => (128 <= c)%N) (action_name Cafe)).
  { simpl. do 3 apply Exists_cons_tl. apply Exists_cons_hd. discriminate. }
  split; [exact Hbad|].
  assert (Hfc : 0 <= num_int (vy (frame_range Cafe)) - num_int (vx (frame_range Cafe)) + 1
                <= 4294967295) by (vm_compute; split; discriminate).
  assert (Hlen : len (action_name Cafe) <= 4294967295) by (vm_compute; discriminate).
  exact (proj2 (proj2 (animation_name_written rig Cafe getAxisMappingMatrix session
                                              eq_refl Hfc Hlen)) Hbad).
Defined.

End Instances.

(** * Further properties of the exporter *)

(** ** The baked mesh data *)

Section BakedData.
Context {PN : PyNum} {MU : Mathutils}.

Lemma setitem_length {A : Type} (l : list A) :
  forall i v l', setitem l i v = Ok l' -> length l' = length l.
Proof.
  induction l as [|h t IH]; intros [|i] v l'; simpl; try discriminate.
  - intros [= <-]. reflexivity.
  - destruct (setitem t i v) as [t'|e] eqn:E; simpl; [|discriminate].
    intros [= <-]. simpl. f_equal. eapply IH; eauto.
Qed.

Lemma setitem_Raise {A : Type} (l : list A) :
  forall i v, (length l <= i)%nat -> setitem l i v = Raise IndexError.
Proof.
  induction l as [|h t IH]; intros [|i] v Hi; simpl in *; try reflexivity; try lia.
  rewrite IH by lia. reflexivity.
Qed.

Lemma normalizeJointWeights_loop_length (total : num) (weights : list num) :
  forall i result r,
    normalizeJointWeights_loop total i weights result = Ok r ->
    length r = length result.
Proof.
  induction weights as [|w weights IH]; intros i result r; simpl.
  - intros [= <-]. reflexivity.
  - destruct (truediv w total) as [q|e]; simpl; [|discriminate].
    destruct (setitem result i q) as [result'|e] eqn:E; simpl; [|discriminate].
    intros H. rewrite (IH _ _ _ H). eapply setitem_length; eauto.
Qed.

Lemma normalizeJointWeights_length (weights r : list num) :
  normalizeJointWeights weights = Ok r -> length r = 4%nat.
Proof.
  unfold normalizeJointWeights. destruct (negb _).
  - intros H. now rewrite (normalizeJointWeights_loop_length _ _ _ _ _ H).
  - intros [= <-]. reflexivity.
Qed.

Lemma bindJoints_length (armature : Armature) (object : Object)
      (gs : list VertexGroupElement) :
  forall i ji jw ji' jw',
    bindJoints armature object i gs ji jw = Ok (ji', jw') ->
    length ji' = length ji /\ length jw' = length jw.
Proof.
  induction gs as [|g gs IH]; intros i ji jw ji' jw'; simpl.
  - intros [= <- <-]. auto.
  - destruct (i <? 4)%nat; [|apply IH].
    destruct (getitem (vertex_groups object) (group g)) as [name|e]; simpl; [|discriminate].
    destruct (setitem ji i _) as [ji1|e] eqn:E1; simpl; [|discriminate].
    destruct (setitem jw i _) as [jw1|e] eqn:E2; simpl; [|discriminate].
    intros H. destruct (IH _ _ _ _ _ H) as [A B].
    rewrite A, B, (setitem_length _ _ _ _ E1), (setitem_length _ _ _ _ E2). auto.
Qed.

(** Every vertex that lines 107-123 make has four joint indices and four
    joint weights. *)
Lemma makeVertex_lengths (armature : option Armature) (object : Object) (loop : Loop)
      (v : Vertex) :
  makeVertex armature object loop = Ok v ->
  length (jointIndices v) = 4%nat /\ length (jointWeights v) = 4%nat.
Proof.
  unfold makeVertex.
  destruct armature as [a|].
  - destruct (bindJoints a object 0 (groups loop) _ _) as [[ji jw]|e] eqn:E; simpl;
      [|discriminate].
    destruct (normalizeJointWeights jw) as [r|e] eqn:En; simpl; [|discriminate].
    intros [= <-]. simpl. split.
    + now destruct (bindJoints_length _ _ _ _ _ _ _ _ E) as [-> _].
    + exact (normalizeJointWeights_length _ _ En).
  - simpl. destruct (normalizeJointWeights _) as [r|e] eqn:En; simpl; [|discriminate].
    intros [= <-]. simpl. split; [reflexivity|].
    exact (normalizeJointWeights_length _ _ En).
Qed.

Lemma loopVertices_lengths (armature : option Armature) (object : Object)
      (loops : list Loop) :
  forall vs, loopVertices armature object loops = Ok vs ->
             length vs = length loops
             /\ Forall (fun v => length (jointIndices v) = 4%nat
                                 /\ length (jointWeights v) = 4%nat) vs.
Proof.
  induction loops as [|loop loops IH]; intros vs; simpl.
  - intros [= <-]. split; [reflexivity | constructor].
  - destruct (makeVertex armature object loop) as [v|e] eqn:Ev; simpl; [|discriminate].
    destruct (loopVertices armature object loops) as [ws|e]; simpl; [|discriminate].
    intros [= <-]. destruct (IH ws eq_refl) as [Hl Hf]. split.
    + simpl. now rewrite Hl.
    + constructor; [exact (makeVertex_lengths _ _ _ _ Ev) | exact Hf].
Qed.

(** A run of the baking loops that returns has made all its vertices. *)
Lemma bakeLoops_stream (armature : option Armature) (object : Object)
      (loops : list Loop) :
  forall d r, bakeLoops armature object loops d = Ok r ->
              exists vs, loopVertices armature object loops = Ok vs.
Proof.
  induction loops as [|loop loops IH]; intros d r; simpl.
  - intros _. now exists [].
  - destruct (makeVertex armature object loop) as [v|e]; simpl; [|discriminate].
    destruct (intern d v) as [[d1 i]|e]; simpl; [|discriminate].
    destruct (bakeLoops armature object loops d1) as [r1|e] eqn:E; simpl; [|discriminate].
    intros _. destruct (IH _ _ E) as [vs ->]. simpl. eauto.
Qed.

Lemma bakePolygons_stream (armature : option Armature) (object : Object)
      (polygons : list Polygon) :
  forall d r, bakePolygons armature object polygons d = Ok r ->
              exists vs, polygonVertices armature object polygons = Ok vs.
Proof.
  induction polygons as [|polygon polygons IH]; intros d r; simpl.
  - intros _. now exists [].
  - destruct (length polygon =? 3)%nat; [|apply IH].
    destruct (bakeLoops armature object polygon d) as [r1|e] eqn:E1; simpl; [|discriminate].
    destruct (bakePolygons armature object polygons (fst r1)) as [r2|e] eqn:E2; simpl;
      [|discriminate].
    intros _.
    destruct (bakeLoops_stream _ _ _ _ _ E1) as [vs ->].
    destruct (IH _ _ E2) as [ws ->]. simpl. eauto.
Qed.

Lemma bakeObjects_stream (scene : PosePosition) (objects : list Object)
      (armature : option Armature) (transformMatrix : Matrix) :
  forall d r, bakeObjects scene objects armature transformMatrix d = Ok r ->
              exists vs, objectVertices scene objects armature transformMatrix = Ok vs.
Proof.
  induction objects as [|object objects IH]; intros d r; simpl.
  - intros _. now exists [].
  - destruct (bakePolygons armature object _ d) as [r1|e] eqn:E1; simpl; [|discriminate].
    destruct (bakeObjects scene objects armature transformMatrix (fst r1)) as [r2|e] eqn:E2;
      simpl; [|discriminate].
    intros _.
    destruct (bakePolygons_stream _ _ _ _ _ E1) as [vs ->].
    destruct (IH _ _ E2) as [ws ->]. simpl. eauto.
Qed.

Lemma polygonVertices_lengths (armature : option Armature) (object : Object)
      (polygons : list Polygon) :
  forall vs, polygonVertices armature object polygons = Ok vs ->
             Forall (fun v => length (jointIndices v) = 4%nat
                              /\ length (jointWeights v) = 4%nat) vs.
Proof.
  induction polygons as [|polygon polygons IH]; intros vs; simpl.
  - intros [= <-]. constructor.
  - destruct (length polygon =? 3)%nat; [|apply IH].
    destruct (loopVertices armature object polygon) as [cs|e] eqn:E; simpl; [|discriminate].
    destruct (polygonVertices armature object polygons) as [ws|e]; simpl; [|discriminate].
    intros [= <-]. apply Forall_app. split.
    + exact (proj2 (loopVertices_lengths _ _ _ _ E)).
    + now apply IH.
Qed.

Lemma objectVertices_lengths (scene : PosePosition) (objects : list Object)
      (armature : option Armature) (transformMatrix : Matrix) :
  forall vs, objectVertices scene objects armature transformMatrix = Ok vs ->
             Forall (fun v => length (jointIndices v) = 4%nat
                              /\ length (jointWeights v) = 4%nat) vs.
Proof.
  induction objects as [|object objects IH]; intros vs; simpl.
  - intros [= <-]. constructor.
  - destruct (polygonVertices armature object _) as [cs|e] eqn:E; simpl; [|discriminate].
    destruct (objectVertices scene objects armature transformMatrix) as [ws|e]; simpl;
      [|discriminate].
    intros [= <-]. apply Forall_app. split.
    + exact (polygonVertices_lengths _ _ _ _ E).
    + now apply IH.
Qed.

(** Every face made by lines 103-127 has three vertex indices. *)
Lemma bakeLoops_length (armature : option Armature) (object : Object)
      (loops : list Loop) :
  forall d d' idx, bakeLoops armature object loops d = Ok (d', idx) ->
                   length idx = length loops.
Proof.
  induction loops as [|loop loops IH]; intros d d' idx; simpl.
  - intros [= _ <-]. reflexivity.
  - destruct (makeVertex armature object loop) as [v|e]; simpl; [|discriminate].
    destruct (intern d v) as [[d1 i]|e]; simpl; [|discriminate].
    destruct (bakeLoops armature object loops d1) as [[d2 idx2]|e] eqn:E; simpl;
      [|discriminate].
    intros [= _ <-]. simpl. f_equal. eapply IH; eauto.
Qed.

Lemma bakePolygons_triangles (armature : option Armature) (object : Object)
      (polygons : list Polygon) :
  forall d d' faces,
    bakePolygons armature object polygons d = Ok (d', faces) ->
    Forall (fun face => length (vertexIndices face) = 3%nat) faces.
Proof.
  induction polygons as [|polygon polygons IH]; intros d d' faces; simpl.
  - intros [= _ <-]. constructor.
  - destruct (length polygon =? 3)%nat eqn:H3; [|apply IH].
    destruct (bakeLoops armature object polygon d) as [[d1 idx]|e] eqn:E1; simpl;
      [|discriminate].
    destruct (bakePolygons armature object polygons d1) as [[d2 fs]|e] eqn:E2; simpl;
      [|discriminate].
    intros [= _ <-]. constructor.
    + simpl. rewrite (bakeLoops_length _ _ _ _ _ _ E1). now apply Nat.eqb_eq.
    + eapply IH; eauto.
Qed.

Lemma bakeObjects_triangles (scene : PosePosition) (objects : list Object)
      (armature : option Armature) (transformMatrix : Matrix) :
  forall d d' faces,
    bakeObjects scene objects armature transformMatrix d = Ok (d', faces) ->
    Forall (fun face => length (vertexIndices face) = 3%nat) faces.
Proof.
  induction objects as [|object objects IH]; intros d d' faces; simpl.
  - intros [= _ <-]. constructor.
  - destruct (bakePolygons armature object _ d) as [[d1 fs1]|e] eqn:E1; simpl;
      [|discriminate].
    destruct (bakeObjects scene objects armature transformMatrix d1) as [[d2 fs2]|e] eqn:E2;
      simpl; [|discriminate].
    intros [= _ <-]. apply Forall_app. split.
    + eapply bakePolygons_triangles; eauto.
    + eapply IH; eauto.
Qed.

Lemma length_indexBuffer (faces : list Face) :
  Forall (fun face => length (vertexIndices face) = 3%nat) faces ->
  length (indexBuffer faces) = (3 * length faces)%nat.
Proof.
  induction 1 as [|f fs Hf _ IH]; simpl; [reflexivity|].
  rewrite length_app, Hf, IH. lia.
Qed.

(** What [getDataFromMeshObjects] returns, against the stream of vertices
    it made. *)
Lemma getData_spec (scene : PosePosition) (objects : list Object)
      (armature : option Armature) (transformMatrix : Matrix)
      (vertices : list Vertex) (faces : list Face) :
  getDataFromMeshObjects scene objects armature transformMatrix = Ok (vertices, faces) ->
  exists stream,
    objectVertices scene objects armature transformMatrix = Ok stream
    /\ separated vertices
    /\ (forall v, In v vertices -> In v stream)
    /\ length (indexBuffer faces) = length stream
    /\ Forall (fun face => length (vertexIndices face) = 3%nat) faces
    /\ (forall p v, nth_error stream p = Some v ->
          exists i, nth_error (indexBuffer faces) p = Some (Z.of_nat i)
                    /\ first_match vertices v i).
Proof.
  unfold getDataFromMeshObjects.
  destruct (bakeObjects scene objects armature transformMatrix []) as [[d fs]|e] eqn:E;
    simpl; [|discriminate].
  intros [= <- <-].
  destruct (bakeObjects_stream _ _ _ _ _ _ E) as [stream Hs].
  destruct (bakeObjects_internAll scene objects armature transformMatrix [] stream Hs)
    as (d' & fs' & E' & Hi).
  rewrite E in E'. injection E' as <- <-.
  destruct (internAll_spec stream [] numbered_nil) as (ext & idx & R & Hn & Hl & Hk & Hp).
  simpl in R, Hn, Hk, Hp. rewrite Hi in R. injection R as <- <-.
  exists stream. split; [exact Hs|]. split; [apply Hn|]. split; [exact Hk|].
  split; [exact Hl|]. split; [eapply bakeObjects_triangles; eauto|]. exact Hp.
Qed.

Lemma first_match_bound (keys : list Vertex) (v : Vertex) (i : nat) :
  first_match keys v i -> (i < length keys)%nat.
Proof. intros [(k & Hk & _) _]. apply nth_error_Some. congruence. Qed.

End BakedData.

Section BakedDataProperties.
Context {PN : PyNum} {MU : Mathutils}.

(** X1.  Whatever [getDataFromMeshObjects] returns is a valid indexed
    mesh: no vertex occurs twice; every face has exactly three indices, so
    the index buffer has three entries per face; every index points into
    the vertex list; there are at most three vertices per face; and every
    vertex has four joint indices and four joint weights. *)
Theorem baked_mesh_is_indexed (scene : PosePosition) (objects : list Object)
        (armature : option Armature) (transformMatrix : Matrix)
        (vertices : list Vertex) (faces : list Face) :
  getDataFromMeshObjects scene objects armature transformMatrix = Ok (vertices, faces) ->
  NoDup vertices
  /\ Forall (fun face => length (vertexIndices face) = 3%nat) faces
  /\ length (indexBuffer faces) = (3 * length faces)%nat
  /\ Forall (fun index => 0 <= index < len vertices) (indexBuffer faces)
  /\ len vertices <= 3 * len faces
  /\ Forall (fun v => length (jointIndices v) = 4%nat /\ length (jointWeights v) = 4%nat)
            vertices.
Proof.
  intros H.
  destruct (getData_spec _ _ _ _ _ _ H) as (stream & Hs & Hsep & Hset & Hlen & H3 & Hp).
  pose proof (separated_NoDup _ Hsep) as Hnd.
  pose proof (length_indexBuffer _ H3) as Hbuf.
  split; [exact Hnd|]. split; [exact H3|]. split; [exact Hbuf|]. split; [|split].
  - apply Forall_forall. intros i Hi. apply In_nth_error in Hi as [p Ep].
    assert (Hlt : (p < length stream)%nat).
    { rewrite <- Hlen. apply nth_error_Some. congruence. }
    destruct (nth_error stream p) as [v|] eqn:Ev; [|apply nth_error_None in Ev; lia].
    destruct (Hp p v Ev) as (j & Ej & Hj).
    assert (i = Z.of_nat j) by congruence. subst i.
    apply first_match_bound in Hj. unfold len. lia.
  - assert (Hle : (length vertices <= length stream)%nat).
    { apply NoDup_incl_length; [exact Hnd|]. intros v Hv. now apply Hset. }
    unfold len. lia.
  - apply Forall_forall. intros v Hv. apply Hset in Hv.
    pose proof (objectVertices_lengths _ _ _ _ _ Hs) as Hall.
    rewrite Forall_forall in Hall. now apply Hall.
Qed.

(** X2.  Reading the vertices back through the index buffer gives, for
    every corner in order, the first vertex of the list that the dict takes
    for the corner: one with the hash of the corner that [__eq__] accepts
    for it.  It is the corner itself whenever the corner is in the list;
    another corner is read back as the earlier vertex that stands for
    it. *)
Theorem index_buffer_reproduces_corners (scene : PosePosition) (objects : list Object)
        (armature : option Armature) (transformMatrix : Matrix)
        (vertices : list Vertex) (faces : list Face) (stream : list Vertex) :
  getDataFromMeshObjects scene objects armature transformMatrix = Ok (vertices, faces) ->
  objectVertices scene objects armature transformMatrix = Ok stream ->
  Forall2 (fun index corner =>
             exists vertex,
               0 <= index
               /\ nth_error vertices (Z.to_nat index) = Some vertex
               /\ Vertex_hash vertex = Vertex_hash corner
               /\ Vertex_eq vertex corner = true
               /\ first_match vertices corner (Z.to_nat index)
               /\ (In corner vertices -> vertex = corner))
          (indexBuffer faces) stream.
Proof.
  intros H Hs.
  destruct (getData_spec _ _ _ _ _ _ H) as (stream' & Hs' & Hsep & _ & Hlen & _ & Hp).
  assert (stream' = stream) by congruence. subst stream'.
  clear H Hs Hs'. revert Hlen Hp. generalize (indexBuffer faces) as idx.
  induction stream as [|corner stream IH]; intros [|index idx] Hlen Hp;
    try discriminate; constructor.
  - destruct (Hp 0%nat corner eq_refl) as (i & Ei & Hi).
    injection Ei as ->. rewrite Nat2Z.id.
    destruct Hi as [(vertex & Hv & Av) Hmin]. exists vertex.
    unfold accepts in Av. apply andb_true_iff in Av as [Ah Ae]. apply Z.eqb_eq in Ah.
    split; [lia|]. split; [exact Hv|]. split; [exact Ah|]. split; [exact Ae|]. split.
    + split; [|exact Hmin]. exists vertex. split; [exact Hv|].
      unfold accepts. now rewrite Ae, (proj2 (Z.eqb_eq _ _) Ah).
    + intros Hin. apply In_nth_error in Hin as [n Hn].
      pose proof (separated_first_match _ _ _ Hsep Hn) as Hself.
      assert (Hfirst : first_match vertices corner i).
      { split; [|exact Hmin]. exists vertex. split; [exact Hv|].
        unfold accepts. now rewrite Ae, (proj2 (Z.eqb_eq _ _) Ah). }
      rewrite (first_match_unique _ _ _ _ Hself Hfirst) in Hn. congruence.
  - apply IH.
    + simpl in Hlen. lia.
    + intros p v Hv. exact (Hp (S p) v Hv).
Qed.

(** X3.  A polygon that does not have exactly three loops gives no face and
    no vertex: baking a mesh is baking its triangles. *)
Theorem non_triangles_are_skipped (armature : option Armature) (object : Object)
        (polygons : list Polygon) (vertices : VertexDict) :
  bakePolygons armature object polygons vertices
  = bakePolygons armature object
                 (filter (fun polygon => (length polygon =? 3)%nat) polygons) vertices.
Proof.
  revert vertices. induction polygons as [|polygon polygons IH]; intros d; simpl;
    [reflexivity|].
  destruct (length polygon =? 3)%nat eqn:H3; simpl.
  - rewrite H3. destruct (bakeLoops armature object polygon d) as [r|e]; simpl;
      [|reflexivity].
    now rewrite IH.
  - apply IH.
Qed.

Lemma bindJoints_firstn (armature : Armature) (object : Object)
      (gs : list VertexGroupElement) :
  forall i ji jw,
    bindJoints armature object i gs ji jw
    = bindJoints armature object i (firstn (4 - i) gs) ji jw.
Proof.
  induction gs as [|g gs IH]; intros i ji jw.
  - now rewrite firstn_nil.
  - simpl bindJoints at 1. destruct (i <? 4)%nat eqn:Hi.
    + apply Nat.ltb_lt in Hi.
      replace (4 - i)%nat with (S (4 - S i)) by lia. simpl.
      rewrite (proj2 (Nat.ltb_lt i 4) Hi).
      destruct (getitem _ _) as [name|e]; simpl; [|reflexivity].
      destruct (setitem ji i _) as [ji1|e]; simpl; [|reflexivity].
      destruct (setitem jw i _) as [jw1|e]; simpl; [|reflexivity].
      apply IH.
    + apply Nat.ltb_ge in Hi. rewrite IH.
      replace (4 - S i)%nat with 0%nat by lia.
      replace (4 - i)%nat with 0%nat by lia. reflexivity.
Qed.

(** X4.  Only the first four groups of a vertex take part in its binding:
    the groups after the fourth are dropped without being looked at, in
    the order of the list and whatever their weights. *)
Theorem only_first_four_groups_bind (armature : option Armature) (object : Object)
        (loop : Loop) :
  makeVertex armature object loop
  = makeVertex armature object
               (mkLoop (undeformed_co loop) (loop_uv loop) (loop_normal loop)
                       (firstn 4 (groups loop))).
Proof.
  unfold makeVertex. simpl. destruct armature as [a|]; [|reflexivity].
  now rewrite (bindJoints_firstn a object (groups loop) 0).
Qed.

(** X5.  With no armature, or for a vertex in no group, the corner becomes
    a vertex with the position and normal of the loop, its UV with V
    replaced by 1 - V, joint indices [0, 0, 0, 0] and joint weights
    [0, 0, 0, 0] (as soon as 0 + 0 is 0). *)
Theorem unbound_corner (armature : option Armature) (object : Object) (loop : Loop) :
  num_add (num_of_Z 0) (num_of_Z 0) = num_of_Z 0 ->
  armature = None \/ groups loop = [] ->
  makeVertex armature object loop
  = Ok (mkVertex (undeformed_co loop)
                 (mkVec2 (vx (loop_uv loop)) (num_sub (num_of_Z 1) (vy (loop_uv loop))))
                 (loop_normal loop)
                 [0; 0; 0; 0]
                 [num_of_Z 0; num_of_Z 0; num_of_Z 0; num_of_Z 0]).
Proof.
  intros H0 Hcase.
  assert (Hn : normalizeJointWeights [num_of_Z 0; num_of_Z 0; num_of_Z 0; num_of_Z 0]
               = Ok [num_of_Z 0; num_of_Z 0; num_of_Z 0; num_of_Z 0]).
  { unfold normalizeJointWeights, sum. simpl. rewrite !H0.
    now rewrite num_eqb_refl. }
  unfold makeVertex.
  destruct armature as [a|].
  - destruct Hcase as [Hc|Hc]; [discriminate|]. rewrite Hc. simpl.
    rewrite Hn. reflexivity.
  - simpl. rewrite Hn. reflexivity.
Qed.

Lemma normalizeJointWeights_loop_overflow (total : num) (weights : list num) :
  num_eqb total (num_of_Z 0) = false ->
  forall i result,
    length result = 4%nat -> (i <= 4)%nat -> (4 < i + length weights)%nat ->
    normalizeJointWeights_loop total i weights result = Raise IndexError.
Proof.
  intros Ht. induction weights as [|w weights IH]; intros i result Hr Hi Hlen;
    simpl in *; [lia|].
  unfold truediv. rewrite Ht. simpl.
  destruct (Nat.eq_dec i 4) as [->|Hne].
  - rewrite setitem_Raise by lia. reflexivity.
  - destruct (setitem_Ok result i (num_div w total) ltac:(lia)) as (result' & -> & Hl & _).
    simpl. apply IH; lia.
Qed.

(** X6.  [normalizeJointWeights] on lists of any length: a result always
    has four entries; a list whose sum is [== 0] gives four zeros whatever
    its length; a list of more than four weights whose sum is not [== 0]
    raises [IndexError]. *)
Theorem normalizeJointWeights_sizes :
  (forall weights r, normalizeJointWeights weights = Ok r -> length r = 4%nat)
  /\ (forall weights,
        num_eqb (sum weights) (num_of_Z 0) = true ->
        normalizeJointWeights weights
        = Ok [num_of_Z 0; num_of_Z 0; num_of_Z 0; num_of_Z 0])
  /\ (forall weights,
        num_eqb (sum weights) (num_of_Z 0) = false ->
        (4 < length weights)%nat ->
        normalizeJointWeights weights = Raise IndexError).
Proof.
  split; [exact normalizeJointWeights_length|]. split.
  - intros weights Hs. unfold normalizeJointWeights. now rewrite Hs.
  - intros weights Hs Hlen. unfold normalizeJointWeights. rewrite Hs. simpl.
    apply normalizeJointWeights_loop_overflow; auto; lia.
Qed.

End BakedDataProperties.

(** ** A corner bound to one bone, in IEEE arithmetic *)

Section SingleBinding.
Local Existing Instance IEEE.Binary64.
Context {MU : Mathutils}.

Lemma div_eucl_multiple (m : positive) (n : Z) :
  0 <= n -> Z.div_eucl (Z.pos m * 2 ^ n) (Z.pos m) = (2 ^ n, 0).
Proof.
  intros Hn.
  pose proof (Z.div_eucl_eq (Z.pos m * 2 ^ n) (Z.pos m) ltac:(lia)) as E.
  pose proof (Z_div_mod (Z.pos m * 2 ^ n) (Z.pos m) ltac:(lia)) as B.
  destruct (Z.div_eucl (Z.pos m * 2 ^ n) (Z.pos m)) as [q r].
  destruct B as [_ B].
  assert (r = 0 /\ q = 2 ^ n); [|intuition congruence].
  assert (Hq : Z.pos m * (2 ^ n - q) = r) by lia.
  assert (2 ^ n - q = 0) by nia. split; nia.
Qed.

(** A finite double that is not zero, divided by itself, is 1.0: the
    quotient of the mantissas is a power of two, and no rounding occurs. *)
Lemma div_self (s : bool) (m : positive) (e : Z) :
  IEEE.div (S754_finite s m e) (S754_finite s m e) = IEEE.of_Z 1.
Proof.
  unfold IEEE.div, SFdiv, SFdiv_core_binary.
  replace (Zdigits2 (Z.pos m) + e - (Zdigits2 (Z.pos m) + e)) with 0 by lia.
  rewrite Z.sub_diag.
  change (Z.min (fexp IEEE.prec IEEE.emax 0) 0) with (-53).
  change (0 - -53) with 53.
  rewrite Z.shiftl_mul_pow2 by lia.
  rewrite div_eucl_multiple by lia.
  assert (L : new_location (Z.pos m) 0 = loc_Exact).
  { unfold new_location. now destruct (Z.even (Z.pos m)). }
  rewrite L. destruct s; reflexivity.
Qed.

(** X20.  In IEEE arithmetic, a corner whose vertex is in exactly one
    group, with a weight that is finite and not zero, gets the joint
    weights [1.0, 0, 0, 0] exactly, whatever the weight: the sum of the raw
    weights is the weight itself, its quotient by itself is 1.0 with no
    rounding, and the three zeros divided by it are zeros (with its sign).
    Its first joint index is what [find] gives for the name of the
    group. *)
Theorem single_group_corner (armature : Armature) (object : Object) (loop : Loop)
        (g : VertexGroupElement) (name : str) (s : bool) (m : positive) (e : Z) :
  groups loop = [g] ->
  weight g = S754_finite s m e ->
  nth_error (vertex_groups object) (group g) = Some name ->
  makeVertex (Some armature) object loop
  = Ok (mkVertex (undeformed_co loop)
                 (mkVec2 (vx (loop_uv loop)) (IEEE.sub (IEEE.of_Z 1) (vy (loop_uv loop))))
                 (loop_normal loop)
                 [find (bones armature) name; 0; 0; 0]
                 [IEEE.of_Z 1; S754_zero s; S754_zero s; S754_zero s]).
Proof.
  intros Hg Hw Hname.
  set (zero := @num_of_Z IEEE.Binary64 0).
  assert (Eb : bindJoints armature object 0 (groups loop) [0; 0; 0; 0]
                          [zero; zero; zero; zero]
               = Ok ([find (bones armature) name; 0; 0; 0],
                     [S754_finite s m e; zero; zero; zero])).
  { rewrite Hg. unfold bindJoints, getitem. rewrite Hname, Hw. reflexivity. }
  assert (En : normalizeJointWeights [S754_finite s m e; zero; zero; zero]
               = Ok [IEEE.of_Z 1; S754_zero s; S754_zero s; S754_zero s]).
  { rewrite (normalizeJointWeights_four (PN := IEEE.Binary64)). cbv zeta.
    match goal with
    | |- context [@sum ?P ?l] =>
        assert (Es : @sum P l = S754_finite s m e) by reflexivity; rewrite !Es
    end.
    match goal with
    | |- context [@num_eqb ?P ?a ?b] =>
        assert (Ez : @num_eqb P a b = false) by (destruct s; reflexivity); rewrite Ez
    end.
    match goal with
    | |- context [@num_div ?P (S754_finite s m e) ?b] =>
        assert (Ed : @num_div P (S754_finite s m e) b = IEEE.of_Z 1) by apply div_self;
        rewrite Ed
    end.
    reflexivity. }
  unfold makeVertex. fold zero. rewrite Eb. cbn [rbind fst snd]. rewrite En.
  reflexivity.
Qed.

End SingleBinding.

(** ** The mesh file *)

Section MeshFile.
Context {PN : PyNum} {MU : Mathutils} {BL : Blender}.
Local Open Scope exporter_scope.

Lemma file_size_app (a b : list Item) : file_size (a ++ b) = file_size a + file_size b.
Proof.
  unfold file_size. induction a as [|i a IH]; simpl; [reflexivity|].
  rewrite IH. lia.
Qed.

Lemma len_cons {A : Type} (a : A) (l : list A) : len (a :: l) = 1 + len l.
Proof. unfold len. simpl length. lia. Qed.

Lemma file_size_cons (i : Item) (f : list Item) :
  file_size (i :: f) = item_size i + file_size f.
Proof. reflexivity. Qed.

Lemma file_size_U16 (l : list Z) : file_size (map U16 l) = 2 * len l.
Proof.
  induction l as [|i l IH]; [reflexivity|].
  simpl map. rewrite file_size_cons, len_cons, IH. simpl item_size. lia.
Qed.

Lemma file_size_F32 (l : list num) : file_size (map F32 l) = 4 * len l.
Proof.
  induction l as [|i l IH]; [reflexivity|].
  simpl map. rewrite file_size_cons, len_cons, IH. simpl item_size. lia.
Qed.

Lemma file_size_U8 (l : list Z) : file_size (map U8 l) = len l.
Proof.
  induction l as [|i l IH]; [reflexivity|].
  simpl map. rewrite file_size_cons, len_cons, IH. simpl item_size. lia.
Qed.

Lemma file_size_flat_map {A : Type} (g : A -> list Item) (n : Z) (l : list A) :
  (forall a, In a l -> file_size (g a) = n) ->
  file_size (flat_map g l) = n * len l.
Proof.
  induction l as [|a l IH]; intros H; [simpl; unfold len; simpl; lia|].
  simpl flat_map. rewrite file_size_app, len_cons.
  rewrite IH by (intros b Hb; apply H; now right).
  rewrite (H a) by now left. lia.
Qed.

(** A loop each of whose steps writes a known run of fields. *)
Lemma for_each_emit {A : Type} (body : A -> M unit) (g : A -> list Item) (l : list A) :
  (forall a, In a l -> forall w, body a w = (Ok tt, emit (g a) w)) ->
  forall w, for_each l body w = (Ok tt, emit (flat_map g l) w).
Proof.
  induction l as [|a l IH]; intros H w; simpl.
  - now rewrite emit_nil.
  - rewrite (bind_Ok _ _ _ _ _ (H a (or_introl eq_refl) w)).
    rewrite IH by (intros b Hb; apply H; now right).
    now rewrite emit_emit.
Qed.

(** [for i in range(len(l)): f(l[i])]. *)
Lemma for_each_getitem {A : Type} (f : A -> M unit) (g : A -> Item) (l : list A) :
  (forall a, In a l -> forall w, f a w = (Ok tt, emit [g a] w)) ->
  forall pre w,
    for_each (seq (length pre) (length l))
             (fun i => a <- lift (getitem (pre ++ l) i) ;; f a) w
    = (Ok tt, emit (map g l) w).
Proof.
  induction l as [|a l IH]; intros H pre w; simpl.
  - now rewrite emit_nil.
  - assert (E : (x <- lift (getitem (pre ++ a :: l) (length pre)) ;; f x) w
                = (Ok tt, emit [g a] w)).
    { unfold bind, lift, getitem.
      rewrite nth_error_app2, Nat.sub_diag by lia. simpl.
      apply H. now left. }
    rewrite (bind_Ok _ _ _ _ _ E).
    replace (pre ++ a :: l) with ((pre ++ [a]) ++ l) by (now rewrite <- app_assoc).
    replace (S (length pre)) with (length (pre ++ [a])) by (rewrite length_app; simpl; lia).
    rewrite IH by (intros b Hb; apply H; now right).
    now rewrite emit_emit.
Qed.

Lemma writeVertex_run (v : Vertex) (b : bool) (w : World) :
  b = false \/ writable_bindings v ->
  writeVertex v b w = (Ok tt, emit (vertex_record b v) w).
Proof.
  intros Hb. unfold writeVertex, vertex_record.
  do 8 (erewrite bind_Ok by apply writeFloat_emit).
  rewrite !emit_emit. simpl app at 1.
  destruct b.
  - destruct Hb as [Hb|(Hi & Hw & Hr)]; [discriminate|].
    assert (E1 : forall u,
               for_each (seq 0 4) (fun i =>
                 index <- lift (getitem (jointIndices v) i) ;; writeUint8 index) u
               = (Ok tt, emit (map U8 (jointIndices v)) u)).
    { intros u. rewrite <- Hi.
      apply (for_each_getitem writeUint8 U8 (jointIndices v)) with (pre := []).
      intros a Ha u'. rewrite writeUint8_run.
      rewrite Forall_forall in Hr.
      now rewrite (proj2 (in_range_spec a 255) (Hr a Ha)). }
    assert (E2 : forall u,
               for_each (seq 0 4) (fun i =>
                 weight <- lift (getitem (jointWeights v) i) ;; writeFloat weight) u
               = (Ok tt, emit (map F32 (jointWeights v)) u)).
    { intros u. rewrite <- Hw.
      apply (for_each_getitem writeFloat F32 (jointWeights v)) with (pre := []).
      intros a Ha u'. reflexivity. }
    rewrite (bind_Ok _ _ _ _ _ (E1 _)), E2, !emit_emit.
    repeat rewrite <- app_assoc. reflexivity.
  - unfold ret. now rewrite app_nil_r.
Qed.

Lemma writeVertices_run (vertices : list Vertex) (b : bool) (w : World) :
  b = false \/ Forall writable_bindings vertices ->
  writeVertices vertices b w = (Ok tt, emit (flat_map (vertex_record b) vertices) w).
Proof.
  intros Hb. unfold writeVertices. apply for_each_emit.
  intros v Hv u. apply writeVertex_run.
  destruct Hb as [Hb|Hb]; [now left|]. right.
  rewrite Forall_forall in Hb. now apply Hb.
Qed.

Lemma vertex_record_size (b : bool) (v : Vertex) :
  b = false \/ writable_bindings v ->
  file_size (vertex_record b v) = if b then 52 else 32.
Proof.
  intros Hb. unfold vertex_record. rewrite file_size_app.
  destruct b.
  - destruct Hb as [Hb|(Hi & Hw & _)]; [discriminate|].
    rewrite file_size_app, file_size_U8, file_size_F32. unfold len.
    rewrite Hi, Hw. reflexivity.
  - reflexivity.
Qed.

Lemma uint16_loop_run (indices : list Z) (w : World) :
  Forall (fun index => 0 <= index <= 65535) indices ->
  for_each indices (fun vertexIndex => writeUint16 vertexIndex) w
  = (Ok tt, emit (map U16 indices) w).
Proof.
  intros H.
  assert (E : flat_map (fun i => [U16 i]) indices = map U16 indices).
  { clear H. induction indices as [|i l IH]; simpl; congruence. }
  rewrite <- E. apply for_each_emit.
  intros a Ha u. rewrite writeUint16_run.
  rewrite Forall_forall in H. now rewrite (proj2 (in_range_spec a 65535) (H a Ha)).
Qed.

Lemma writeFaces_run (faces : list Face) (w : World) :
  Forall (fun index => 0 <= index <= 65535) (indexBuffer faces) ->
  writeFaces faces w = (Ok tt, emit (map U16 (indexBuffer faces)) w).
Proof.
  intros H. unfold writeFaces.
  assert (E : flat_map (fun face => map U16 (vertexIndices face)) faces
              = map U16 (indexBuffer faces)).
  { unfold indexBuffer. clear H. induction faces as [|f fs IH]; simpl; [reflexivity|].
    now rewrite map_app, IH. }
  rewrite <- E. apply for_each_emit.
  intros f Hf u. apply uint16_loop_run.
  rewrite Forall_forall in *. intros i Hi. apply H.
  unfold indexBuffer. apply in_flat_map. eauto.
Qed.

Lemma uint16_loop_raises (indices : list Z) :
  Exists (fun index => ~ 0 <= index <= 65535) indices ->
  forall w, exists w',
    for_each indices (fun vertexIndex => writeUint16 vertexIndex) w
    = (Raise StructError, w').
Proof.
  induction 1 as [i l Hi | i l _ IH]; intros w; simpl.
  - exists w. apply bind_Raise. rewrite writeUint16_run.
    destruct (in_range i 65535) eqn:E; [apply in_range_spec in E; contradiction|].
    reflexivity.
  - destruct (in_range i 65535) eqn:E.
    + destruct (IH (emit [U16 i] w)) as [w' Hw']. exists w'.
      erewrite bind_Ok; [exact Hw'|]. now rewrite writeUint16_run, E.
    + exists w. apply bind_Raise. now rewrite writeUint16_run, E.
Qed.

Lemma writeFaces_raises (faces : list Face) :
  Exists (fun index => ~ 0 <= index <= 65535) (indexBuffer faces) ->
  forall w, exists w', writeFaces faces w = (Raise StructError, w').
Proof.
  unfold writeFaces, indexBuffer.
  induction faces as [|f fs IH]; intros H w; simpl in *.
  - inversion H.
  - apply Exists_app in H.
    destruct (for_each (vertexIndices f) (fun i => writeUint16 i) w) as [[[]|e] w1] eqn:E.
    + rewrite (bind_Ok _ _ _ _ _ E).
      destruct H as [H|H]; [|now apply IH].
      destruct (uint16_loop_raises _ H w) as [w' Hw']. congruence.
    + destruct (Exists_dec (fun index => ~ 0 <= index <= 65535) (vertexIndices f))
        as [Hf|Hf].
      { intros i. destruct (in_range i 65535) eqn:Ei.
        - right. intros Hn. apply Hn. now apply in_range_spec.
        - left. intros Hn. apply in_range_spec in Hn. congruence. }
      * destruct (uint16_loop_raises _ Hf w) as [w' Hw'].
        exists w1. apply bind_Raise. congruence.
      * exfalso. apply Hf. clear -E.
        assert (Hall : ~ Forall (fun index => 0 <= index <= 65535) (vertexIndices f)).
        { intros Hall. rewrite (uint16_loop_run _ w Hall) in E. discriminate. }
        apply Exists_exists.
        apply neg_Forall_Exists_neg in Hall.
        -- apply Exists_exists in Hall. exact Hall.
        -- intros i. destruct (in_range i 65535) eqn:Ei.
           ++ left. now apply in_range_spec.
           ++ right. intros Hn. apply in_range_spec in Hn. congruence.
Qed.

End MeshFile.

Section MeshExport.
Context {PN : PyNum} {MU : Mathutils} {BL : Blender}.
Local Open Scope exporter_scope.

(** X7.  [writeVertices] without joint bindings never raises and writes
    eight floats, 32 bytes, per vertex.  With joint bindings, on vertices
    with four joint indices that fit a byte and four weights, it writes
    those after the eight floats: 52 bytes per vertex. *)
Theorem writeVertices_layout :
  (forall vertices w,
      writeVertices vertices false w
      = (Ok tt, emit (flat_map (vertex_record false) vertices) w)
      /\ file_size (flat_map (vertex_record false) vertices) = 32 * len vertices)
  /\ (forall vertices w,
        Forall writable_bindings vertices ->
        writeVertices vertices true w
        = (Ok tt, emit (flat_map (vertex_record true) vertices) w)
        /\ file_size (flat_map (vertex_record true) vertices) = 52 * len vertices).
Proof.
  split.
  - intros vertices w. split.
    + apply writeVertices_run. now left.
    + apply file_size_flat_map. intros v _.
      apply (vertex_record_size false). now left.
  - intros vertices w H. split.
    + apply writeVertices_run. now right.
    + apply file_size_flat_map. intros v Hv.
      apply (vertex_record_size true). right.
      rewrite Forall_forall in H. now apply H.
Qed.

(** X8.  [writeFaces] writes the vertex indices of the faces in order, two
    bytes each, when every index is between 0 and 65535; as soon as one is
    not, it raises [struct.error]. *)
Theorem writeFaces_layout :
  (forall faces w,
      Forall (fun index => 0 <= index <= 65535) (indexBuffer faces) ->
      writeFaces faces w = (Ok tt, emit (map U16 (indexBuffer faces)) w)
      /\ file_size (map U16 (indexBuffer faces)) = 2 * len (indexBuffer faces))
  /\ (forall faces w,
        Exists (fun index => ~ 0 <= index <= 65535) (indexBuffer faces) ->
        exists w', writeFaces faces w = (Raise StructError, w')).
Proof.
  split.
  - intros faces w H. split; [now apply writeFaces_run | apply file_size_U16].
  - intros faces w H. now apply writeFaces_raises.
Qed.

(** The indices of a baked mesh fit their field when the vertex count
    does. *)
Lemma baked_indices_fit (scene : PosePosition) (objects : list Object)
      (armature : option Armature) (transformMatrix : Matrix)
      (vertices : list Vertex) (faces : list Face) :
  getDataFromMeshObjects scene objects armature transformMatrix = Ok (vertices, faces) ->
  len vertices <= 65535 ->
  Forall (fun index => 0 <= index <= 65535) (indexBuffer faces)
  /\ len (indexBuffer faces) = 3 * len faces
  /\ Forall (fun v => length (jointIndices v) = 4%nat /\ length (jointWeights v) = 4%nat)
            vertices.
Proof.
  intros H Hv.
  destruct (getData_spec _ _ _ _ _ _ H) as (stream & Hs & Hnd & Hset & Hlen & H3 & Hp).
  split; [|split].
  - apply Forall_forall. intros i Hi. apply In_nth_error in Hi as [p Ep].
    assert (Hlt : (p < length stream)%nat).
    { rewrite <- Hlen. apply nth_error_Some. congruence. }
    destruct (nth_error stream p) as [v|] eqn:Ev; [|apply nth_error_None in Ev; lia].
    destruct (Hp p v Ev) as (j & Ej & Hj).
    assert (i = Z.of_nat j) by congruence. subst i.
    apply first_match_bound in Hj. unfold len in Hv. lia.
  - unfold len. rewrite (length_indexBuffer _ H3). lia.
  - apply Forall_forall. intros v Hin. apply Hset in Hin.
    pose proof (objectVertices_lengths _ _ _ _ _ Hs) as Hall.
    rewrite Forall_forall in Hall. now apply Hall.
Qed.

(** X9.  The mesh export that succeeds.  When the baking returns, the
    counts fit 16 bits and, with an armature, every joint index fits a
    byte, the export returns normally; the destination then holds the flag,
    the two counts, the index buffer and the vertex records, and nothing
    else of the world has changed.  The file is
    5 + 6 * faceCount + 32 * vertexCount bytes long (52 per vertex with an
    armature). *)
Theorem mesh_export_layout (selected_objects : list SceneObject) (w : World)
        (vertices : list Vertex) (faces : list Face) :
  writable w = true ->
  let armature := getSelectedArmature selected_objects in
  let objects := getSelectedMeshObjects selected_objects in
  let skinned := truthy armature in
  objects <> [] ->
  getDataFromMeshObjects (if skinned then REST else pose_position w)
                         objects armature getAxisMappingMatrix
  = Ok (vertices, faces) ->
  len faces <= 65535 ->
  len vertices <= 65535 ->
  (skinned = true ->
   Forall (fun v => Forall (fun index => 0 <= index <= 255) (jointIndices v)) vertices) ->
  let contents :=
    [Bool8 skinned; U16 (len faces); U16 (len vertices)]
    ++ map U16 (indexBuffer faces)
    ++ flat_map (vertex_record skinned) vertices in
  ExportMeshOperator_execute selected_objects w = (Ok tt, set_file contents w)
  /\ file_size contents
     = 5 + 6 * len faces + (if skinned then 52 else 32) * len vertices.
Proof.
  intros Hw armature objects skinned Hobj Hbake Hf Hv Hjoints contents.
  destruct (baked_indices_fit _ _ _ _ _ _ Hbake Hv) as (Hidx & Hbuf & Hfour).
  assert (Hbind : skinned = false \/ Forall writable_bindings vertices).
  { destruct skinned; [right | now left].
    specialize (Hjoints eq_refl). rewrite Forall_forall in *.
    intros v Hin. destruct (Hfour v Hin) as [A B].
    split; [exact A|]. split; [exact B|]. now apply Hjoints. }
  split.
  - assert (Hlen : (0 <? len objects) = true).
    { apply Z.ltb_lt. unfold len. destruct objects; [contradiction | simpl; lia]. }
    unfold ExportMeshOperator_execute. fold armature objects. fold skinned.
    rewrite Hlen.
    set (w1 := if skinned
               then set_frame_current (frame_current w) (set_pose_position REST w)
               else w).
    assert (Hw1 : writable w1 = true) by (unfold w1; destruct skinned; exact Hw).
    assert (Hp1 : pose_position w1 = if skinned then REST else pose_position w)
      by (unfold w1; destruct skinned; reflexivity).
    assert (E0 : (if skinned
                  then (w0 <- get ;; setArmaturePosition REST ;; ret (pose_position w0))
                  else ret REST) w
                 = (Ok (if skinned then pose_position w else REST), w1)).
    { unfold w1. destruct skinned; reflexivity. }
    rewrite (bind_Ok _ _ _ _ _ E0).
    assert (Eg : get w1 = (Ok w1, w1)) by reflexivity.
    assert (El : lift (getDataFromMeshObjects (pose_position w1) objects armature
                                              getAxisMappingMatrix) w1
                 = (Ok (vertices, faces), w1)).
    { unfold lift. now rewrite Hp1, Hbake. }
    erewrite bind_Ok.
    2:{ rewrite (bind_Ok _ _ _ _ _ Eg), (bind_Ok _ _ _ _ _ El).
        simpl fst. simpl snd.
        rewrite (mesh_file_run _ _ _ _ Hw1), (in_range_len _ _ Hf), (in_range_len _ _ Hv).
        rewrite (bind_Ok _ _ _ _ _ (writeFaces_run _ _ Hidx)).
        apply (writeVertices_run _ _ _ Hbind). }
    unfold contents, w1. destruct w. destruct skinned; reflexivity.
  - unfold contents.
    rewrite !file_size_app, file_size_U16, Hbuf.
    rewrite (file_size_flat_map (vertex_record skinned) (if skinned then 52 else 32)).
    + change (file_size [Bool8 skinned; U16 (len faces); U16 (len vertices)]) with 5. lia.
    + intros v Hin. apply vertex_record_size.
      destruct Hbind as [Hb|Hb]; [now left|]. right.
      rewrite Forall_forall in Hb. now apply Hb.
Qed.

(** X10.  With no mesh object selected the mesh export returns normally
    and changes nothing: the destination is not opened, and the pose
    position, set to [REST] on the way, is back. *)
Theorem mesh_export_nothing_selected (selected_objects : list SceneObject) (w : World) :
  getSelectedMeshObjects selected_objects = [] ->
  ExportMeshOperator_execute selected_objects w = (Ok tt, w).
Proof.
  intros H. unfold ExportMeshOperator_execute. rewrite H.
  destruct w. destruct (getSelectedArmature selected_objects); reflexivity.
Qed.

(** X19.  An exception raised while the mesh data is baked reaches the
    caller before the destination is opened: the file is as it was. *)
Theorem mesh_export_baking_error (selected_objects : list SceneObject) (w : World)
        (e : exn) :
  let armature := getSelectedArmature selected_objects in
  let objects := getSelectedMeshObjects selected_objects in
  objects <> [] ->
  getDataFromMeshObjects (if truthy armature then REST else pose_position w)
                         objects armature getAxisMappingMatrix
  = Raise e ->
  exists w',
    ExportMeshOperator_execute selected_objects w = (Raise e, w')
    /\ file w' = file w.
Proof.
  intros armature objects Hobj Hbake.
  assert (Hlen : (0 <? len objects) = true).
  { apply Z.ltb_lt. unfold len. destruct objects; [contradiction | simpl; lia]. }
  unfold ExportMeshOperator_execute. fold armature objects. rewrite Hlen.
  set (w1 := if truthy armature
             then set_frame_current (frame_current w) (set_pose_position REST w)
             else w).
  assert (Hp1 : pose_position w1 = if truthy armature then REST else pose_position w)
    by (unfold w1; destruct (truthy armature); reflexivity).
  assert (E0 : (if truthy armature
                then (w0 <- get ;; setArmaturePosition REST ;; ret (pose_position w0))
                else ret REST) w
               = (Ok (if truthy armature then pose_position w else REST), w1)).
  { unfold w1. destruct (truthy armature); reflexivity. }
  rewrite (bind_Ok _ _ _ _ _ E0).
  assert (Eg : get w1 = (Ok w1, w1)) by reflexivity.
  exists w1. split.
  - apply bind_Raise. rewrite (bind_Ok _ _ _ _ _ Eg). apply bind_Raise.
    unfold lift. now rewrite Hp1, Hbake.
  - unfold w1. destruct (truthy armature); reflexivity.
Qed.

End MeshExport.

Section MeshSession.
Context {PN : PyNum} {MU : Mathutils} {BL : Blender}.
Local Open Scope exporter_scope.

Lemma same_session_refl (w : World) : same_session w w.
Proof. repeat split. Qed.

Lemma same_session_trans (a b c : World) :
  same_session a b -> same_session b c -> same_session a c.
Proof. unfold same_session. intros (A1 & A2 & A3) (B1 & B2 & B3). repeat split; congruence. Qed.

Lemma same_session_write (i : Item) (w : World) :
  same_session w (set_file (file w ++ [i]) w).
Proof. repeat split. Qed.

Lemma same_session_open : respects same_session open.
Proof.
  intros w r w'. unfold open. destruct (writable w); intros [= _ <-]; repeat split.
Qed.

(** Lines 221-228 leave the session as it is, however they end. *)
Lemma mesh_block_session (objects : list Object) (armature : option Armature) :
  respects same_session
    (if 0 <? len objects
     then (w <- get ;;
           data <- lift (getDataFromMeshObjects (pose_position w) objects armature
                                                getAxisMappingMatrix) ;;
           open ;;
           writeBool (truthy armature) ;;
           writeUint16 (len (snd data)) ;;
           writeUint16 (len (fst data)) ;;
           writeFaces (snd data) ;;
           writeVertices (fst data) (truthy armature))
     else ret tt).
Proof.
  pose proof same_session_refl as Hr. pose proof same_session_trans as Ht.
  pose proof same_session_write as Hw.
  destruct (0 <? len objects); [|now apply respects_ret].
  apply respects_bind; [exact Ht | now apply respects_get | intros w0].
  apply respects_bind; [exact Ht | now apply respects_lift | intros data].
  apply respects_bind; [exact Ht | exact same_session_open | intros _].
  apply respects_bind; [exact Ht | now apply respects_write | intros _].
  apply respects_bind; [exact Ht | now apply respects_writeUint16 | intros _].
  apply respects_bind; [exact Ht | now apply respects_writeUint16 | intros _].
  apply respects_bind; [exact Ht | now apply respects_writeFaces | intros _].
  now apply respects_writeVertices.
Qed.

(** X11.  The session across the mesh export.  A normal return leaves the
    frame, the active action and the pose position as they were.  With no
    armature selected the session is never touched, whatever the outcome.
    With an armature selected, an exception leaves the pose position at
    [REST]: nothing puts it back. *)
Theorem mesh_export_session_state (selected_objects : list SceneObject) (w : World) :
  let run := ExportMeshOperator_execute selected_objects w in
  (fst run = Ok tt -> same_session w (snd run))
  /\ (getSelectedArmature selected_objects = None -> same_session w (snd run))
  /\ (forall e, getSelectedArmature selected_objects <> None ->
                fst run = Raise e ->
                frame_current (snd run) = frame_current w
                /\ action (snd run) = action w
                /\ pose_position (snd run) = REST).
Proof.
  intros run. subst run. unfold ExportMeshOperator_execute.
  pose proof (mesh_block_session (getSelectedMeshObjects selected_objects)
                                 (getSelectedArmature selected_objects)) as Hblock.
  destruct (getSelectedArmature selected_objects) as [a|]; simpl truthy in *; cbv iota.
  - set (w1 := set_frame_current (frame_current w) (set_pose_position REST w)).
    assert (E0 : (w0 <- get ;; setArmaturePosition REST ;; ret (pose_position w0)) w
                 = (Ok (pose_position w), w1)) by reflexivity.
    rewrite (bind_Ok _ _ _ _ _ E0).
    split; [|split; [discriminate|]].
    + destruct (bind _ _ w1) as [r w'] eqn:H. simpl. intros ->.
      apply bind_Ok_inv in H as ([] & w2 & HB & HE).
      apply Hblock in HB. destruct HB as (B1 & B2 & B3).
      injection HE as <-. unfold same_session. simpl.
      rewrite B2. simpl. auto.
    + intros e _. destruct (bind _ _ w1) as [r w'] eqn:H. simpl. intros ->.
      apply bind_Raise_inv in H as [H | ([] & w2 & _ & H)]; [|discriminate].
      apply Hblock in H. destruct H as (B1 & B2 & B3).
      rewrite B1, B2, B3. auto.
  - assert (E0 : @ret PN PosePosition REST w = (Ok REST, w)) by reflexivity.
    rewrite (bind_Ok _ _ _ _ _ E0).
    destruct (bind _ _ w) as [r w'] eqn:H. simpl.
    assert (HS : same_session w w').
    { destruct r as [[]|e].
      - apply bind_Ok_inv in H as ([] & w2 & HB & HE). injection HE as <-.
        exact (Hblock _ _ _ HB).
      - apply bind_Raise_inv in H as [H | ([] & w2 & _ & H)]; [|discriminate].
        exact (Hblock _ _ _ H). }
    split; [intros _; exact HS|]. split; [intros _; exact HS|].
    intros e He. contradiction.
Qed.

End MeshSession.

(** ** The skeleton file *)

Section SkeletonFile.
Context {PN : PyNum} {MU : Mathutils} {BL : Blender}.
Local Open Scope exporter_scope.

Lemma for_each_app {A : Type} (body : A -> M unit) (l1 l2 : list A) (w : World) :
  for_each (l1 ++ l2) body w = (for_each l1 body ;; for_each l2 body) w.
Proof.
  revert w. induction l1 as [|a l1 IH]; intros w; simpl.
  - reflexivity.
  - unfold bind in *. destruct (body a w) as [[[]|e] w1]; [apply IH | reflexivity].
Qed.

Lemma file_size_concat (n : Z) (records : list (list Item)) :
  (forall r, In r records -> file_size r = n) ->
  file_size (concat records) = n * len records.
Proof.
  induction records as [|r records IH]; intros H; [simpl; unfold len; simpl; lia|].
  simpl concat. rewrite file_size_app, len_cons.
  rewrite IH by (intros b Hb; apply H; now right).
  rewrite (H r) by now left. lia.
Qed.

Lemma writeJoint_run (armature : Armature) (transform : Matrix) (bone : Bone)
      (w : World) :
  0 <= parentIndex armature bone <= 255 ->
  writeJoint armature transform bone w
  = match inverted (matmul transform (bone_matrix_local bone)) with
    | Some inverse => (Ok tt, emit (joint_record (parentIndex armature bone) inverse) w)
    | None => (Raise ValueError, emit [U8 (parentIndex armature bone)] w)
    end.
Proof.
  intros Hi. unfold writeJoint.
  assert (E : writeUint8 (parentIndex armature bone) w
              = (Ok tt, emit [U8 (parentIndex armature bone)] w)).
  { now rewrite writeUint8_run, (proj2 (in_range_spec _ 255) Hi). }
  rewrite (bind_Ok _ _ _ _ _ E). unfold invert.
  destruct (inverted _) as [inverse|].
  - unfold bind at 1, ret. rewrite rows_loop, emit_emit. reflexivity.
  - reflexivity.
Qed.

Lemma writeJoint_range (armature : Armature) (transform : Matrix) (bone : Bone)
      (w w' : World) :
  writeJoint armature transform bone w = (Ok tt, w') ->
  0 <= parentIndex armature bone <= 255.
Proof.
  unfold writeJoint. intros H.
  apply bind_Ok_inv in H as ([] & w1 & H1 & _). rewrite writeUint8_run in H1.
  destruct (in_range _ 255) eqn:E; [|discriminate]. now apply in_range_spec.
Qed.

Lemma find_from_bounds (l : list Bone) (key : str) :
  forall start, find_from start l key = -1
                \/ start <= find_from start l key < start + len l.
Proof.
  induction l as [|b l IH]; intros start; simpl; [now left|].
  rewrite len_cons. destruct (str_eqb (bone_name b) key).
  - right. unfold len. lia.
  - destruct (IH (start + 1)) as [H|H]; [now left | right; lia].
Qed.

(** The animations of [bpy.data.actions], written one after the other. *)
Lemma animations_Ok_inv (armature : Armature) (transform : Matrix)
      (actions : list Action) :
  forall w w',
    for_each actions (fun animation => writeAnimation armature animation transform) w
    = (Ok tt, w') ->
    exists segments,
      Forall2 (animation_segment armature transform (pose_position w)) actions segments
      /\ file w' = file w ++ concat segments
      /\ pose_position w' = pose_position w.
Proof.
  induction actions as [|animation actions IH]; intros w w'; simpl.
  - intros [= <-]. exists []. rewrite app_nil_r. repeat split. constructor.
  - intros H. apply bind_Ok_inv in H as ([] & w1 & H1 & H2).
    destruct (writeAnimation_Ok_inv _ _ _ _ _ H1) as (_ & _ & blocks & Hs & Hfile & Hp & _).
    apply IH in H2 as (segments & Hseg & Hfile2 & Hp2).
    rewrite Hp in Hseg.
    exists ((animation_header animation ++ flat_map (flat_map pose_record) blocks)
              :: segments).
    split; [constructor; [now exists blocks | exact Hseg]|].
    split; [|congruence].
    rewrite Hfile2, Hfile. simpl concat. unfold animation_header.
    now rewrite <- !app_assoc.
Qed.

Lemma last_cons_default {A : Type} (a d : A) (l : list A) :
  last (a :: l) d = last l a.
Proof.
  revert a d. induction l as [|b l IH]; intros a d; [reflexivity|].
  change (last (a :: b :: l) d) with (last (b :: l) d).
  now rewrite (IH b d), (IH b a).
Qed.

(** After the frame loop the scene is at the last frame visited. *)
Lemma frame_loop_frame (armature : Armature) (transform : Matrix) (frames : list Z) :
  forall w w',
    for_each frames (writeFrame armature transform) w = (Ok tt, w') ->
    frame_current w' = last frames (frame_current w).
Proof.
  induction frames as [|f frames IH]; intros w w'.
  - simpl. intros [= <-]. reflexivity.
  - simpl for_each. intros H. apply bind_Ok_inv in H as ([] & w2 & H1 & H2).
    unfold writeFrame in H1. apply bind_Ok_inv in H1 as ([] & w1 & Hf & Hb).
    injection Hf as <-.
    apply bone_loop_Ok_inv in Hb as (ms & _ & ->).
    rewrite (IH _ _ H2). simpl frame_current. now rewrite last_cons_default.
Qed.

Lemma last_range (a b d : Z) : a < b -> last (range a b) d = b - 1.
Proof.
  intros H. unfold range.
  replace (Z.to_nat (b - a)) with (S (Z.to_nat (b - a - 1))) by lia.
  rewrite seq_S, map_app.
  change (map (fun i : nat => a + Z.of_nat i) [(0 + Z.to_nat (b - a - 1))%nat])
    with [a + Z.of_nat (0 + Z.to_nat (b - a - 1))].
  rewrite last_last. lia.
Qed.

Lemma in_range_above' (value bound : Z) : value < 0 -> in_range value bound = false.
Proof.
  intros H. destruct (in_range value bound) eqn:E; [|reflexivity].
  apply in_range_spec in E. lia.
Qed.

Lemma pose_record_size (m : Matrix) : file_size (pose_record m) = 40.
Proof. reflexivity. Qed.

End SkeletonFile.

Section SkeletonExport.
Context {PN : PyNum} {MU : Mathutils} {BL : Blender}.
Local Open Scope exporter_scope.

(** X12.  The skeleton export that succeeds.  The armature has animation
    data and the destination can be opened; the destination then holds the
    bone count, one joint record per bone in the order of the bones (the
    parent index of the bone and the inverse of the axis mapping times its
    rest matrix), the number of actions, and one animation per action of
    [bpy.data.actions], all of them and in their order, each sampled in
    pose position [POSE]; nothing of what the file held before is left. *)
Theorem skeleton_export_layout (selected_objects : list SceneObject)
        (actions : list Action) (armature : Armature) (w w' : World) :
  getSelectedArmature selected_objects = Some armature ->
  ExportSkeletonOperator_execute selected_objects actions w = (Ok tt, w') ->
  animation_data w = true
  /\ writable w = true
  /\ exists joints segments,
       file w' = U8 (len (bones armature)) :: concat joints
                 ++ U32 (len actions) :: concat segments
       /\ Forall2 (fun bone record =>
                     exists inverse,
                       inverted (matmul getAxisMappingMatrix (bone_matrix_local bone))
                       = Some inverse
                       /\ record = joint_record (parentIndex armature bone) inverse)
                  (bones armature) joints
       /\ Forall2 (animation_segment armature getAxisMappingMatrix POSE) actions segments.
Proof.
  intros Ha H. unfold ExportSkeletonOperator_execute in H. rewrite Ha in H.
  apply bind_Ok_inv in H as (w0 & w0' & H0 & H). injection H0 as <- <-.
  apply bind_Ok_inv in H as (original & w1 & H1 & H).
  unfold get_action in H1. destruct (animation_data w) eqn:Had; [|discriminate].
  injection H1 as <- <-.
  apply bind_Ok_inv in H as ([] & w1 & H1 & H). injection H1 as <-.
  apply bind_Ok_inv in H as ([] & w2 & H2 & H).
  unfold open in H2. simpl in H2. destruct (writable w) eqn:Hw; [|discriminate].
  injection H2 as <-.
  apply bind_Ok_inv in H as ([] & w3 & H3 & H). rewrite writeUint8_run in H3.
  destruct (in_range _ 255); [|discriminate]. injection H3 as <-.
  apply bind_Ok_inv in H as ([] & w4 & H4 & H).
  unfold writeJoints in H4. apply writeJoints_Ok_inv in H4 as (joints & Hj & ->).
  apply bind_Ok_inv in H as ([] & w5 & H5 & H). rewrite writeUint32_run in H5.
  destruct (in_range _ 4294967295); [|discriminate]. injection H5 as <-.
  apply bind_Ok_inv in H as ([] & w6 & H6 & H).
  apply animations_Ok_inv in H6 as (segments & Hseg & Hfile & _).
  simpl in Hseg, Hfile.
  unfold bind, frame_set, assign_action, setArmaturePosition, get in H. simpl in H.
  destruct (animation_data w6); [|discriminate].
  injection H as <-. simpl.
  split; [reflexivity|]. split; [reflexivity|].
  exists joints, segments. split; [|split].
  - rewrite Hfile. rewrite <- app_assoc. reflexivity.
  - exact Hj.
  - exact Hseg.
Qed.

(** X13.  A bone whose rest matrix cannot be inverted stops [writeJoints]:
    with the bones before it written, and the parent indices fitting a
    byte, the call raises [ValueError] when the parent index of that bone
    is already in the file, its matrix not. *)
Theorem writeJoints_stops_at_singular_bone (armature : Armature) (transform : Matrix)
        (before after : list Bone) (bone : Bone) (records : list (list Item))
        (w : World) :
  bones armature = before ++ bone :: after ->
  Forall (fun b => 0 <= parentIndex armature b <= 255) (before ++ [bone]) ->
  Forall2 (fun b record =>
             exists inverse,
               inverted (matmul transform (bone_matrix_local b)) = Some inverse
               /\ record = joint_record (parentIndex armature b) inverse)
          before records ->
  inverted (matmul transform (bone_matrix_local bone)) = None ->
  writeJoints armature transform w
  = (Raise ValueError, emit (concat records ++ [U8 (parentIndex armature bone)]) w).
Proof.
  intros Hb Hrange Hrec Hsing. unfold writeJoints. rewrite Hb.
  rewrite for_each_app.
  apply Forall_app in Hrange as [Hbefore Hbone].
  assert (E : for_each before (writeJoint armature transform) w
              = (Ok tt, emit (concat records) w)).
  { clear Hb. revert w. induction Hrec as [|b r bs rs (inverse & Hi & ->) _ IH];
      intros w; simpl.
    - now rewrite emit_nil.
    - inversion Hbefore as [|? ? Hb0 Hbs]; subst.
      rewrite (bind_Ok _ _ _ _ _ (eq_trans (writeJoint_run _ transform b w Hb0)
                                           ltac:(rewrite Hi; reflexivity))).
      rewrite (IH Hbs), emit_emit. reflexivity. }
  rewrite (bind_Ok _ _ _ _ _ E). simpl.
  apply bind_Raise. inversion Hbone as [|? ? Hb0 _]; subst.
  rewrite (writeJoint_run _ transform bone _ Hb0), Hsing, emit_emit. reflexivity.
Qed.

(** X14.  When [writeJoints] returns, every parent index it wrote is a
    position of the bone list: at least 0 and below the bone count. *)
Theorem parent_indices_below_bone_count (armature : Armature) (transform : Matrix)
        (w w' : World) :
  writeJoints armature transform w = (Ok tt, w') ->
  Forall (fun bone => 0 <= parentIndex armature bone < len (bones armature))
         (bones armature).
Proof.
  unfold writeJoints. intros H.
  assert (Hall : Forall (fun bone => 0 <= parentIndex armature bone <= 255)
                        (bones armature)).
  { revert w H. generalize (bones armature).
    induction l as [|b l IH]; intros w H; [constructor|].
    simpl in H. apply bind_Ok_inv in H as ([] & w1 & H1 & H2).
    constructor; [exact (writeJoint_range _ _ _ _ _ H1) | exact (IH _ H2)]. }
  rewrite Forall_forall in *. intros bone Hin. specialize (Hall bone Hin).
  split; [lia|]. unfold parentIndex in *.
  destruct (bone_parent bone) as [parent|].
  - unfold find in *.
    destruct (find_from_bounds (bones armature) (bone_name parent) 0) as [E|E]; lia.
  - unfold len. destruct (bones armature); [contradiction | simpl; lia].
Qed.

(** X15.  The frame range of an animation at its edges, and the armature
    with no animation data.  On an armature with animation data, a frame
    count below zero raises [struct.error] with nothing written, the
    animation already made the active action.  A run that returns with
    frame count zero has written the header and no pose record, and left
    the scene frame alone; one that returns with a positive frame count
    leaves the scene at [endFrame].  On an armature with no animation data
    the call raises [AttributeError] at once. *)
Theorem writeAnimation_frame_range_edges (armature : Armature) (animation : Action)
        (transform : Matrix) (w : World) :
  let startFrame := num_int (vx (frame_range animation)) in
  let endFrame := num_int (vy (frame_range animation)) in
  (animation_data w = true ->
   endFrame - startFrame + 1 < 0 ->
     writeAnimation armature animation transform w
     = (Raise StructError, set_action (Some animation) w))
  /\ (forall w',
        writeAnimation armature animation transform w = (Ok tt, w') ->
        endFrame - startFrame + 1 = 0 ->
        file w' = file w ++ animation_header animation
        /\ frame_current w' = frame_current w)
  /\ (forall w',
        writeAnimation armature animation transform w = (Ok tt, w') ->
        0 < endFrame - startFrame + 1 ->
        frame_current w' = endFrame)
  /\ (animation_data w = false ->
        writeAnimation armature animation transform w = (Raise AttributeError, w)).
Proof.
  intros startFrame endFrame. split; [|split; [|split]].
  - intros Had Hneg. unfold writeAnimation. fold startFrame endFrame.
    rewrite (bind_Ok _ _ _ _ _ (assign_action_run (Some animation) w Had)).
    apply bind_Raise.
    rewrite writeUint32_run, in_range_above'; [reflexivity | exact Hneg].
  - intros w' H H0.
    unfold writeAnimation in H. fold startFrame endFrame in H.
    replace (range startFrame (endFrame + 1)) with (@nil Z) in H
      by (unfold range; replace (endFrame + 1 - startFrame) with 0 by lia; reflexivity).
    apply bind_Ok_inv in H as ([] & w1 & H1 & H).
    unfold assign_action in H1. destruct (animation_data w); [|discriminate].
    injection H1 as <-.
    apply bind_Ok_inv in H as ([] & w2 & H2 & H). rewrite writeUint32_run in H2.
    destruct (in_range _ 4294967295); [|discriminate]. injection H2 as <-.
    apply bind_Ok_inv in H as ([] & w3 & H3 & H). rewrite writeUint32_run in H3.
    destruct (in_range _ 4294967295); [|discriminate]. injection H3 as <-.
    apply bind_Ok_inv in H as ([] & w4 & H4 & H). rewrite writeString_run in H4.
    destruct (forallb _ _); [|discriminate]. injection H4 as <-.
    simpl in H. injection H as <-. simpl. split; [|reflexivity].
    unfold animation_header. fold startFrame endFrame.
    now rewrite <- !app_assoc.
  - intros w' H Hpos.
    unfold writeAnimation in H. fold startFrame endFrame in H.
    apply bind_Ok_inv in H as ([] & w1 & H1 & H).
    unfold assign_action in H1. destruct (animation_data w); [|discriminate].
    injection H1 as <-.
    apply bind_Ok_inv in H as ([] & w2 & H2 & H). rewrite writeUint32_run in H2.
    destruct (in_range _ 4294967295); [|discriminate]. injection H2 as <-.
    apply bind_Ok_inv in H as ([] & w3 & H3 & H). rewrite writeUint32_run in H3.
    destruct (in_range _ 4294967295); [|discriminate]. injection H3 as <-.
    apply bind_Ok_inv in H as ([] & w4 & H4 & H). rewrite writeString_run in H4.
    destruct (forallb _ _); [|discriminate]. injection H4 as <-.
    rewrite (frame_loop_frame _ _ _ _ _ H), last_range by lia. lia.
  - intros Had. unfold writeAnimation. apply bind_Raise.
    unfold assign_action. now rewrite Had.
Qed.

(** X16.  Sizes in the skeleton file.  With 4x4 matrices, [writeJoints]
    that returns has added 65 bytes per bone, and [writeAnimation] that
    returns has added 8 bytes, the bytes of the name, and 40 bytes per
    frame and bone. *)
Theorem skeleton_record_sizes (armature : Armature) (transform : Matrix) :
  (forall m, map (@length num) (rows m) = [4; 4; 4; 4]%nat) ->
  (forall w w',
      writeJoints armature transform w = (Ok tt, w') ->
      file_size (file w') = file_size (file w) + 65 * len (bones armature))
  /\ (forall animation w w',
        writeAnimation armature animation transform w = (Ok tt, w') ->
        file_size (file w')
        = file_size (file w) + 8 + len (action_name animation)
          + 40 * ((num_int (vy (frame_range animation))
                   - num_int (vx (frame_range animation)) + 1)
                  * len (bones armature))).
Proof.
  intros H4. split.
  - intros w w' H. unfold writeJoints in H.
    apply writeJoints_Ok_inv in H as (records & Hrec & ->).
    simpl file. rewrite file_size_app. f_equal.
    rewrite (file_size_concat 65).
    + unfold len. now rewrite (Forall2_length Hrec).
    + intros r Hr. apply In_nth_error in Hr as [i Hi].
      destruct (Forall2_nth_error_r _ _ _ Hrec _ _ Hi) as (b & _ & inverse & _ & ->).
      unfold joint_record. rewrite file_size_cons, file_size_F32. unfold len.
      rewrite (length_concat_4x4 _ (H4 inverse)). reflexivity.
  - intros animation w w' H.
    destruct (writeAnimation_Ok_inv _ _ _ _ _ H) as (Hfc & _ & blocks & Hs & Hfile & _).
    destruct (sampled_block _ _ _ _ _ _ _ Hs) as (Hlen & Hblock & _).
    assert (Hc : len (concat blocks)
                 = (num_int (vy (frame_range animation))
                    - num_int (vx (frame_range animation)) + 1)
                   * len (bones armature)).
    { unfold len. rewrite (length_concat_blocks _ _ Hblock), Hlen, Nat2Z.inj_mul.
      rewrite Z2Nat.id by lia. f_equal. lia. }
    rewrite Hfile, !file_size_app, flat_map_concat_blocks.
    rewrite (file_size_flat_map pose_record 40) by (intros; apply pose_record_size).
    rewrite Hc.
    change (file_size [U32 (num_int (vy (frame_range animation))
                            - num_int (vx (frame_range animation)) + 1);
                       U32 (len (action_name animation));
                       Text (action_name animation)])
      with (4 + (4 + (len (action_name animation) + 0))).
    lia.
Qed.

(** X17.  The root sentinel: a bone with no parent and a bone whose parent
    is the first bone of the armature are written with the same parent
    index, 0. *)
Theorem root_sentinel_is_ambiguous (first : Bone) (others : list Bone)
        (root child : Bone) :
  bone_parent root = None ->
  bone_parent child = Some first ->
  parentIndex (mkArmature (first :: others)) root = 0
  /\ parentIndex (mkArmature (first :: others)) child = 0.
Proof.
  intros Hr Hc. unfold parentIndex. rewrite Hr, Hc. split; [reflexivity|].
  unfold find. simpl. now rewrite (proj2 (str_eqb_eq _ _) eq_refl).
Qed.

(** X18.  The selection: [getSelectedMeshObjects] gives the selected mesh
    objects, all of them and in their order; [getSelectedArmature] gives
    the first selected armature, and 0 exactly when none is selected. *)
Theorem selection_filters :
  (forall selected object,
      In object (getSelectedMeshObjects selected) <-> In (MESH object) selected)
  /\ (forall a b, getSelectedMeshObjects (a ++ b)
                  = getSelectedMeshObjects a ++ getSelectedMeshObjects b)
  /\ (forall selected,
        getSelectedArmature selected = None
        <-> forall armature, ~ In (ARMATURE armature) selected)
  /\ (forall selected armature,
        getSelectedArmature selected = Some armature ->
        exists before after,
          selected = before ++ ARMATURE armature :: after
          /\ forall other, ~ In (ARMATURE other) before).
Proof.
  split; [|split; [|split]].
  - intros selected object. unfold getSelectedMeshObjects. rewrite in_flat_map. split.
    + intros ([o| |] & Hin & Ho); simpl in Ho; try contradiction.
      destruct Ho as [<-|[]]. exact Hin.
    + intros Hin. exists (MESH object). split; [exact Hin | now left].
  - intros a b. apply flat_map_app.
  - induction selected as [|[o|a|] selected IH]; simpl.
    + split; [intros _ armature [] | reflexivity].
    + rewrite IH. split.
      * intros H armature [E|Hin]; [discriminate | exact (H armature Hin)].
      * intros H armature Hin. apply (H armature). now right.
    + split; [discriminate|]. intros H. exfalso. apply (H a). now left.
    + rewrite IH. split.
      * intros H armature [E|Hin]; [discriminate | exact (H armature Hin)].
      * intros H armature Hin. apply (H armature). now right.
  - induction selected as [|[o|a|] selected IH]; intros armature; simpl.
    + discriminate.
    + intros H. destruct (IH armature H) as (before & after & -> & Hb).
      exists (MESH o :: before), after. split; [reflexivity|].
      intros other [E|Hin]; [discriminate | exact (Hb other Hin)].
    + intros [= <-]. exists [], selected. split; [reflexivity | intros other []].
    + intros H. destruct (IH armature H) as (before & after & -> & Hb).
      exists (OTHER :: before), after. split; [reflexivity|].
      intros other [E|Hin]; [discriminate | exact (Hb other Hin)].
Qed.

End SkeletonExport.

(** * The further properties at work on the sample scenes *)

Section FurtherInstances.
Import IEEE Translations Sample.

Lemma one_triangle_stream :
  objectVertices REST [coincident 1] None getAxisMappingMatrix = Ok triangle_vertices.
Proof. reflexivity. Qed.

Lemma baked_mesh_is_indexed_witness :
  getDataFromMeshObjects REST [coincident 1] None getAxisMappingMatrix
  = Ok (triangle_vertices, [mkFace [0; 1; 2]])
  /\ NoDup triangle_vertices
  /\ Forall (fun index => 0 <= index < len triangle_vertices)
            (indexBuffer [mkFace [0; 1; 2]]).
Proof.
  pose proof (coincident_bake 0) as H. split; [exact H|].
  destruct (baked_mesh_is_indexed _ _ _ _ _ _ H) as (Hnd & _ & _ & Hidx & _).
  split; [exact Hnd | exact Hidx].
Defined.

(** The two triangles of [seam] bake to the three vertices of the first:
    the corner that is a unit in the last place off is read back as the
    corner of the first triangle it is near. *)
Lemma seam_bake :
  getDataFromMeshObjects REST [seam] None getAxisMappingMatrix
  = Ok (triangle_vertices, [mkFace [0; 1; 2]; mkFace [0; 1; 2]]).
Proof. reflexivity. Qed.

Lemma seam_stream :
  objectVertices REST [seam] None getAxisMappingMatrix
  = Ok (triangle_vertices
        ++ [unbound (corner 0 0 []); unbound (corner 1 0 []); unbound nearCorner]).
Proof. reflexivity. Qed.

Lemma index_buffer_reproduces_corners_witness :
  Forall2 (fun index corner =>
             exists vertex,
               0 <= index
               /\ nth_error triangle_vertices (Z.to_nat index) = Some vertex
               /\ Vertex_hash vertex = Vertex_hash corner
               /\ Vertex_eq vertex corner = true
               /\ first_match triangle_vertices corner (Z.to_nat index)
               /\ (In corner triangle_vertices -> vertex = corner))
          (indexBuffer [mkFace [0; 1; 2]; mkFace [0; 1; 2]])
          (triangle_vertices
           ++ [unbound (corner 0 0 []); unbound (corner 1 0 []); unbound nearCorner]).
Proof.
  exact (index_buffer_reproduces_corners _ _ _ _ _ _ _ seam_bake seam_stream).
Defined.

Lemma zero_plus_zero : num_add (num_of_Z 0) (num_of_Z 0) = @num_of_Z Binary64 0.
Proof. reflexivity. Qed.

Lemma single_group_corner_witness :
  groups loose = [binding]
  /\ weight binding = S754_finite false (2 ^ 52) (-52)
  /\ makeVertex (Some rig) skinned loose
     = Ok (mkVertex (undeformed_co loose)
                    (mkVec2 (vx (loop_uv loose)) (sub (of_Z 1) (vy (loop_uv loose))))
                    (loop_normal loose)
                    [find (bones rig) [65; 114; 109]%N; 0; 0; 0]
                    [of_Z 1; S754_zero false; S754_zero false; S754_zero false]).
Proof.
  split; [reflexivity|]. split; [reflexivity|].
  exact (single_group_corner rig skinned loose binding [65; 114; 109]%N false (2 ^ 52) (-52)
                             eq_refl eq_refl eq_refl).
Defined.

Lemma unbound_corner_witness :
  makeVertex None (coincident 1) (corner 1 0 [])
  = Ok (mkVertex (undeformed_co (corner 1 0 []))
                 (mkVec2 (vx (loop_uv (corner 1 0 [])))
                         (num_sub (num_of_Z 1) (vy (loop_uv (corner 1 0 [])))))
                 (loop_normal (corner 1 0 []))
                 [0; 0; 0; 0]
                 [num_of_Z 0; num_of_Z 0; num_of_Z 0; num_of_Z 0]).
Proof.
  exact (unbound_corner None (coincident 1) (corner 1 0 []) zero_plus_zero
                        (or_introl eq_refl)).
Defined.

Lemma mesh_export_layout_witness :
  exists w',
    ExportMeshOperator_execute [MESH (coincident 1)] session = (Ok tt, w')
    /\ file_size (file w') = 5 + 6 * 1 + 32 * 3.
Proof.
  destruct (mesh_export_layout [MESH (coincident 1)] session triangle_vertices
                               [mkFace [0; 1; 2]] eq_refl)
    as [Hrun Hsize].
  - discriminate.
  - exact (coincident_bake 0).
  - unfold len. simpl. lia.
  - unfold len. simpl. lia.
  - discriminate.
  - eexists. split; [exact Hrun|]. exact Hsize.
Defined.

Lemma mesh_export_nothing_selected_witness :
  ExportMeshOperator_execute [ARMATURE rig; OTHER] session = (Ok tt, session).
Proof.
  exact (mesh_export_nothing_selected [ARMATURE rig; OTHER] session eq_refl).
Defined.

Lemma skeleton_export_layout_witness :
  exists w' joints segments,
    ExportSkeletonOperator_execute [ARMATURE rig] [Walk] session = (Ok tt, w')
    /\ file w' = U8 2 :: concat joints ++ U32 1 :: concat segments
    /\ Forall2 (fun bone record =>
                  exists inverse,
                    inverted (matmul getAxisMappingMatrix (bone_matrix_local bone))
                    = Some inverse
                    /\ record = joint_record (parentIndex rig bone) inverse)
               (bones rig) joints.
Proof.
  assert (E : fst (ExportSkeletonOperator_execute [ARMATURE rig] [Walk] session) = Ok tt)
    by (vm_compute; reflexivity).
  destruct (ExportSkeletonOperator_execute [ARMATURE rig] [Walk] session)
    as [r w'] eqn:Erun.
  simpl in E. subst r.
  destruct (skeleton_export_layout [ARMATURE rig] [Walk] rig session w' eq_refl Erun)
    as (_ & _ & joints & segments & Hfile & Hjoints & _).
  exists w', joints, segments. split; [reflexivity|]. split; [exact Hfile | exact Hjoints].
Defined.

Lemma parent_indices_below_bone_count_witness :
  Forall (fun bone => 0 <= parentIndex rig bone < len (bones rig)) (bones rig).
Proof.
  assert (E : fst (writeJoints rig getAxisMappingMatrix session) = Ok tt)
    by (vm_compute; reflexivity).
  destruct (writeJoints rig getAxisMappingMatrix session) as [r w'] eqn:Erun.
  simpl in E. subst r.
  exact (parent_indices_below_bone_count rig getAxisMappingMatrix session w' Erun).
Defined.

Lemma skeleton_record_sizes_witness :
  exists w',
    writeJoints rig getAxisMappingMatrix session = (Ok tt, w')
    /\ file_size (file w') = file_size (file session) + 65 * len (bones rig).
Proof.
  assert (E : fst (writeJoints rig getAxisMappingMatrix session) = Ok tt)
    by (vm_compute; reflexivity).
  destruct (writeJoints rig getAxisMappingMatrix session) as [r w'] eqn:Erun.
  simpl in E. subst r.
  exists w'. split; [reflexivity|].
  exact (proj1 (skeleton_record_sizes rig getAxisMappingMatrix (fun m => eq_refl))
               session w' Erun).
Defined.

Lemma root_sentinel_is_ambiguous_witness :
  parentIndex (mkArmature [Root; Child]) Root = 0
  /\ parentIndex (mkArmature [Root; Child]) Child = 0.
Proof.
  exact (root_sentinel_is_ambiguous Root [Child] Root Child eq_refl eq_refl).
Defined.

Lemma mesh_export_baking_error_witness :
  exists w',
    ExportMeshOperator_execute [ARMATURE rig; MESH dangling] session
    = (Raise IndexError, w')
    /\ file w' = file session.
Proof.
  apply (mesh_export_baking_error [ARMATURE rig; MESH dangling] session IndexError).
  - discriminate.
  - reflexivity.
Defined.

End FurtherInstances.

Section CollapsedInstances.
Import IEEE Scalings Collapsed.

Lemma writeJoints_stops_at_singular_bone_witness :
  inverted (matmul identity (bone_matrix_local Flat)) = None
  /\ writeJoints rig identity blank
     = (Raise ValueError,
        emit (concat [joint_record 0 half] ++ [U8 (parentIndex rig Flat)]) blank).
Proof.
  assert (Hsing : inverted (matmul identity (bone_matrix_local Flat)) = None)
    by reflexivity.
  split; [exact Hsing|].
  apply (writeJoints_stops_at_singular_bone rig identity [Hip] [] Flat
                                            [joint_record 0 half] blank).
  - reflexivity.
  - constructor; [vm_compute; split; discriminate|].
    constructor; [vm_compute; split; discriminate | constructor].
  - constructor; [|constructor]. exists half. split; reflexivity.
  - exact Hsing.
Defined.

End CollapsedInstances.
